(** * tlsfuzzer: message generators, state commands and mutation combinators

    A shallow embedding of [tlsfuzzer/messages.py] and proofs about
    - the byte-level mutation primitive [substitute_and_xor],
    - the commands [ResetHandshakeHashes] and [CopyVariables],
    - the key-schedule side effects run by [post_send] of the
      ClientKeyExchange, ChangeCipherSpec and Finished generators,
    - the monkey-patching combinators ([fuzz_mac], [fuzz_padding], ...),
    - message splitting ([split_message], [FlushMessageList]).

    Python integers are [Z]; a [bytearray] is a [list Z] whose stores check
    the range 0..255; a [dict] iterated in insertion order is an association
    list; [state.key] is a [gmap string (list Z)]. *)

From Stdlib Require Import ZArith Lia.
From stdpp Require Import gmap strings list.

Local Open Scope Z_scope.

(** ** Python outcomes *)

(** The exceptions the modelled code can raise.  [Diverges] is not a Python
    exception: it marks a loop that never returns. *)
Inductive exn : Set :=
| ValueError | IndexError | KeyError | AttributeError | AssertionError
| TypeError | ZeroDivisionError | SocketError | Diverges.

Inductive result (A : Type) : Type :=
| Ok (a : A)
| Raise (e : exn).
Arguments Ok {A} a.
Arguments Raise {A} e.

#[global] Instance result_ret : MRet result := fun _ a => Ok a.
#[global] Instance result_bind : MBind result := fun _ _ f r =>
  match r with Ok a => f a | Raise e => Raise e end.

(** [for k, v in d: acc = body(acc, k, v)], stopping at the first exception. *)
Fixpoint for_each {K V A} (body : A → K → V → result A) (d : list (K * V))
    (acc : A) : result A :=
  match d with
  | [] => Ok acc
  | (k, v) :: d' =>
      match body acc k v with
      | Ok acc' => for_each body d' acc'
      | Raise e => Raise e
      end
  end.

Module Py.

(** Index of a sequence of length [len]: negative indices count from the
    end, anything outside [-len, len) is an [IndexError]. *)
Definition norm_index (len pos : Z) : result nat :=
  let i := if pos <? 0 then pos + len else pos in
  if (i <? 0) || (len <=? i) then Raise IndexError else Ok (Z.to_nat i).

(** [data[pos]] *)
Definition getitem (data : list Z) (pos : Z) : result Z :=
  i ← norm_index (Z.of_nat (length data)) pos;
  match data !! i with
  | Some b => Ok b
  | None => Raise IndexError
  end.

(** [data[pos] = v] on a bytearray: the index is checked first, then the
    value has to be in [range(256)].  The order matters only for a store
    whose index and value are both invalid: CPython from 3.11 on converts
    the value first and raises [ValueError] there ([setitem_value_first]
    below; the two agree on everything else, lemma [setitem_check_order]). *)
Definition setitem (data : list Z) (pos v : Z) : result (list Z) :=
  i ← norm_index (Z.of_nat (length data)) pos;
  if (0 <=? v) && (v <? 256) then Ok (<[i := v]> data) else Raise ValueError.

(** Bounds of a slice: a negative bound counts from the end; both are
    clamped to [0, len]. *)
Definition clamp (len : nat) (b : Z) : nat :=
  let i := if b <? 0 then b + Z.of_nat len else b in
  Z.to_nat (Z.min (Z.max i 0) (Z.of_nat len)).

(** [data[:b]] and [data[b:]] *)
Definition slice_to {A} (data : list A) (b : Z) : list A :=
  take (clamp (length data) b) data.
Definition slice_from {A} (data : list A) (b : Z) : list A :=
  drop (clamp (length data) b) data.

(** Lexicographic order on 2-tuples of integers, as for [(3, 4)]. *)
Definition tuple_le (a b : Z * Z) : bool :=
  (a.1 <? b.1) || ((a.1 =? b.1) && (a.2 <=? b.2)).
Definition tuple_ge (a b : Z * Z) : bool := tuple_le b a.

End Py.

(** ** [substitute_and_xor] *)

(** A mutation dictionary: offset to byte value, in iteration order. *)
Definition mutation := list (Z * Z).

Definition substitute_and_xor (data : list Z)
    (substitutions xors : option mutation) : result (list Z) :=
  data ← match substitutions with
         | Some subs => for_each (fun data pos v => Py.setitem data pos v) subs data
         | None => Ok data
         end;
  data ← match xors with
         | Some xs =>
             for_each (fun data pos v =>
                         b ← Py.getitem data pos;
                         Py.setitem data pos (Z.lxor b v)) xs data
         | None => Ok data
         end;
  Ok data.

(** What the specification says of a mutation dictionary, read position by
    position: an offset [k] with [-len <= k < 0] stands for [len + k]. *)
Definition position (len : nat) (k : Z) : nat :=
  Z.to_nat (if k <? 0 then Z.of_nat len + k else k).

Definition is_byte (b : Z) : Prop := 0 ≤ b < 256.

Definition in_range (len : nat) (k : Z) : Prop :=
  - Z.of_nat len ≤ k < Z.of_nat len.

(** The entry of [d] whose offset designates position [i], if any. *)
Fixpoint entry_at (len : nat) (d : mutation) (i : nat) : option Z :=
  match d with
  | [] => None
  | (k, v) :: d' =>
      if decide (position len k = i) then Some v else entry_at len d' i
  end.

(** Offsets designate bytes of the data, values are bytes, and no two
    offsets of one dictionary designate the same byte. *)
Definition well_formed (len : nat) (d : mutation) : Prop :=
  Forall (fun e => in_range len e.1 ∧ is_byte e.2) d ∧
  NoDup (map (fun e => position len e.1) d).

(** ** State and exceptions

    Python code mutates its arguments in place and may raise half way: a
    computation maps the store to an outcome and the store as the exception
    (or the return) leaves it. *)
Definition M (S A : Type) : Type := S → result A * S.

#[global] Instance M_ret {S} : MRet (M S) := fun _ a s => (Ok a, s).
#[global] Instance M_bind {S} : MBind (M S) := fun _ _ f m s =>
  match m s with
  | (Ok a, s') => f a s'
  | (Raise e, s') => (Raise e, s')
  end.

Definition raise {S A} (e : exn) : M S A := fun s => (Raise e, s).
Definition gets {S A} (f : S → A) : M S A := fun s => (Ok (f s), s).
Definition modify {S} (f : S → S) : M S unit := fun s => (Ok tt, f s).
Definition lift {S A} (r : result A) : M S A := fun s => (r, s).

(** ** Messages and the record layer object *)

(** A message object as the generators hand it on: its content type and what
    its [write()] method returns ([fuzz_message] replaces that method, and
    the replacement may raise). *)
Record message : Type := { contentType : Z; write : result (list Z) }.

(** [Message(content_type, data)] *)
Definition Message (content_type : Z) (data : list Z) : message :=
  {| contentType := content_type; write := Ok data |}.

(** The three methods of the record layer that the combinators replace.
    [calculateMAC(mac, seqnumBytes, contentType, data)]; [addPadding(data)],
    a bound method that reads [self.blockSize] when it is called;
    [_recordSocket.send(message, padding)], whose result here is the bytes
    it hands to the socket. *)
Definition mac_fn : Type := list Z → list Z → Z → list Z → result (list Z).
Definition pad_fn : Type := Z → list Z → result (list Z).
Definition send_fn : Type := message → Z → result (list Z).

(** Attributes are dynamically typed: any of the three can be stored under
    any name, and calling one in the wrong place is a [TypeError]. *)
Inductive method : Type :=
| MacMethod (f : mac_fn)
| PaddingMethod (f : pad_fn)
| SendMethod (f : send_fn).

Definition call_mac (m : method) : mac_fn :=
  match m with
  | MacMethod f => f
  | _ => fun _ _ _ _ => Raise TypeError
  end.
Definition call_pad (m : method) : pad_fn :=
  match m with
  | PaddingMethod f => f
  | _ => fun _ _ => Raise TypeError
  end.
Definition call_send (m : method) : send_fn :=
  match m with
  | SendMethod f => f
  | _ => fun _ _ => Raise TypeError
  end.

Record RecordSocket : Type := { send : method }.

Definition set_send (v : method) (r : RecordSocket) : RecordSocket :=
  {| send := v |}.

(** [state.msg_sock], a tlslite [MessageSocket]: the replaceable methods, the
    fields the generators read or write, and [other_attrs], the instance
    attributes that [setattr] creates under any other name.  A pending or
    current state is [None] for the null cipher [ConnectionState()]. *)
Record MessageSocket : Type := {
  calculateMAC : method;
  addPadding : method;
  _recordSocket : RecordSocket;
  blockSize : Z;
  encryptThenMAC : bool;
  _writeState : option (list Z);
  _pendingWriteState : option (list Z);
  _pendingReadState : option (list Z);
  send_record_limit : Z;
  recordSize : Z;
  other_attrs : list (string * method)
}.

Definition set_calculateMAC (v : method) (r : MessageSocket) : MessageSocket :=
  {| calculateMAC := v; addPadding := addPadding r; _recordSocket :=
     _recordSocket r; blockSize := blockSize r; encryptThenMAC :=
     encryptThenMAC r; _writeState := _writeState r; _pendingWriteState :=
     _pendingWriteState r; _pendingReadState := _pendingReadState r;
     send_record_limit := send_record_limit r; recordSize := recordSize r;
     other_attrs := other_attrs r |}.
Definition set_addPadding (v : method) (r : MessageSocket) : MessageSocket :=
  {| calculateMAC := calculateMAC r; addPadding := v; _recordSocket :=
     _recordSocket r; blockSize := blockSize r; encryptThenMAC :=
     encryptThenMAC r; _writeState := _writeState r; _pendingWriteState :=
     _pendingWriteState r; _pendingReadState := _pendingReadState r;
     send_record_limit := send_record_limit r; recordSize := recordSize r;
     other_attrs := other_attrs r |}.
Definition set__recordSocket (v : RecordSocket) (r : MessageSocket) : MessageSocket :=
  {| calculateMAC := calculateMAC r; addPadding := addPadding r;
     _recordSocket := v; blockSize := blockSize r; encryptThenMAC :=
     encryptThenMAC r; _writeState := _writeState r; _pendingWriteState :=
     _pendingWriteState r; _pendingReadState := _pendingReadState r;
     send_record_limit := send_record_limit r; recordSize := recordSize r;
     other_attrs := other_attrs r |}.
Definition set_encryptThenMAC (v : bool) (r : MessageSocket) : MessageSocket :=
  {| calculateMAC := calculateMAC r; addPadding := addPadding r;
     _recordSocket := _recordSocket r; blockSize := blockSize r;
     encryptThenMAC := v; _writeState := _writeState r; _pendingWriteState :=
     _pendingWriteState r; _pendingReadState := _pendingReadState r;
     send_record_limit := send_record_limit r; recordSize := recordSize r;
     other_attrs := other_attrs r |}.
Definition set__writeState (v : option (list Z)) (r : MessageSocket) : MessageSocket :=
  {| calculateMAC := calculateMAC r; addPadding := addPadding r;
     _recordSocket := _recordSocket r; blockSize := blockSize r;
     encryptThenMAC := encryptThenMAC r; _writeState := v; _pendingWriteState
     := _pendingWriteState r; _pendingReadState := _pendingReadState r;
     send_record_limit := send_record_limit r; recordSize := recordSize r;
     other_attrs := other_attrs r |}.
Definition set__pendingWriteState (v : option (list Z)) (r : MessageSocket) : MessageSocket :=
  {| calculateMAC := calculateMAC r; addPadding := addPadding r;
     _recordSocket := _recordSocket r; blockSize := blockSize r;
     encryptThenMAC := encryptThenMAC r; _writeState := _writeState r;
     _pendingWriteState := v; _pendingReadState := _pendingReadState r;
     send_record_limit := send_record_limit r; recordSize := recordSize r;
     other_attrs := other_attrs r |}.
Definition set__pendingReadState (v : option (list Z)) (r : MessageSocket) : MessageSocket :=
  {| calculateMAC := calculateMAC r; addPadding := addPadding r;
     _recordSocket := _recordSocket r; blockSize := blockSize r;
     encryptThenMAC := encryptThenMAC r; _writeState := _writeState r;
     _pendingWriteState := _pendingWriteState r; _pendingReadState := v;
     send_record_limit := send_record_limit r; recordSize := recordSize r;
     other_attrs := other_attrs r |}.
Definition set_send_record_limit (v : Z) (r : MessageSocket) : MessageSocket :=
  {| calculateMAC := calculateMAC r; addPadding := addPadding r;
     _recordSocket := _recordSocket r; blockSize := blockSize r;
     encryptThenMAC := encryptThenMAC r; _writeState := _writeState r;
     _pendingWriteState := _pendingWriteState r; _pendingReadState :=
     _pendingReadState r; send_record_limit := v; recordSize := recordSize r;
     other_attrs := other_attrs r |}.
Definition set_recordSize (v : Z) (r : MessageSocket) : MessageSocket :=
  {| calculateMAC := calculateMAC r; addPadding := addPadding r;
     _recordSocket := _recordSocket r; blockSize := blockSize r;
     encryptThenMAC := encryptThenMAC r; _writeState := _writeState r;
     _pendingWriteState := _pendingWriteState r; _pendingReadState :=
     _pendingReadState r; send_record_limit := send_record_limit r;
     recordSize := v; other_attrs := other_attrs r |}.
Definition set_other_attrs (v : list (string * method)) (r : MessageSocket) : MessageSocket :=
  {| calculateMAC := calculateMAC r; addPadding := addPadding r;
     _recordSocket := _recordSocket r; blockSize := blockSize r;
     encryptThenMAC := encryptThenMAC r; _writeState := _writeState r;
     _pendingWriteState := _pendingWriteState r; _pendingReadState :=
     _pendingReadState r; send_record_limit := send_record_limit r;
     recordSize := recordSize r; other_attrs := v |}.

(** [setattr(state.msg_sock, name, value)]: [name] is one attribute name,
    dots in it are not followed. *)
Definition setattr (name : string) (value : method) (sock : MessageSocket)
    : MessageSocket :=
  if decide (name = "calculateMAC") then set_calculateMAC value sock
  else if decide (name = "addPadding") then set_addPadding value sock
  else set_other_attrs
         ((name, value) :: filter (fun e => e.1 ≠ name) (other_attrs sock)) sock.

(** [changeWriteState()] of the record layer: the pending write state becomes
    the current one and a null state takes its place. *)
Definition changeWriteState (sock : MessageSocket) : MessageSocket :=
  set__pendingWriteState None (set__writeState (_pendingWriteState sock) sock).

(** ** The connection state *)

(** [ConnectionState] of the runner, as far as [messages.py] reads or writes
    it.  [handshake_hashes] is the running transcript: the bytes of every
    handshake message fed to [update], in order; a [copy()] of it is a value.
    [certificate_verify_handshake_hashes] is [None] until a snapshot is
    saved. *)
Record ConnectionState : Type := {
  msg_sock : MessageSocket;
  version : Z * Z;
  cipher : Z;
  client_random : list Z;
  server_random : list Z;
  session_id : list Z;
  key : gmap string (list Z);
  handshake_hashes : list Z;
  certificate_verify_handshake_hashes : option (list Z);
  handshake_messages : list message;
  resuming : bool;
  extended_master_secret : bool;
  encrypt_then_mac : bool;
  prf_name : string;
  _our_record_size_limit : Z;
  _peer_record_size_limit : Z
}.

Definition set_msg_sock (v : MessageSocket) (r : ConnectionState) : ConnectionState :=
  {| msg_sock := v; version := version r; cipher := cipher r; client_random
     := client_random r; server_random := server_random r; session_id :=
     session_id r; key := key r; handshake_hashes := handshake_hashes r;
     certificate_verify_handshake_hashes :=
     certificate_verify_handshake_hashes r; handshake_messages :=
     handshake_messages r; resuming := resuming r; extended_master_secret :=
     extended_master_secret r; encrypt_then_mac := encrypt_then_mac r;
     prf_name := prf_name r; _our_record_size_limit := _our_record_size_limit
     r; _peer_record_size_limit := _peer_record_size_limit r |}.
Definition set_key (v : gmap string (list Z)) (r : ConnectionState) : ConnectionState :=
  {| msg_sock := msg_sock r; version := version r; cipher := cipher r;
     client_random := client_random r; server_random := server_random r;
     session_id := session_id r; key := v; handshake_hashes :=
     handshake_hashes r; certificate_verify_handshake_hashes :=
     certificate_verify_handshake_hashes r; handshake_messages :=
     handshake_messages r; resuming := resuming r; extended_master_secret :=
     extended_master_secret r; encrypt_then_mac := encrypt_then_mac r;
     prf_name := prf_name r; _our_record_size_limit := _our_record_size_limit
     r; _peer_record_size_limit := _peer_record_size_limit r |}.
Definition set_handshake_hashes (v : list Z) (r : ConnectionState) : ConnectionState :=
  {| msg_sock := msg_sock r; version := version r; cipher := cipher r;
     client_random := client_random r; server_random := server_random r;
     session_id := session_id r; key := key r; handshake_hashes := v;
     certificate_verify_handshake_hashes :=
     certificate_verify_handshake_hashes r; handshake_messages :=
     handshake_messages r; resuming := resuming r; extended_master_secret :=
     extended_master_secret r; encrypt_then_mac := encrypt_then_mac r;
     prf_name := prf_name r; _our_record_size_limit := _our_record_size_limit
     r; _peer_record_size_limit := _peer_record_size_limit r |}.
Definition set_certificate_verify_handshake_hashes (v : option (list Z)) (r : ConnectionState) : ConnectionState :=
  {| msg_sock := msg_sock r; version := version r; cipher := cipher r;
     client_random := client_random r; server_random := server_random r;
     session_id := session_id r; key := key r; handshake_hashes :=
     handshake_hashes r; certificate_verify_handshake_hashes := v;
     handshake_messages := handshake_messages r; resuming := resuming r;
     extended_master_secret := extended_master_secret r; encrypt_then_mac :=
     encrypt_then_mac r; prf_name := prf_name r; _our_record_size_limit :=
     _our_record_size_limit r; _peer_record_size_limit :=
     _peer_record_size_limit r |}.
Definition set_handshake_messages (v : list message) (r : ConnectionState) : ConnectionState :=
  {| msg_sock := msg_sock r; version := version r; cipher := cipher r;
     client_random := client_random r; server_random := server_random r;
     session_id := session_id r; key := key r; handshake_hashes :=
     handshake_hashes r; certificate_verify_handshake_hashes :=
     certificate_verify_handshake_hashes r; handshake_messages := v; resuming
     := resuming r; extended_master_secret := extended_master_secret r;
     encrypt_then_mac := encrypt_then_mac r; prf_name := prf_name r;
     _our_record_size_limit := _our_record_size_limit r;
     _peer_record_size_limit := _peer_record_size_limit r |}.
Definition set_resuming (v : bool) (r : ConnectionState) : ConnectionState :=
  {| msg_sock := msg_sock r; version := version r; cipher := cipher r;
     client_random := client_random r; server_random := server_random r;
     session_id := session_id r; key := key r; handshake_hashes :=
     handshake_hashes r; certificate_verify_handshake_hashes :=
     certificate_verify_handshake_hashes r; handshake_messages :=
     handshake_messages r; resuming := v; extended_master_secret :=
     extended_master_secret r; encrypt_then_mac := encrypt_then_mac r;
     prf_name := prf_name r; _our_record_size_limit := _our_record_size_limit
     r; _peer_record_size_limit := _peer_record_size_limit r |}.
Definition set__our_record_size_limit (v : Z) (r : ConnectionState) : ConnectionState :=
  {| msg_sock := msg_sock r; version := version r; cipher := cipher r;
     client_random := client_random r; server_random := server_random r;
     session_id := session_id r; key := key r; handshake_hashes :=
     handshake_hashes r; certificate_verify_handshake_hashes :=
     certificate_verify_handshake_hashes r; handshake_messages :=
     handshake_messages r; resuming := resuming r; extended_master_secret :=
     extended_master_secret r; encrypt_then_mac := encrypt_then_mac r;
     prf_name := prf_name r; _our_record_size_limit := v;
     _peer_record_size_limit := _peer_record_size_limit r |}.
Definition set__peer_record_size_limit (v : Z) (r : ConnectionState) : ConnectionState :=
  {| msg_sock := msg_sock r; version := version r; cipher := cipher r;
     client_random := client_random r; server_random := server_random r;
     session_id := session_id r; key := key r; handshake_hashes :=
     handshake_hashes r; certificate_verify_handshake_hashes :=
     certificate_verify_handshake_hashes r; handshake_messages :=
     handshake_messages r; resuming := resuming r; extended_master_secret :=
     extended_master_secret r; encrypt_then_mac := encrypt_then_mac r;
     prf_name := prf_name r; _our_record_size_limit := _our_record_size_limit
     r; _peer_record_size_limit := v |}.

(** [state.key[name]] *)
Definition key_lookup (name : string) (st : ConnectionState) : result (list Z) :=
  match key st !! name with
  | Some v => Ok v
  | None => Raise KeyError
  end.

(** ** Generator objects *)

Module Self.

(** Instance attributes of a generator object that the modelled methods and
    combinators read or write. *)
Record dict : Type := {
  msg : option message;
  old_calculate_mac : option method;
  old_add_padding : option method;
  old_send : option method;
  extended_master_secret : option bool;
  fake : bool
}.

Definition set_msg (v : option message) (r : dict) : dict :=
  {| msg := v; old_calculate_mac := old_calculate_mac r; old_add_padding :=
     old_add_padding r; old_send := old_send r; extended_master_secret :=
     extended_master_secret r; fake := fake r |}.
Definition set_old_calculate_mac (v : option method) (r : dict) : dict :=
  {| msg := msg r; old_calculate_mac := v; old_add_padding := old_add_padding
     r; old_send := old_send r; extended_master_secret :=
     extended_master_secret r; fake := fake r |}.
Definition set_old_add_padding (v : option method) (r : dict) : dict :=
  {| msg := msg r; old_calculate_mac := old_calculate_mac r; old_add_padding
     := v; old_send := old_send r; extended_master_secret :=
     extended_master_secret r; fake := fake r |}.
Definition set_old_send (v : option method) (r : dict) : dict :=
  {| msg := msg r; old_calculate_mac := old_calculate_mac r; old_add_padding
     := old_add_padding r; old_send := v; extended_master_secret :=
     extended_master_secret r; fake := fake r |}.
Definition set_extended_master_secret (v : option bool) (r : dict) : dict :=
  {| msg := msg r; old_calculate_mac := old_calculate_mac r; old_add_padding
     := old_add_padding r; old_send := old_send r; extended_master_secret :=
     v; fake := fake r |}.

(** [getattr(obj, name)] for the names under which the combinators save a
    method. *)
Definition getattr (name : string) (d : dict) : result method :=
  let found (o : option method) :=
    match o with Some m => Ok m | None => Raise AttributeError end in
  if decide (name = "old_calculate_mac") then found (old_calculate_mac d)
  else if decide (name = "old_add_padding") then found (old_add_padding d)
  else if decide (name = "old_send") then found (old_send d)
  else Raise AttributeError.

End Self.

(** What running one node can touch: the connection state passed as [state],
    the generator object ([self] in the closures), the list shared through
    [fragment_list], and the bytes handed to the socket so far. *)
Record world : Type := {
  state : ConnectionState;
  self : Self.dict;
  fragment_list : list message;
  sent : list (list Z)
}.

Definition set_state (v : ConnectionState) (r : world) : world :=
  {| state := v; self := self r; fragment_list := fragment_list r; sent :=
     sent r |}.
Definition set_self (v : Self.dict) (r : world) : world :=
  {| state := state r; self := v; fragment_list := fragment_list r; sent :=
     sent r |}.
Definition set_fragment_list (v : list message) (r : world) : world :=
  {| state := state r; self := self r; fragment_list := v; sent := sent r |}.
Definition set_sent (v : list (list Z)) (r : world) : world :=
  {| state := state r; self := self r; fragment_list := fragment_list r; sent
     := v |}.

Definition on_state (f : ConnectionState → ConnectionState) (w : world) : world :=
  set_state (f (state w)) w.
Definition on_msg_sock (f : MessageSocket → MessageSocket) (w : world) : world :=
  on_state (fun st => set_msg_sock (f (msg_sock st)) st) w.
Definition on_self (f : Self.dict → Self.dict) (w : world) : world :=
  set_self (f (self w)) w.

(** A generator node: its [generate] and [post_send] methods, which the
    combinators replace. *)
Record MessageGenerator : Type := {
  generate : M world message;
  post_send : M world unit
}.

(** ** The collaborators *)

(** The TLS library's key derivation, called but not implemented by
    tlsfuzzer: [calcMasterSecret(version, cipher, premaster, client_random,
    server_random)], [calcExtendedMasterSecret(version, cipher, premaster,
    handshake_hashes)], the key expansion behind [calcPendingStates(cipher,
    master_secret, client_random, server_random, ...)], which yields the
    pending write and read states of a client, and [derive_secret(secret,
    label, handshake_hashes, prf_name)]. *)
Class Collaborator : Type := {
  calcMasterSecret : Z * Z → Z → list Z → list Z → list Z → list Z;
  calcExtendedMasterSecret : Z * Z → Z → list Z → list Z → list Z;
  calcPendingStates : Z → list Z → list Z → list Z → list Z * list Z;
  derive_secret : list Z → string → list Z → string → list Z
}.

(** What the record layer hands to the socket for one message, given the
    [msg_sock] with the methods installed at that moment; a failed send
    raises. *)
Class Transport : Type :=
  sendMessage : MessageSocket → message → result (list Z).

(** Modelled from the spec: [calc_pending_states] of
    [tlsfuzzer/handshake_helpers.py] is not among the sources.  Following
    sections 4.2 and 6 it hands the negotiated cipher suite, the stored
    master secret and both randoms to the collaborator, whose result becomes
    the pending write and read state of the record layer. *)
Definition calc_pending_states `{Collaborator} : M world unit :=
  status ← gets state;
  master_secret ← lift (key_lookup "master_secret" status);
  let pending := calcPendingStates (cipher status) master_secret
                   (client_random status) (server_random status) in
  modify (on_msg_sock (fun sock =>
    set__pendingReadState (Some pending.2)
      (set__pendingWriteState (Some pending.1) sock))).

(** Modelled from the spec: the Runner ([tlsfuzzer/runner.py]) is not among
    the sources.  Section 4.3, step 2: for a Generator it invokes [generate],
    transmits the message through the Transport and then invokes
    [post_send]; by sections 4.1 and 7 a failed transmission ends the
    conversation at once, so [post_send] runs only after a successful
    send. *)
Definition run_generator `{Transport} (node : MessageGenerator) : M world unit :=
  msg ← generate node;
  sock ← gets (fun w => msg_sock (state w));
  bytes ← lift (sendMessage sock msg);
  modify (fun w => set_sent (sent w ++ [bytes]) w);;
  post_send node.

(** ** Commands *)

Module ResetHandshakeHashes.

Definition process : M ConnectionState unit :=
  modify (set_handshake_hashes []);;
  modify (fun state => set_key (delete "PSK secret" (key state)) state);;
  modify (fun state => set_key (delete "DH shared secret" (key state)) state);;
  modify (set__our_record_size_limit (2 ^ 14));;
  modify (set__peer_record_size_limit (2 ^ 14)).

End ResetHandshakeHashes.

Module CopyVariables.

(** [self.log]: for every requested name the array the values are appended
    to, in the order [items()] yields them. *)
Definition log : Type := list (string * list (list Z)).

(** The value copied for [name], or the [ValueError] of an undefined one. *)
Definition value_of (state : ConnectionState) (name : string) : result (list Z) :=
  if decide (name = "ClientHello.random") then Ok (client_random state)
  else if decide (name = "ServerHello.random") then Ok (server_random state)
  else if decide (name = "ServerHello.session_id") then Ok (session_id state)
  else match key state !! name with
       | None => Raise ValueError
       | Some v => Ok v
       end.

Fixpoint process (state : ConnectionState) (l : log) : result unit * log :=
  match l with
  | [] => (Ok tt, [])
  | (name, val) :: rest =>
      match value_of state name with
      | Raise e => (Raise e, l)
      | Ok v =>
          let (r, rest') := process state rest in
          (r, (name, val ++ [v]) :: rest')
      end
  end.

End CopyVariables.

(** ** Generators *)

Module HandshakeProtocolMessageGenerator.

Definition post_send : M world unit :=
  m ← gets (fun w => Self.msg (self w));
  match m with
  | None => raise AttributeError
  | Some m =>
      data ← lift (write m);
      modify (on_state (fun st =>
        set_handshake_hashes (handshake_hashes st ++ data) st));;
      modify (on_state (fun st =>
        set_handshake_messages (handshake_messages st ++ [m]) st))
  end.

End HandshakeProtocolMessageGenerator.

Module ClientKeyExchangeGenerator.

Record t : Type := {
  cipher : option Z;
  version : option (Z * Z);
  client_version : option (Z * Z);
  premaster_secret : list Z;
  dh_Yc : option Z;
  padding_subs : option mutation;
  padding_xors : option mutation;
  ecdh_Yc : option (list Z);
  encrypted_premaster : option (list Z);
  modulus_as_encrypted_premaster : bool;
  p_as_share : bool;
  p_1_as_share : bool
}.

(** [bytearray(48)] is 48 zero bytes. *)
Definition __init__ (cipher : option Z) (version client_version : option (Z * Z))
    (dh_Yc : option Z) (padding_subs padding_xors : option mutation)
    (ecdh_Yc encrypted_premaster : option (list Z))
    (modulus_as_encrypted_premaster p_as_share p_1_as_share : bool)
    (premaster_secret : option (list Z)) : result t :=
  let self :=
    {| cipher := cipher; version := version; client_version := client_version;
       premaster_secret := match premaster_secret with
                           | None => replicate 48 0
                           | Some p => p
                           end;
       dh_Yc := dh_Yc; padding_subs := padding_subs;
       padding_xors := padding_xors; ecdh_Yc := ecdh_Yc;
       encrypted_premaster := encrypted_premaster;
       modulus_as_encrypted_premaster := modulus_as_encrypted_premaster;
       p_as_share := p_as_share; p_1_as_share := p_1_as_share |} in
  if p_as_share && p_1_as_share then Raise ValueError else Ok self.

Definition post_send : M world unit :=
  HandshakeProtocolMessageGenerator.post_send;;
  modify (on_state (fun st =>
    set_certificate_verify_handshake_hashes (Some (handshake_hashes st)) st)).

End ClientKeyExchangeGenerator.

Module ChangeCipherSpecGenerator.

Definition post_send `{Collaborator} : M world unit :=
  status ← gets state;
  this ← gets self;
  if Py.tuple_ge (version status) (3, 4) || Self.fake this then mret tt else
  let cipher_suite := cipher status in
  modify (on_msg_sock (set_encryptThenMAC (encrypt_then_mac status)));;
  match Self.extended_master_secret this with
  | None => modify (on_self (Self.set_extended_master_secret
                               (Some (extended_master_secret status))))
  | Some _ => mret tt
  end;;
  this ← gets self;
  (if resuming status then mret tt else
     master_secret ←
       (if default false (Self.extended_master_secret this) then
          let hh := match certificate_verify_handshake_hashes status with
                    | Some hh => hh
                    | None => handshake_hashes status
                    end in
          premaster ← lift (key_lookup "premaster_secret" status);
          mret (calcExtendedMasterSecret (version status) cipher_suite
                  premaster hh)
        else
          premaster ← lift (key_lookup "premaster_secret" status);
          mret (calcMasterSecret (version status) cipher_suite premaster
                  (client_random status) (server_random status)));
     modify (on_state (fun st =>
       set_key (<["master_secret" := master_secret]> (key st)) st));;
     calc_pending_states);;
  modify (on_msg_sock changeWriteState);;
  if decide (_peer_record_size_limit status = 0) then mret tt else
  modify (on_msg_sock (set_send_record_limit (_peer_record_size_limit status)));;
  modify (on_msg_sock (set_recordSize (_peer_record_size_limit status))).

End ChangeCipherSpecGenerator.

Module FinishedGenerator.

Definition post_send `{Collaborator} : M world unit :=
  HandshakeProtocolMessageGenerator.post_send;;
  modify (on_state (set_resuming false));;
  status ← gets state;
  if Py.tuple_le (version status) (3, 3) then mret tt else
  modify (on_msg_sock changeWriteState);;
  secret ← lift (key_lookup "master secret" status);
  let res_ms := derive_secret secret "res master" (handshake_hashes status)
                  (prf_name status) in
  modify (on_state (fun st =>
    set_key (<["resumption master secret" := res_ms]> (key st)) st)).

End FinishedGenerator.

(** ** Mutation combinators *)

#[global] Instance exn_eq_dec : EqDecision exn.
Proof. solve_decision. Defined.
#[global] Instance result_eq_dec `{EqDecision A} : EqDecision (result A).
Proof. solve_decision. Defined.
#[global] Instance message_eq_dec : EqDecision message.
Proof. solve_decision. Defined.

(** [msg.write = new_write]: the message object gets a new [write].  The
    generator's [self.msg] is patched with it when it is the message just
    returned (told here by its value); [write()] is taken to build its bytes
    afresh at every call, as the handshake messages do.  A message whose
    [write()] hands out the bytearray it holds is changed by [new_write]
    itself, since [substitute_and_xor] works in place: that case is
    [new_write] with [OwnBuffer] further down, and it differs from this
    definition only from the second [write()] of a mutated message on. *)
Definition fuzz_message (generator : MessageGenerator)
    (substitutions xors : option mutation) : MessageGenerator :=
  let new_generate : M world message :=
    msg ← generate generator;
    let new_write :=
      data ← write msg;
      data ← substitute_and_xor data substitutions xors;
      Ok data in
    let patched := {| contentType := contentType msg; write := new_write |} in
    modify (on_self (fun d =>
      if decide (Self.msg d = Some msg) then Self.set_msg (Some patched) d
      else d));;
    mret patched in
  {| generate := new_generate; post_send := post_send generator |}.

Definition post_send_msg_sock_restore (obj : MessageGenerator)
    (method_name old_method_name : string) : MessageGenerator :=
  let new_post_send : M world unit :=
    this ← gets self;
    old ← lift (Self.getattr old_method_name this);
    modify (on_msg_sock (setattr method_name old));;
    post_send obj in
  {| generate := generate obj; post_send := new_post_send |}.

Definition fuzz_mac (generator : MessageGenerator)
    (substitutions xors : option mutation) : MessageGenerator :=
  let new_generate : M world message :=
    msg ← generate generator;
    old_calculate_mac ← gets (fun w => calculateMAC (msg_sock (state w)));
    modify (on_self (Self.set_old_calculate_mac (Some old_calculate_mac)));;
    let new_calculate_mac : mac_fn := fun mac seqnumBytes contentType data =>
      mac_bytes ← call_mac old_calculate_mac mac seqnumBytes contentType data;
      mac_bytes ← substitute_and_xor mac_bytes substitutions xors;
      Ok mac_bytes in
    modify (on_msg_sock (set_calculateMAC (MacMethod new_calculate_mac)));;
    mret msg in
  post_send_msg_sock_restore
    {| generate := new_generate; post_send := post_send generator |}
    "calculateMAC" "old_calculate_mac".

Definition fuzz_encrypted_message (generator : MessageGenerator)
    (substitutions xors : option mutation) : MessageGenerator :=
  let new_generate : M world message :=
    msg ← generate generator;
    old_send ← gets (fun w => send (_recordSocket (msg_sock (state w))));
    modify (on_self (Self.set_old_send (Some old_send)));;
    let new_send : send_fn := fun message padding =>
      data ← write message;
      data ← substitute_and_xor data substitutions xors;
      let new_message := Message (contentType message) data in
      call_send old_send new_message padding in
    modify (on_msg_sock (fun sock =>
      set__recordSocket (set_send (SendMethod new_send) (_recordSocket sock))
        sock));;
    mret msg in
  post_send_msg_sock_restore
    {| generate := new_generate; post_send := post_send generator |}
    "._recordSocket.send" "old_send".

(** [divmod] rounds towards minus infinity, as [Z.div] and [Z.modulo] do. *)
Definition div_ceil (divident divisor : Z) : result Z :=
  if decide (divisor = 0) then Raise ZeroDivisionError else
  let quotient := divident / divisor in
  let reminder := divident mod divisor in
  Ok (quotient + (if decide (reminder = 0) then 0 else 1)).

Definition fuzz_padding (generator : MessageGenerator) (min_length : option Z)
    (substitutions xors : option mutation) : result MessageGenerator :=
  if match min_length with Some l => 256 <=? l | None => false end
  then Raise ValueError else
  let new_generate : M world message :=
    msg ← generate generator;
    old_add_padding ← gets (fun w => addPadding (msg_sock (state w)));
    modify (on_self (Self.set_old_add_padding (Some old_add_padding)));;
    let new_add_padding : pad_fn := fun block_size data =>
      padding ←
        match min_length with
        | None =>
            padded_data ← call_pad old_add_padding block_size data;
            padding_length ← Py.getitem padded_data (-1);
            Ok (Py.slice_from padded_data (- (padding_length + 1)))
        | Some min_length =>
            blocks ← div_ceil (Z.of_nat (length data) + min_length) block_size;
            let padding_length := blocks * block_size - Z.of_nat (length data) in
            if 256 <? padding_length then Raise ValueError
            else Ok (replicate (Z.to_nat padding_length) (padding_length - 1))
        end;
      padding ← substitute_and_xor padding substitutions xors;
      Ok (data ++ padding) in
    modify (on_msg_sock (set_addPadding (PaddingMethod new_add_padding)));;
    mret msg in
  Ok (post_send_msg_sock_restore
        {| generate := new_generate; post_send := post_send generator |}
        "addPadding" "old_add_padding").

(** The hook returns the bytearray [new_plaintext] itself at every call.  It
    is a value here, which is the same as long as nothing changes that
    object in place; of the combinators of this file only the hook of a
    [fuzz_plaintext] wrapped around this one does (see [padding_layers]). *)
Definition replace_plaintext (generator : MessageGenerator) (new_plaintext : list Z)
    : MessageGenerator :=
  let new_generate : M world message :=
    msg ← generate generator;
    old_add_padding ← gets (fun w => addPadding (msg_sock (state w)));
    modify (on_self (Self.set_old_add_padding (Some old_add_padding)));;
    let new_add_padding : pad_fn := fun block_size data =>
      if decide (block_size = 0) then Raise ZeroDivisionError
      else if decide (Z.of_nat (length new_plaintext) mod block_size = 0)
      then Ok new_plaintext
      else Raise ValueError in
    modify (on_msg_sock (set_addPadding (PaddingMethod new_add_padding)));;
    mret msg in
  post_send_msg_sock_restore
    {| generate := new_generate; post_send := post_send generator |}
    "addPadding" "old_add_padding".

Definition fuzz_plaintext (generator : MessageGenerator)
    (substitutions xors : option mutation) : MessageGenerator :=
  let new_generate : M world message :=
    msg ← generate generator;
    old_add_padding ← gets (fun w => addPadding (msg_sock (state w)));
    modify (on_self (Self.set_old_add_padding (Some old_add_padding)));;
    let new_add_padding : pad_fn := fun block_size data =>
      data ← call_pad old_add_padding block_size data;
      data ← substitute_and_xor data substitutions xors;
      Ok data in
    modify (on_msg_sock (set_addPadding (PaddingMethod new_add_padding)));;
    mret msg in
  post_send_msg_sock_restore
    {| generate := new_generate; post_send := post_send generator |}
    "addPadding" "old_add_padding".

(** An RSA key of the collaborator: the modulus and the padding method that
    [fuzz_pkcs1_padding] replaces. *)
Record RSAKey : Type := {
  n : Z;
  _addPKCS1Padding : list Z → Z → result (list Z)
}.

(** [numBytes] of the collaborator: the length of [n] in bytes. *)
Definition numBytes (n : Z) : Z :=
  if decide (n = 0) then 0 else (Z.log2 (Z.abs n) + 1 + 7) / 8.

(** [not d] for an optional dictionary: [None] and the empty one are false. *)
Definition is_empty (d : option mutation) : bool :=
  match d with
  | None | Some [] => true
  | Some _ => false
  end.

Definition fuzz_pkcs1_padding (key : RSAKey)
    (substitutions xors : option mutation) : RSAKey :=
  if is_empty xors && is_empty substitutions then key else
  let new_addPKCS1Padding := fun bytes blockType =>
    ret ← _addPKCS1Padding key bytes blockType;
    let pad_length := numBytes (n key) - Z.of_nat (length bytes) in
    let pad := Py.slice_to ret pad_length in
    let value := Py.slice_from ret pad_length in
    pad ← substitute_and_xor pad substitutions xors;
    Ok (pad ++ value) in
  {| n := n key; _addPKCS1Padding := new_addPKCS1Padding |}.

(** ** Splitting a message *)

(** [fragment_list.pop(0)] *)
Definition pop0 : M world message := fun w =>
  match fragment_list w with
  | [] => (Raise IndexError, w)
  | m :: rest => (Ok m, set_fragment_list rest w)
  end.

(** [while len(data) > 0: ...].  Every pass that ends leaves less data, so
    [length data] passes are enough whenever the loop ends at all; running
    out of them is [Diverges]. *)
Fixpoint split_loop (passes : nat) (content_type : Z) (data : list Z)
    (size : Z) : M world unit :=
  match data with
  | [] => mret tt
  | _ :: _ =>
      match passes with
      | O => raise Diverges
      | S passes =>
          modify (fun w =>
            set_fragment_list
              (fragment_list w ++ [Message content_type (Py.slice_to data size)])
              w);;
          split_loop passes content_type (Py.slice_from data size) size
      end
  end.

(** [split_message(generator, fragment_list, size)]; the list is the
    [fragment_list] of the store. *)
Definition split_message (generator : MessageGenerator) (size : Z) : MessageGenerator :=
  let new_generate : M world message :=
    msg ← generate generator;
    let content_type := contentType msg in
    data ← lift (write msg);
    split_loop (length data) content_type data size;;
    pop0 in
  {| generate := new_generate; post_send := post_send generator |}.

Module PopMessageFromList.

Definition generate : M world message := pop0.

End PopMessageFromList.

Module FlushMessageList.

(** [while len(self.fragment_list) > 0: ...]: one pass for each fragment
    left. *)
Fixpoint flush_loop (passes : nat) (content_type : Z) (data : list Z)
    : M world (list Z) :=
  match passes with
  | O => mret data
  | S passes =>
      msg_frag ← pop0;
      if decide (contentType msg_frag = content_type) then
        more ← lift (write msg_frag);
        flush_loop passes content_type (data ++ more)
      else raise AssertionError
  end.

Definition generate : M world message :=
  msg ← pop0;
  let content_type := contentType msg in
  data ← lift (write msg);
  left ← gets (fun w => length (fragment_list w));
  data ← flush_loop left content_type data;
  mret (Message content_type data).

End FlushMessageList.

(** ** Vocabulary of the properties *)

(** The names [CopyVariables] does not look up in [state.key]. *)
Definition special_name (name : string) : Prop :=
  name = "ClientHello.random" ∨ name = "ServerHello.random"
  ∨ name = "ServerHello.session_id".

(** The three replaceable methods of [state.msg_sock]. *)
Definition hooks (w : world) : method * method * method :=
  let sock := msg_sock (state w) in
  (calculateMAC sock, addPadding sock, send (_recordSocket sock)).

(** A method of a generator that leaves the three methods alone, whatever
    its outcome. *)
Definition keeps_hooks {A} (m : M world A) : Prop :=
  ∀ w, hooks (m w).2 = hooks w.

(** The bytes that reach the socket when [generate] is followed by the
    transmission of its message. *)
Definition transmitted `{Transport} (node : MessageGenerator) (w : world)
    : result (list Z) :=
  match generate node w with
  | (Ok msg, w') => sendMessage (msg_sock (state w')) msg
  | (Raise e, _) => Raise e
  end.

(** The message is transmitted whenever [generate] gets as far as handing
    one to the record layer. *)
Definition send_succeeds `{Transport} (node : MessageGenerator) (w : world)
    : Prop :=
  ∀ msg w', generate node w = (Ok msg, w') →
    ∃ bytes, sendMessage (msg_sock (state w')) msg = Ok bytes.

(** Two record layer objects that answer every call alike: the methods give
    equal results on all arguments (the record socket is handed plain
    [Message(contentType, data)] objects) and the other fields are equal. *)
Definition same_calls (a b : MessageSocket) : Prop :=
  (∀ mac seqnumBytes contentType data,
     call_mac (calculateMAC a) mac seqnumBytes contentType data =
     call_mac (calculateMAC b) mac seqnumBytes contentType data)
  ∧ (∀ data,
     call_pad (addPadding a) (blockSize a) data =
     call_pad (addPadding b) (blockSize b) data)
  ∧ (∀ contentType data padding,
     call_send (send (_recordSocket a)) (Message contentType data) padding =
     call_send (send (_recordSocket b)) (Message contentType data) padding)
  ∧ blockSize a = blockSize b
  ∧ encryptThenMAC a = encryptThenMAC b
  ∧ _writeState a = _writeState b
  ∧ _pendingWriteState a = _pendingWriteState b
  ∧ _pendingReadState a = _pendingReadState b
  ∧ send_record_limit a = send_record_limit b
  ∧ recordSize a = recordSize b
  ∧ other_attrs a = other_attrs b.

(** A record layer that uses its methods only by calling them. *)
Definition extensional (T : Transport) : Prop :=
  ∀ a b msg, same_calls a b → @sendMessage T a msg = @sendMessage T b msg.

(** The padding method in place answers with its input followed by
    well-formed padding: [paddingLength + 1] bytes of value
    [paddingLength]. *)
Definition tls_padding (sock : MessageSocket) : Prop :=
  ∀ data out,
    call_pad (addPadding sock) (blockSize sock) data = Ok out →
    ∃ paddingLength,
      0 ≤ paddingLength
      ∧ out = data ++ replicate (Z.to_nat (paddingLength + 1)) paddingLength.

(** ** Concrete collaborators and states

    Small instances on which the definitions above can be run. *)

(** Key derivation that only tags and concatenates its inputs, so that the
    result shows which function was called with what. *)
#[local] Instance tagging : Collaborator := {|
  calcMasterSecret := fun _ _ premaster client_random server_random =>
    1 :: premaster ++ client_random ++ server_random;
  calcExtendedMasterSecret := fun _ _ premaster handshake_hashes =>
    2 :: premaster ++ handshake_hashes;
  calcPendingStates := fun cipher master_secret _ _ =>
    (3 :: cipher :: master_secret, 4 :: cipher :: master_secret);
  derive_secret := fun secret _ handshake_hashes _ =>
    5 :: secret ++ handshake_hashes
|}.

(** Block cipher padding as the record layer of the collaborator adds it:
    [paddingLength] bytes of value [paddingLength], and the length byte. *)
Definition tls_addPadding : pad_fn := fun block_size data =>
  if decide (block_size = 0) then Raise ZeroDivisionError else
  let paddingLength := block_size - 1 - Z.of_nat (length data) mod block_size in
  Ok (data ++ replicate (Z.to_nat (paddingLength + 1)) paddingLength).

(** A MAC of two bytes: the content type and the length of the data. *)
Definition toy_mac : mac_fn := fun _ _ contentType data =>
  Ok [contentType; Z.of_nat (length data)].

(** The record socket writes the content type, then the data. *)
Definition toy_send : send_fn := fun message _ =>
  data ← write message;
  Ok (contentType message :: data).

Definition sock0 : MessageSocket :=
  {| calculateMAC := MacMethod toy_mac;
     addPadding := PaddingMethod tls_addPadding;
     _recordSocket := {| send := SendMethod toy_send |};
     blockSize := 8; encryptThenMAC := false;
     _writeState := None; _pendingWriteState := Some [7]; _pendingReadState := None;
     send_record_limit := 2 ^ 14; recordSize := 2 ^ 14; other_attrs := [] |}.

Definition state0 : ConnectionState :=
  {| msg_sock := sock0; version := (3, 3); cipher := 47;
     client_random := [11]; server_random := [12]; session_id := [13];
     key := {[ "premaster_secret" := [3; 3; 9] ]};
     handshake_hashes := [1; 2]; certificate_verify_handshake_hashes := None;
     handshake_messages := []; resuming := false;
     extended_master_secret := true; encrypt_then_mac := false;
     prf_name := "sha256";
     _our_record_size_limit := 2 ^ 14; _peer_record_size_limit := 2 ^ 14 |}.

Definition self0 : Self.dict :=
  {| Self.msg := None; Self.old_calculate_mac := None;
     Self.old_add_padding := None; Self.old_send := None;
     Self.extended_master_secret := None; Self.fake := false |}.

Definition world0 : world :=
  {| state := state0; self := self0; fragment_list := []; sent := [] |}.

(** [RawMessageGenerator(content_type, data)] *)
Definition RawMessageGenerator (content_type : Z) (data : list Z)
    : MessageGenerator :=
  {| generate := mret (Message content_type data); post_send := mret tt |}.

(** A record layer that MACs, pads and sends through the three methods of
    [msg_sock], and one whose socket is closed. *)
Definition mac_pad_send : Transport := fun sock msg =>
  data ← write msg;
  mac ← call_mac (calculateMAC sock) [] [] (contentType msg) data;
  padded ← call_pad (addPadding sock) (blockSize sock) (data ++ mac);
  call_send (send (_recordSocket sock)) (Message (contentType msg) padded) 0.

Definition closed_socket : Transport := fun _ _ => Raise SocketError.


(** ** Further vocabulary: a mutation dictionary read position by position *)

(** The byte at position [i] after the substitutions of [d], in iteration
    order, when it was [b] before: the last entry designating [i] wins. *)
Fixpoint substituted_at (len : nat) (d : mutation) (i : nat) (b : Z) : Z :=
  match d with
  | [] => b
  | (k, v) :: d' =>
      substituted_at len d' i (if decide (position len k = i) then v else b)
  end.

(** The byte at position [i] after the xors of [d]: every mask whose offset
    designates [i] is applied. *)
Fixpoint xored_at (len : nat) (d : mutation) (i : nat) (b : Z) : Z :=
  match d with
  | [] => b
  | (k, v) :: d' =>
      xored_at len d' i (if decide (position len k = i) then Z.lxor b v else b)
  end.

(** [data[pos] = v] with the value converted before the index is looked at,
    as CPython does from 3.11 on. *)
Definition setitem_value_first (data : list Z) (pos v : Z) : result (list Z) :=
  if (0 <=? v) && (v <? 256)
  then i ← Py.norm_index (Z.of_nat (length data)) pos; Ok (<[i := v]> data)
  else Raise ValueError.

(** Offsets designate bytes of the data and values are bytes; two offsets
    may designate the same byte. *)
Definition in_bounds (len : nat) (d : mutation) : Prop :=
  Forall (fun e => in_range len e.1 ∧ is_byte e.2) d.

(** [node] is [generator] wrapped by one of the three combinators that
    replace [addPadding]. *)
Definition padding_wrapper (generator node : MessageGenerator) : Prop :=
  (∃ min_length substitutions xors,
     fuzz_padding generator min_length substitutions xors = Ok node)
  ∨ (∃ substitutions xors, node = fuzz_plaintext generator substitutions xors)
  ∨ (∃ new_plaintext, node = replace_plaintext generator new_plaintext).

(** Two wrappers of [addPadding], [inner] around [generator] and [node]
    around [inner].  [replace_plaintext] under [fuzz_plaintext] is left out:
    the hook of [replace_plaintext] returns the bytearray [new_plaintext]
    itself and [substitute_and_xor] in the hook of [fuzz_plaintext] changes
    it in place, so that pair also changes what the inner hook returns
    afterwards.  In every other pair the outer hook works on a copy
    ([fuzz_padding] slices, [replace_plaintext] drops the data) or on bytes
    made for this call. *)
Definition padding_layers (generator inner node : MessageGenerator) : Prop :=
  (((∃ min_length substitutions xors,
       fuzz_padding generator min_length substitutions xors = Ok inner)
    ∨ (∃ substitutions xors, inner = fuzz_plaintext generator substitutions xors))
   ∧ padding_wrapper inner node)
  ∨ ((∃ new_plaintext, inner = replace_plaintext generator new_plaintext)
     ∧ ((∃ min_length substitutions xors,
           fuzz_padding inner min_length substitutions xors = Ok node)
        ∨ (∃ new_plaintext, node = replace_plaintext inner new_plaintext))).

(** [n] nodes [PopMessageFromList(fragment_list)] run one after the other,
    with the messages they generate. *)
Fixpoint pop_all (n : nat) : M world (list message) :=
  match n with
  | O => mret []
  | S n =>
      m ← PopMessageFromList.generate;
      ms ← pop_all n;
      mret (m :: ms)
  end.

(** ** A patched [write] and the bytearray it works on

    [substitute_and_xor] changes the bytearray it is given and returns that
    same object.  [new_write] of [fuzz_message] gives it what the message's
    own [write()] returns: for a handshake message a bytearray built for
    this call, for a plain [Message] (the one [RawMessageGenerator]
    returns) the bytearray the message holds, which then stays changed.
    The store is the bytes the message holds. *)

Inductive write_kind : Type := BuildsAfresh | OwnBuffer.

(** [data[pos] = v] and [data[pos] ^= v] on the bytearray in the store. *)
Definition setitem_in_place (pos v : Z) : M (list Z) unit := fun data =>
  match Py.setitem data pos v with
  | Ok data' => (Ok tt, data')
  | Raise e => (Raise e, data)
  end.

Definition xor_in_place (pos v : Z) : M (list Z) unit := fun data =>
  match Py.getitem data pos with
  | Ok b => setitem_in_place pos (Z.lxor b v) data
  | Raise e => (Raise e, data)
  end.

Fixpoint each_in_place (body : Z → Z → M (list Z) unit) (d : mutation)
    : M (list Z) unit :=
  match d with
  | [] => mret tt
  | (pos, v) :: d' => body pos v;; each_in_place body d'
  end.

(** [substitute_and_xor] as it runs: the stores made before an exception
    stay in the bytearray. *)
Definition substitute_and_xor_in_place (substitutions xors : option mutation)
    : M (list Z) unit :=
  match substitutions with
  | Some subs => each_in_place setitem_in_place subs
  | None => mret tt
  end;;
  match xors with
  | Some xs => each_in_place xor_in_place xs
  | None => mret tt
  end.

(** [new_write] of [fuzz_message], for the two kinds of [old_write]. *)
Definition new_write (kind : write_kind) (substitutions xors : option mutation)
    : M (list Z) (list Z) :=
  match kind with
  | OwnBuffer =>
      substitute_and_xor_in_place substitutions xors;;
      gets id
  | BuildsAfresh => fun held =>
      (((substitute_and_xor_in_place substitutions xors;; gets id) held).1, held)
  end.

(** ** The RSA key of the server in [ClientKeyExchangeGenerator] *)

(** [public_key.encrypt(bytes)] of the collaborator; it pads with the
    [_addPKCS1Padding] the key has when it is called. *)
Class PublicKeyOps : Type :=
  encrypt : RSAKey → list Z → result (list Z).

(** [ClientKeyExchangeGenerator._encrypt_with_fuzzing]; the store is the key
    object, which [fuzz_pkcs1_padding] changes in place. *)
Definition _encrypt_with_fuzzing `{PublicKeyOps}
    (self : ClientKeyExchangeGenerator.t) : M RSAKey (list Z) :=
  old_addPKCS1Padding ← gets _addPKCS1Padding;
  modify (fun public_key =>
    fuzz_pkcs1_padding public_key
      (ClientKeyExchangeGenerator.padding_subs self)
      (ClientKeyExchangeGenerator.padding_xors self));;
  ret ← (fun public_key =>
           (encrypt public_key (ClientKeyExchangeGenerator.premaster_secret self),
            public_key));
  modify (fun public_key =>
    {| n := n public_key; _addPKCS1Padding := old_addPKCS1Padding |});;
  mret ret.

(** An encryption that only pads (block type 2), and a key of six bytes
    whose padding is 0, the block type, bytes of value 255 and 0. *)
Definition pad_only : PublicKeyOps := fun public_key bytes =>
  _addPKCS1Padding public_key bytes 2.

Definition key0 : RSAKey :=
  {| n := 2 ^ 47;
     _addPKCS1Padding := fun bytes blockType =>
       Ok (0 :: blockType :: replicate (3 - length bytes) 255 ++ 0 :: bytes) |}.

(** ** More commands *)

Module ResetRenegotiationInfo.

Record t : Type := {
  client_verify_data : option (list Z);
  server_verify_data : option (list Z)
}.

Definition __init__ (client server : option (list Z)) : t :=
  {| client_verify_data := client; server_verify_data := server |}.

(** The store is the command object and the connection state.  After the
    two tests for [None] each attribute of the object holds the value given
    to the constructor, or [bytearray(0)]. *)
Definition process : M (t * ConnectionState) unit :=
  self ← gets fst;
  let client := match client_verify_data self with
                | None => []
                | Some data => data
                end in
  let server := match server_verify_data self with
                | None => []
                | Some data => data
                end in
  modify (fun s =>
    ({| client_verify_data := Some client; server_verify_data := Some server |},
     s.2));;
  modify (fun s =>
    (s.1, set_key (<["client_verify_data" := client]> (key s.2)) s.2));;
  modify (fun s =>
    (s.1, set_key (<["server_verify_data" := server]> (key s.2)) s.2)).

End ResetRenegotiationInfo.

Module CollectNonces.

(** [encContext.seal(nonce, buf, authData)]; the store is the list
    [nonces] linked with the command. *)
Definition seal_fn : Type :=
  list Z → list Z → list Z → M (list (list Z)) (list Z).

Definition collector (old_seal : seal_fn) : seal_fn :=
  fun nonce buf authData =>
    modify (fun nonces => nonces ++ [nonce]);;
    old_seal nonce buf authData.

(** [process] on [state.msg_sock._writeState.encContext], which is [None]
    until a cipher is in use. *)
Definition process (encContext : option seal_fn) : result (option seal_fn) :=
  match encContext with
  | None => Raise AttributeError
  | Some seal_mthd => Ok (Some (collector seal_mthd))
  end.

(** A seal method that leaves the list alone, as the one of the cipher. *)
Definition plain_seal (f : list Z → list Z → list Z → result (list Z)) : seal_fn :=
  fun nonce buf authData nonces => (f nonce buf authData, nonces).

(** The records sealed one after the other, until one fails. *)
Fixpoint seal_all (seal : seal_fn) (records : list (list Z * list Z * list Z))
    : M (list (list Z)) (list (list Z)) :=
  match records with
  | [] => mret []
  | (nonce, buf, authData) :: records =>
      sealed ← seal nonce buf authData;
      more ← seal_all seal records;
      mret (sealed :: more)
  end.

End CollectNonces.

(** ** Padding and truncating handshake messages *)

(** [Writer().add(x, length)] of the collaborator's codec: the bytes it
    appends for the value [x] written in [length] bytes, or its error. *)
Class Writer : Type :=
  add : Z → nat → result (list Z).

(** [bytearray(ints)]: every element has to be in [range(256)]. *)
Definition bytearray (ints : list Z) : result (list Z) :=
  if forallb (fun b => (0 <=? b) && (b <? 256)) ints then Ok ints
  else Raise ValueError.

(** A handshake message object: its type, the bytes its [write()] has put
    in the writer when it calls [postWrite], and its [postWrite] method. *)
Record HandshakeMsg : Type := {
  handshakeType : Z;
  writer_bytes : list Z;
  postWrite : list Z → result (list Z)
}.

(** The [post_write] that [pad_handshake] installs on a message. *)
Definition post_write `{Writer} (self_handshakeType : Z) (size pad_byte : Z)
    (pad : option (list Z)) (writer_bytes : list Z) : result (list Z) :=
  let size := match pad with
              | Some pad => Z.of_nat (length pad)
              | None => size
              end in
  type_bytes ← add self_handshakeType 1;
  length_bytes ← add (Z.of_nat (length writer_bytes) + size) 3;
  let header_writer_bytes := type_bytes ++ length_bytes in
  match pad with
  | Some pad => Ok (header_writer_bytes ++ writer_bytes ++ pad)
  | None =>
      if size <? 0
      then Ok (header_writer_bytes ++ Py.slice_to writer_bytes size)
      else padding ← bytearray (replicate (Z.to_nat size) pad_byte);
           Ok (header_writer_bytes ++ writer_bytes ++ padding)
  end.

Definition pad_handshake `{Writer} (generator : M world HandshakeMsg)
    (size pad_byte : Z) (pad : option (list Z)) : M world HandshakeMsg :=
  msg ← generator;
  mret {| handshakeType := handshakeType msg;
          writer_bytes := writer_bytes msg;
          postWrite := post_write (handshakeType msg) size pad_byte pad |}.

Definition truncate_handshake `{Writer} (generator : M world HandshakeMsg)
    (size pad_byte : Z) : M world HandshakeMsg :=
  pad_handshake generator (- size) pad_byte None.

(** A writer of big-endian numbers that rejects what does not fit. *)
Fixpoint big_endian (length : nat) (x : Z) : list Z :=
  match length with
  | O => []
  | S length => big_endian length (x / 256) ++ [x mod 256]
  end.

Definition big_endian_writer : Writer := fun x length =>
  if (0 <=? x) && (x <? 256 ^ Z.of_nat length) then Ok (big_endian length x)
  else Raise ValueError.

(** ** Extensions of the Client Hello *)

Definition set_client_random (v : list Z) (r : ConnectionState) : ConnectionState :=
  {| msg_sock := msg_sock r; version := version r; cipher := cipher r;
     client_random := v; server_random := server_random r;
     session_id := session_id r; key := key r;
     handshake_hashes := handshake_hashes r;
     certificate_verify_handshake_hashes := certificate_verify_handshake_hashes r;
     handshake_messages := handshake_messages r; resuming := resuming r;
     extended_master_secret := extended_master_secret r;
     encrypt_then_mac := encrypt_then_mac r; prf_name := prf_name r;
     _our_record_size_limit := _our_record_size_limit r;
     _peer_record_size_limit := _peer_record_size_limit r |}.

Module ClientHelloGenerator.

(** An extension object: one made by [TLSExtension().create(ext_id, data)]
    or handed in by the script, told by its type and payload, or the
    [RenegotiationInfoExtension] with its [renegotiated_connection]. *)
Inductive extension : Type :=
| TLSExtension (extType : Z) (extData : list Z)
| RenegotiationInfoExtension (renegotiated_connection : list Z).

(** [ExtensionType.renegotiation_info] *)
Definition renegotiation_info : Z := 65281.

(** A value of the dictionary [self.extensions]: [None], a callable (the
    handlers of this file read the state and return an extension or raise),
    an extension object, the marker [AutoEmptyExtension()], or anything
    else. *)
Inductive extension_value : Type :=
| IsNone
| Callable (handler : ConnectionState → result extension)
| Object (ext : extension)
| AutoEmpty
| Other.

Definition _generate_extensions (self_extensions : list (Z * extension_value))
    (state : ConnectionState) : result (list extension) :=
  for_each (fun extensions ext_id value =>
    match value with
    | Callable handler =>
        ext ← handler state;
        Ok (extensions ++ [ext])
    | Object ext => Ok (extensions ++ [ext])
    | AutoEmpty => Ok (extensions ++ [TLSExtension ext_id []])
    | Other => Raise ValueError
    | IsNone =>
        if decide (ext_id = renegotiation_info) then
          client_verify_data ← key_lookup "client_verify_data" state;
          Ok (extensions ++ [RenegotiationInfoExtension client_verify_data])
        else Raise ValueError
    end) self_extensions [].

(** What the entry [(ext_id, value)] of the dictionary becomes. *)
Definition generated (state : ConnectionState) (entry : Z * extension_value)
    (ext : extension) : Prop :=
  match entry.2 with
  | Callable handler => handler state = Ok ext
  | Object given => ext = given
  | AutoEmpty => ext = TLSExtension entry.1 []
  | Other => False
  | IsNone =>
      entry.1 = renegotiation_info
      ∧ ∃ data, key state !! "client_verify_data" = Some data
                ∧ ext = RenegotiationInfoExtension data
  end.

(** [ExtensionType.supported_versions] *)
Definition supported_versions : Z := 43.

(** The [ClientHello] message object: what [create] is given, and
    [compression_methods]. *)
Module Hello.

Record t : Type := {
  ssl2 : bool;
  client_version : Z * Z;
  random : list Z;
  session_id : list Z;
  cipher_suites : list Z;
  extensions : option (list extension);
  compression_methods : list Z
}.

End Hello.

(** [state] with its attribute [client_version]. *)
Record status : Type := {
  conn : ConnectionState;
  client_version : Z * Z
}.

(** A modifier is called with the state and the message and changes them in
    place. *)
Definition modifier : Type := Hello.t → M status Hello.t.

(** The attributes of the generator object. *)
Module Object.

Record t : Type := {
  version : option (Z * Z);
  ciphers : list Z;
  extensions : option (list (Z * extension_value));
  session_id : option (list Z);
  random : option (list Z);
  compression : list Z;
  ssl2 : bool;
  modifiers : option (list modifier);
  msg : option Hello.t
}.

End Object.

Definition __init__ (ciphers : option (list Z))
    (extensions : option (list (Z * extension_value)))
    (version : option (Z * Z)) (session_id random : option (list Z))
    (compression : option (list Z)) (ssl2 : bool)
    (modifiers : option (list modifier)) : Object.t :=
  {| Object.version := version;
     Object.ciphers := match ciphers with None => [] | Some c => c end;
     Object.extensions := extensions;
     Object.session_id := session_id;
     Object.random := random;
     Object.compression := match compression with None => [0] | Some c => c end;
     Object.ssl2 := ssl2;
     Object.modifiers := modifiers;
     Object.msg := None |}.

(** [for mod in self.modifiers: mod(state, clnt_hello)] *)
Fixpoint run_modifiers (mods : list modifier) (clnt_hello : Hello.t)
    : M status Hello.t :=
  match mods with
  | [] => mret clnt_hello
  | modifier :: mods =>
      clnt_hello ← modifier clnt_hello;
      run_modifiers mods clnt_hello
  end.

(** [generate]; the store is the generator object and the state, and
    [fresh] is what [getRandomBytes(32)] returns when it is called.  The
    assignments before [_generate_extensions] cannot raise: they are
    computed one after the other and stored together. *)
Definition generate (fresh : list Z) : M (Object.t * status) Hello.t :=
  self ← gets fst;
  state ← gets snd;
  let version := match Object.version self with
                 | None => client_version state
                 | Some version => version
                 end in
  let random := match Object.random self with
                | Some (b :: random) => b :: random
                | _ => client_random (conn state)
                end in
  let session := match Object.session_id self, session_id (conn state) with
                 | None, b :: session => Some (b :: session)
                 | given, _ => given
                 end in
  let session := match session, Object.extensions self with
                 | None, Some (entry :: entries) =>
                     if bool_decide (supported_versions ∈ (entry :: entries).*1)
                     then Some fresh else None
                 | given, _ => given
                 end in
  let session := match session with
                 | Some (b :: session) => b :: session
                 | _ => []
                 end in
  let random := match random with
                | [] => replicate 32 0
                | _ => random
                end in
  modify (fun s =>
    ({| Object.version := Some version;
        Object.ciphers := Object.ciphers self;
        Object.extensions := Object.extensions self;
        Object.session_id := Some session;
        Object.random := Object.random self;
        Object.compression := Object.compression self;
        Object.ssl2 := Object.ssl2 self;
        Object.modifiers := Object.modifiers self;
        Object.msg := Object.msg self |},
     {| conn := set_client_random random (conn state);
        client_version := client_version state |}));;
  state ← gets snd;
  extensions ← match Object.extensions self with
                | None => mret None
                | Some entries =>
                    extensions ← lift (_generate_extensions entries (conn state));
                    mret (Some extensions)
                end;
  let clnt_hello :=
    {| Hello.ssl2 := Object.ssl2 self;
       Hello.client_version := version;
       Hello.random := client_random (conn state);
       Hello.session_id := session;
       Hello.cipher_suites := Object.ciphers self;
       Hello.extensions := extensions;
       Hello.compression_methods := Object.compression self |} in
  mods ← match Object.modifiers self with
          | None =>
              modify (fun s =>
                ({| Object.version := Object.version s.1;
                    Object.ciphers := Object.ciphers s.1;
                    Object.extensions := Object.extensions s.1;
                    Object.session_id := Object.session_id s.1;
                    Object.random := Object.random s.1;
                    Object.compression := Object.compression s.1;
                    Object.ssl2 := Object.ssl2 s.1;
                    Object.modifiers := Some [];
                    Object.msg := Object.msg s.1 |}, s.2));;
              mret []
          | Some mods => mret mods
          end;
  clnt_hello ← (fun s =>
    let (r, state) := run_modifiers mods clnt_hello s.2 in (r, (s.1, state)));
  modify (fun s =>
    (s.1, {| conn := conn s.2; client_version := version |}));;
  modify (fun s =>
    ({| Object.version := Object.version s.1;
        Object.ciphers := Object.ciphers s.1;
        Object.extensions := Object.extensions s.1;
        Object.session_id := Object.session_id s.1;
        Object.random := Object.random s.1;
        Object.compression := Object.compression s.1;
        Object.ssl2 := Object.ssl2 s.1;
        Object.modifiers := Object.modifiers s.1;
        Object.msg := Some clnt_hello |}, s.2));;
  mret clnt_hello.

(** A generator without modifiers: [modifiers] is [None] or empty. *)
Definition no_modifiers (self : Object.t) : Prop :=
  Object.modifiers self = None ∨ Object.modifiers self = Some [].

End ClientHelloGenerator.

(** ** The signature algorithm of the Certificate Verify *)

Module CertificateVerifyGenerator.

(** The signature schemes of [tlslite.constants] that [_select_sig_alg]
    names: [rsa_pss_pss_sha256/384/512]; [rsa_pss_sha256/384/512], the
    [rsa_pss_rsae] ones; [(HashAlgorithm.md5, SignatureAlgorithm.rsa)] and
    [rsa_pkcs1_sha1/224/256/384/512]. *)
Definition rsa_pss_pss : list (Z * Z) := [(8, 9); (8, 10); (8, 11)].
Definition rsa_pss_rsae : list (Z * Z) := [(8, 4); (8, 5); (8, 6)].
Definition rsa_pkcs1 : list (Z * Z) :=
  [(1, 1); (2, 1); (3, 1); (4, 1); (5, 1); (6, 1)].

(** [a < b] on 2-tuples. *)
Definition tuple_lt (a b : Z * Z) : bool := negb (Py.tuple_le b a).

Fixpoint _select_sig_alg (key_type : string) (sig_version : Z * Z)
    (supported_signature_algs : list (Z * Z)) : result (option (Z * Z)) :=
  match supported_signature_algs with
  | [] => Ok None
  | sig :: rest =>
      if decide (key_type = "rsa-pss") then
        if bool_decide (sig ∈ rsa_pss_pss) then Ok (Some sig)
        else _select_sig_alg key_type sig_version rest
      else if decide (key_type = "rsa") then
        if bool_decide (sig ∈ rsa_pss_rsae) then Ok (Some sig)
        else if tuple_lt sig_version (3, 4) && bool_decide (sig ∈ rsa_pkcs1)
        then Ok (Some sig)
        else _select_sig_alg key_type sig_version rest
      else Raise AssertionError
  end.

(** The schemes a key of [key_type] signs with at [sig_version]. *)
Definition acceptable (key_type : string) (sig_version : Z * Z) (sig : Z * Z)
    : Prop :=
  (key_type = "rsa-pss" ∧ sig ∈ rsa_pss_pss)
  ∨ (key_type = "rsa"
     ∧ (sig ∈ rsa_pss_rsae
        ∨ (tuple_lt sig_version (3, 4) = true ∧ sig ∈ rsa_pkcs1))).

End CertificateVerifyGenerator.

Module SetMaxRecordSize.

Record t : Type := { max_size : option Z }.

Definition process (self : t) : M ConnectionState unit :=
  match max_size self with
  | None => modify (fun state =>
      set_msg_sock (set_recordSize (2 ^ 14) (msg_sock state)) state)
  | Some size => modify (fun state =>
      set_msg_sock (set_recordSize size (msg_sock state)) state)
  end.

End SetMaxRecordSize.
(* ===================================================================== *)
(** * Properties *)
(* ===================================================================== *)

Example sax_last_byte :
  substitute_and_xor [1; 2; 3] (Some [(-1, 255)]) None = Ok [1; 2; 255].
Proof. reflexivity. Qed.

Example sax_out_of_range :
  substitute_and_xor [1; 2; 3] None (Some [(3, 1)]) = Raise IndexError.
Proof. reflexivity. Qed.

(** ** Byte mutation *)

Section SubstituteAndXor.

Implicit Types (data : list Z) (d : mutation) (k v : Z) (i : nat).

Lemma norm_index_in_range data k :
  in_range (length data) k →
  Py.norm_index (Z.of_nat (length data)) k = Ok (position (length data) k)
  ∧ (position (length data) k < length data)%nat.
Proof.
  unfold in_range, Py.norm_index, position. intros Hk.
  destruct (Z.ltb_spec k 0).
  - replace (k + Z.of_nat (length data) <? 0) with false by lia.
    replace (Z.of_nat (length data) <=? k + Z.of_nat (length data)) with false by lia.
    simpl. split; [f_equal; lia | lia].
  - replace (k <? 0) with false by lia.
    replace (Z.of_nat (length data) <=? k) with false by lia.
    simpl. split; [done | lia].
Qed.

Lemma setitem_in_range data k v :
  in_range (length data) k → is_byte v →
  Py.setitem data k v = Ok (<[position (length data) k := v]> data).
Proof.
  intros Hk [Hv0 Hv1]. unfold Py.setitem.
  destruct (norm_index_in_range data k Hk) as [-> _]. simpl.
  replace (0 <=? v) with true by lia. replace (v <? 256) with true by lia.
  done.
Qed.

Lemma getitem_in_range data k b :
  in_range (length data) k → data !! position (length data) k = Some b →
  Py.getitem data k = Ok b.
Proof.
  intros Hk Hb. unfold Py.getitem.
  destruct (norm_index_in_range data k Hk) as [-> _]. simpl. by rewrite Hb.
Qed.

Lemma lxor_byte a b : is_byte a → is_byte b → is_byte (Z.lxor a b).
Proof.
  unfold is_byte. intros [Ha0 Ha1] [Hb0 Hb1].
  assert (H0 : 0 ≤ Z.lxor a b) by (apply Z.lxor_nonneg; lia).
  split; [done |].
  destruct (decide (Z.lxor a b = 0)) as [-> | Hne]; [lia |].
  apply (Z.log2_lt_pow2 _ 8); [lia |].
  eapply Z.le_lt_trans; [apply Z.log2_lxor; lia |].
  apply Z.max_lub_lt.
  - destruct (decide (a = 0)) as [-> | ?]; [done |].
    apply Z.log2_lt_pow2; lia.
  - destruct (decide (b = 0)) as [-> | ?]; [done |].
    apply Z.log2_lt_pow2; lia.
Qed.

(** The substitution loop position by position, for offsets that may
    share a byte. *)
Lemma substitutions_at d : ∀ data,
  in_bounds (length data) d →
  ∃ out,
    for_each (fun data pos v => Py.setitem data pos v) d data = Ok out
    ∧ length out = length data
    ∧ ∀ i b, data !! i = Some b →
        out !! i = Some (substituted_at (length data) d i b).
Proof.
  induction d as [| [k v] d IH]; intros data Hall; simpl.
  - exists data. eauto.
  - apply Forall_cons in Hall as [[Hk Hv] Hall]. simpl in *.
    rewrite setitem_in_range by done.
    set (p := position (length data) k) in *.
    destruct (IH (<[p := v]> data)) as (out & Hrun & Hlen & Hpt).
    { by rewrite length_insert. }
    rewrite length_insert in *.
    exists out. split; [done |]. split; [done |].
    intros i b Hb. destruct (decide (p = i)) as [<- | Hne].
    + apply Hpt. apply list_lookup_insert_eq. by eapply lookup_lt_Some.
    + apply Hpt. by rewrite list_lookup_insert_ne.
Qed.

Lemma substitutions_bytes d : ∀ data out,
  Forall is_byte data →
  in_bounds (length data) d →
  for_each (fun data pos v => Py.setitem data pos v) d data = Ok out →
  Forall is_byte out.
Proof.
  induction d as [| [k v] d IH]; intros data out Hb Hall; simpl.
  - congruence.
  - apply Forall_cons in Hall as [[Hk Hv] Hall]. simpl in *.
    rewrite setitem_in_range by done. apply IH.
    + by apply Forall_insert.
    + by rewrite length_insert.
Qed.

(** The XOR loop position by position. *)
Lemma xors_at d : ∀ data,
  Forall is_byte data →
  in_bounds (length data) d →
  ∃ out,
    for_each (fun data pos v =>
                b ← Py.getitem data pos;
                Py.setitem data pos (Z.lxor b v)) d data = Ok out
    ∧ length out = length data
    ∧ Forall is_byte out
    ∧ ∀ i b, data !! i = Some b →
        out !! i = Some (xored_at (length data) d i b).
Proof.
  induction d as [| [k v] d IH]; intros data Hbytes Hall; simpl.
  - exists data. eauto.
  - apply Forall_cons in Hall as [[Hk Hv] Hall]. simpl in *.
    set (p := position (length data) k) in *.
    destruct (norm_index_in_range data k Hk) as [_ Hp]. fold p in Hp.
    destruct (lookup_lt_is_Some_2 data p Hp) as [b0 Hb0].
    rewrite (getitem_in_range data k b0) by done. simpl.
    assert (Hb0byte : is_byte b0).
    { eapply Forall_lookup_1; [apply Hbytes | apply Hb0]. }
    rewrite setitem_in_range by (auto using lxor_byte). fold p.
    destruct (IH (<[p := Z.lxor b0 v]> data)) as (out & Hrun & Hlen & Hob & Hpt).
    { apply Forall_insert; auto using lxor_byte. }
    { by rewrite length_insert. }
    rewrite length_insert in *.
    exists out. split; [done |]. split; [done |]. split; [done |].
    intros i b Hb. destruct (decide (p = i)) as [<- | Hne].
    + rewrite (Hpt p (Z.lxor b0 v)) by (by apply list_lookup_insert_eq).
      congruence.
    + apply Hpt. by rewrite list_lookup_insert_ne.
Qed.

(** A position that no offset designates keeps its byte. *)
Lemma substituted_at_untouched len d i : ∀ b,
  (∀ e, e ∈ d → position len e.1 ≠ i) → substituted_at len d i b = b.
Proof.
  induction d as [| [k v] d IH]; intros b Hno; simpl; [done |].
  rewrite decide_False by (apply (Hno (k, v)); left).
  apply IH. intros e He. apply Hno. by right.
Qed.

Lemma xored_at_untouched len d i : ∀ b,
  (∀ e, e ∈ d → position len e.1 ≠ i) → xored_at len d i b = b.
Proof.
  induction d as [| [k v] d IH]; intros b Hno; simpl; [done |].
  rewrite decide_False by (apply (Hno (k, v)); left).
  apply IH. intros e He. apply Hno. by right.
Qed.

(** The last entry whose offset designates a position gives its byte. *)
Lemma substituted_at_last len d1 k v d2 i b :
  position len k = i → (∀ e, e ∈ d2 → position len e.1 ≠ i) →
  substituted_at len (d1 ++ (k, v) :: d2) i b = v.
Proof.
  intros Hk Hno. revert b.
  induction d1 as [| [k1 v1] d1 IH]; intros b; simpl.
  - rewrite decide_True by done. by apply substituted_at_untouched.
  - apply IH.
Qed.

(** When no two offsets designate one byte, each position has at most one
    entry. *)
Lemma substituted_at_entry len d i : ∀ b,
  NoDup (map (fun e => position len e.1) d) →
  substituted_at len d i b = default b (entry_at len d i).
Proof.
  induction d as [| [k v] d IH]; intros b Hnd; simpl; [done |].
  apply NoDup_cons in Hnd as [Hfresh Hnd]. simpl in Hfresh.
  case_decide as Hp.
  - subst i. simpl. apply substituted_at_untouched.
    intros e He Heq. apply Hfresh. rewrite <- Heq.
    apply list_elem_of_fmap. by exists e.
  - by apply IH.
Qed.

Lemma xored_at_entry len d i : ∀ b,
  NoDup (map (fun e => position len e.1) d) →
  xored_at len d i b = match entry_at len d i with
                       | Some m => Z.lxor b m
                       | None => b
                       end.
Proof.
  induction d as [| [k v] d IH]; intros b Hnd; simpl; [done |].
  apply NoDup_cons in Hnd as [Hfresh Hnd]. simpl in Hfresh.
  case_decide as Hp.
  - subst i. apply xored_at_untouched.
    intros e He Heq. apply Hfresh. rewrite <- Heq.
    apply list_elem_of_fmap. by exists e.
  - by apply IH.
Qed.

(** Both loops, position by position. *)
Lemma substitute_and_xor_at data (subs xors : option mutation) :
  Forall is_byte data →
  in_bounds (length data) (default [] subs) →
  in_bounds (length data) (default [] xors) →
  ∃ out,
    substitute_and_xor data subs xors = Ok out
    ∧ length out = length data
    ∧ Forall is_byte out
    ∧ ∀ i b, data !! i = Some b →
        out !! i =
          Some (xored_at (length data) (default [] xors) i
                  (substituted_at (length data) (default [] subs) i b)).
Proof.
  intros Hbytes Hsubs Hxors.
  destruct (substitutions_at _ data Hsubs) as (mid & Hrun1 & Hlen1 & Hpt1).
  assert (Hmid : Forall is_byte mid) by eauto using substitutions_bytes.
  rewrite <- Hlen1 in Hxors.
  destruct (xors_at _ mid Hmid Hxors) as (out & Hrun2 & Hlen2 & Hout & Hpt2).
  rewrite Hlen1 in *.
  assert (Hstep1 : match subs with
                   | Some s => for_each (fun data pos v => Py.setitem data pos v) s data
                   | None => Ok data
                   end = Ok mid).
  { destruct subs; simpl in *; [done |]. congruence. }
  assert (Hstep2 : match xors with
                   | Some s => for_each (fun data pos v =>
                                 b ← Py.getitem data pos;
                                 Py.setitem data pos (Z.lxor b v)) s mid
                   | None => Ok mid
                   end = Ok out).
  { destruct xors; simpl in *; [done |]. congruence. }
  exists out. unfold substitute_and_xor. rewrite Hstep1. simpl.
  rewrite Hstep2. simpl. split; [done |]. split; [lia |]. split; [done |].
  intros i b Hb. by rewrite (Hpt2 i _ (Hpt1 i b Hb)).
Qed.

End SubstituteAndXor.

(** C9.  For data whose bytes are in 0..255 and dictionaries whose offsets
    lie in [-len, len) and whose values are bytes, with no condition on two
    offsets designating the same byte: an offset [k < 0] designates position
    [len + k], so that -1 is the last byte, and [substitute_and_xor]
    returns data of the same length in which every byte is what the
    substitutions, then the xors, make of it in the order of the
    dictionaries.  So a byte that no offset designates is unchanged, a byte
    designated by substitution offsets is the replacement of the last of
    them, and every xor mask whose offset designates it is applied after
    that.  When no two offsets of a dictionary designate one byte, this is
    the replacement, the byte XORed with the mask, or the replacement XORed
    with the mask. *)
Theorem substitute_and_xor_offsets (data : list Z) (subs xors : option mutation) :
  data ≠ [] →
  Forall is_byte data →
  in_bounds (length data) (default [] subs) →
  in_bounds (length data) (default [] xors) →
  ∃ out,
    substitute_and_xor data subs xors = Ok out
    ∧ length out = length data
    ∧ (∀ k, - Z.of_nat (length data) ≤ k < 0 →
         position (length data) k = Z.to_nat (Z.of_nat (length data) + k))
    ∧ (∀ i b, data !! i = Some b →
         out !! i =
           Some (xored_at (length data) (default [] xors) i
                   (substituted_at (length data) (default [] subs) i b)))
    ∧ (∀ i,
         (∀ e, e ∈ default [] subs → position (length data) e.1 ≠ i) →
         (∀ e, e ∈ default [] xors → position (length data) e.1 ≠ i) →
         out !! i = data !! i)
    ∧ (∀ i b before k v behind,
         data !! i = Some b →
         default [] subs = before ++ (k, v) :: behind →
         position (length data) k = i →
         (∀ e, e ∈ behind → position (length data) e.1 ≠ i) →
         out !! i = Some (xored_at (length data) (default [] xors) i v))
    ∧ (well_formed (length data) (default [] subs) →
       well_formed (length data) (default [] xors) →
       ∀ i b, data !! i = Some b →
         out !! i =
           Some (match entry_at (length data) (default [] subs) i,
                       entry_at (length data) (default [] xors) i with
                 | Some v, Some m => Z.lxor v m
                 | Some v, None => v
                 | None, Some m => Z.lxor b m
                 | None, None => b
                 end)).
Proof.
  intros _ Hbytes Hsubs Hxors.
  destruct (substitute_and_xor_at data subs xors Hbytes Hsubs Hxors)
    as (out & Hrun & Hlen & _ & Hpt).
  exists out. split; [done |]. split; [done |]. split; [| split].
  - intros k Hk. unfold position. by replace (k <? 0) with true by lia.
  - exact Hpt.
  - split; [| split].
    + intros i Hno1 Hno2. destruct (data !! i) as [b |] eqn:Hb.
      * rewrite (Hpt i b Hb).
        by rewrite substituted_at_untouched, xored_at_untouched.
      * apply lookup_ge_None in Hb. apply lookup_ge_None. lia.
    + intros i b before k v behind Hb Hsplit Hk Hno.
      rewrite (Hpt i b Hb), Hsplit. by rewrite substituted_at_last.
    + intros [_ Hnd1] [_ Hnd2] i b Hb. rewrite (Hpt i b Hb).
      rewrite substituted_at_entry, xored_at_entry by done.
      by destruct (entry_at _ (default [] subs) i),
                  (entry_at _ (default [] xors) i).
Qed.

Lemma substitute_and_xor_offsets_witness :
  ∃ out,
    substitute_and_xor [10; 20; 30] (Some [(-1, 5); (2, 255)])
      (Some [(0, 1); (-1, 15)]) = Ok out
    ∧ out = [11; 20; 240].
Proof.
  destruct (substitute_and_xor_offsets [10; 20; 30]
              (Some [(-1, 5); (2, 255)]) (Some [(0, 1); (-1, 15)]))
    as (out & Hrun & _); [done | | | |].
  - repeat constructor; unfold is_byte; lia.
  - repeat constructor; unfold in_range, is_byte; simpl; lia.
  - repeat constructor; unfold in_range, is_byte; simpl; lia.
  - exists out. split; [done |]. vm_compute in Hrun. congruence.
Defined.

(** ** Running the state monad *)

Lemma bind_ok {S A B} (m : M S A) (f : A → M S B) s a s' :
  m s = (Ok a, s') → (m ≫= f) s = f a s'.
Proof. intros Hm. unfold mbind, M_bind. by rewrite Hm. Qed.

Lemma bind_raise {S A B} (m : M S A) (f : A → M S B) s e s' :
  m s = (Raise e, s') → (m ≫= f) s = (Raise e, s').
Proof. intros Hm. unfold mbind, M_bind. by rewrite Hm. Qed.

(** Unfold the monad down to pairs of an outcome and a store. *)
Ltac run_monad :=
  unfold mbind, M_bind, mret, M_ret, gets, modify, lift, raise; simpl.

(** ** Commands *)



Lemma value_of_undefined st name :
  ¬ special_name name → key st !! name = None →
  CopyVariables.value_of st name = Raise ValueError.
Proof.
  unfold special_name, CopyVariables.value_of. intros Hs Hk.
  repeat case_decide; try tauto. by rewrite Hk.
Qed.

Lemma value_of_defined st name v :
  ¬ special_name name → key st !! name = Some v →
  CopyVariables.value_of st name = Ok v.
Proof.
  unfold special_name, CopyVariables.value_of. intros Hs Hk.
  repeat case_decide; try tauto. by rewrite Hk.
Qed.

Lemma value_of_raises st name e :
  CopyVariables.value_of st name = Raise e →
  e = ValueError ∧ ¬ special_name name ∧ key st !! name = None.
Proof.
  unfold special_name, CopyVariables.value_of.
  repeat case_decide; try discriminate.
  destruct (key st !! name); [discriminate |].
  intros [= <-]. split; [done |]. split; [| done].
  intros [? | [? | ?]]; done.
Qed.

Lemma copy_variables_raises st l name val :
  (name, val) ∈ l → ¬ special_name name → key st !! name = None →
  (CopyVariables.process st l).1 = Raise ValueError
  ∧ (name, val) ∈ (CopyVariables.process st l).2.
Proof.
  intros Hin Hs Hk. induction l as [| [name' val'] l IH]; [by apply elem_of_nil in Hin |].
  simpl. destruct (CopyVariables.value_of st name') as [v | e] eqn:Hv.
  - apply elem_of_cons in Hin as [Heq | Hin].
    + injection Heq as <- <-. rewrite value_of_undefined in Hv by done. discriminate.
    + destruct (IH Hin) as [Hr Hm].
      destruct (CopyVariables.process st l) as [r l']. simpl in *.
      split; [done |]. by apply elem_of_cons; right.
  - simpl. apply value_of_raises in Hv as (-> & _ & _). done.
Qed.

Lemma copy_variables_ok st l :
  (∀ name val, (name, val) ∈ l → ¬ special_name name → is_Some (key st !! name)) →
  (CopyVariables.process st l).1 = Ok tt
  ∧ Forall2 (fun before after =>
       after.1 = before.1
       ∧ ∃ v, after.2 = before.2 ++ [v]
          ∧ (before.1 = "ClientHello.random" → v = client_random st)
          ∧ (before.1 = "ServerHello.random" → v = server_random st)
          ∧ (before.1 = "ServerHello.session_id" → v = session_id st)
          ∧ (¬ special_name before.1 → key st !! before.1 = Some v))
       l (CopyVariables.process st l).2.
Proof.
  induction l as [| [name val] l IH]; intros Hdef; simpl; [by split |].
  destruct IH as [Hr Hl].
  { intros n0 v0 Hin. apply (Hdef n0 v0). by apply elem_of_cons; right. }
  destruct (CopyVariables.value_of st name) as [v | e] eqn:Hv.
  - destruct (CopyVariables.process st l) as [r l']. simpl in *.
    split; [done |]. constructor; [| done]. simpl. split; [done |].
    exists v. split; [done |].
    unfold CopyVariables.value_of, special_name in *.
    repeat case_decide; subst; try discriminate;
      repeat split; try congruence; try tauto.
    all: destruct (key st !! name); congruence.
  - apply value_of_raises in Hv as (_ & Hs & Hk).
    destruct (Hdef name val) as [? Hsome]; [by apply elem_of_cons; left | done |].
    congruence.
Qed.

(** C7.  When a requested name is neither one of the three special names nor
    defined in [state.key], [CopyVariables.process] raises [ValueError] and
    the array of that name is as it was: nothing is appended.  When every
    requested name is special or defined, it returns and each array has got
    exactly one more element, the random or session id for a special name and
    [state.key[name]] otherwise. *)
Theorem copy_variables_process (st : ConnectionState) (l : CopyVariables.log) :
  (∀ name val, (name, val) ∈ l → ¬ special_name name → key st !! name = None →
     (CopyVariables.process st l).1 = Raise ValueError
     ∧ (name, val) ∈ (CopyVariables.process st l).2)
  ∧ ((∀ name val, (name, val) ∈ l → ¬ special_name name → is_Some (key st !! name)) →
     (CopyVariables.process st l).1 = Ok tt
     ∧ Forall2 (fun before after =>
          after.1 = before.1
          ∧ ∃ v, after.2 = before.2 ++ [v]
             ∧ (before.1 = "ClientHello.random" → v = client_random st)
             ∧ (before.1 = "ServerHello.random" → v = server_random st)
             ∧ (before.1 = "ServerHello.session_id" → v = session_id st)
             ∧ (¬ special_name before.1 → key st !! before.1 = Some v))
          l (CopyVariables.process st l).2).
Proof.
  split.
  - intros. by apply copy_variables_raises.
  - apply copy_variables_ok.
Qed.

(** ** Generators *)

(** C8.  Constructing a [ClientKeyExchangeGenerator] with both [p_as_share]
    and [p_1_as_share] set raises [ValueError], whatever the other arguments
    are; with at most one of them set the constructor returns the object,
    with the flags as given.  The constructor takes no connection state:
    the error is raised before any conversation runs. *)
Theorem client_key_exchange_init_exclusive
    (cipher : option Z) (version client_version : option (Z * Z))
    (dh_Yc : option Z) (padding_subs padding_xors : option mutation)
    (ecdh_Yc encrypted_premaster : option (list Z))
    (modulus_as_encrypted_premaster : bool) (premaster_secret : option (list Z)) :
  let init := ClientKeyExchangeGenerator.__init__ cipher version client_version
                dh_Yc padding_subs padding_xors ecdh_Yc encrypted_premaster
                modulus_as_encrypted_premaster in
  let built p p1 :=
    ∃ g, init p p1 premaster_secret = Ok g
         ∧ ClientKeyExchangeGenerator.p_as_share g = p
         ∧ ClientKeyExchangeGenerator.p_1_as_share g = p1 in
  init true true premaster_secret = Raise ValueError
  ∧ built false false ∧ built true false ∧ built false true.
Proof. simpl. repeat split; eexists; (split; [reflexivity |]); by simpl. Qed.

(** Case analysis on every integer comparison of the goal. *)
Ltac compare_cases :=
  repeat match goal with
         | |- context [Z.ltb ?a ?b] => destruct (Z.ltb_spec a b)
         | |- context [Z.leb ?a ?b] => destruct (Z.leb_spec a b)
         | |- context [Z.eqb ?a ?b] => destruct (Z.eqb_spec a b)
         end;
  cbn [orb andb negb]; intros; first [done | lia].

(** On versions, "at most TLS 1.2" is the same as "not TLS 1.3 or later". *)
Lemma version_le_12 (v : Z * Z) :
  Py.tuple_le v (3, 3) = true → Py.tuple_ge v (3, 4) = false.
Proof.
  destruct v as [a b]. unfold Py.tuple_ge, Py.tuple_le. cbn [fst snd].
  compare_cases.
Qed.

Lemma version_ge_13 (v : Z * Z) :
  Py.tuple_ge v (3, 4) = true → Py.tuple_le v (3, 3) = false.
Proof.
  destruct v as [a b]. unfold Py.tuple_ge, Py.tuple_le. cbn [fst snd].
  compare_cases.
Qed.

Section KeySchedule.

Context `{Collaborator}.

Lemma handshake_post_send (w : world) m data :
  Self.msg (self w) = Some m → write m = Ok data →
  HandshakeProtocolMessageGenerator.post_send w =
    (Ok tt,
     on_state (fun st =>
       set_handshake_messages (handshake_messages st ++ [m])
         (set_handshake_hashes (handshake_hashes st ++ data) st)) w).
Proof.
  intros Hm Hd. unfold HandshakeProtocolMessageGenerator.post_send.
  run_monad. rewrite Hm. run_monad. by rewrite Hd.
Qed.

Lemma client_key_exchange_post_send (w : world) m data :
  Self.msg (self w) = Some m → write m = Ok data →
  ClientKeyExchangeGenerator.post_send w =
    (Ok tt,
     on_state (fun st =>
       set_certificate_verify_handshake_hashes
         (Some (handshake_hashes st ++ data))
         (set_handshake_messages (handshake_messages st ++ [m])
            (set_handshake_hashes (handshake_hashes st ++ data) st))) w).
Proof.
  intros Hm Hd. unfold ClientKeyExchangeGenerator.post_send.
  erewrite bind_ok by (by apply handshake_post_send). reflexivity.
Qed.

(** The master secret that [ChangeCipherSpecGenerator.post_send] stores in a
    full handshake of TLS 1.2 or earlier. *)
Lemma ccs_master_secret (w : world) premaster :
  Py.tuple_le (version (state w)) (3, 3) = true →
  Self.fake (self w) = false →
  resuming (state w) = false →
  key (state w) !! "premaster_secret" = Some premaster →
  let status := state w in
  let ems := match Self.extended_master_secret (self w) with
             | Some chosen => chosen
             | None => extended_master_secret status
             end in
  let master_secret :=
    if ems
    then calcExtendedMasterSecret (version status) (cipher status) premaster
           (default (handshake_hashes status)
              (certificate_verify_handshake_hashes status))
    else calcMasterSecret (version status) (cipher status) premaster
           (client_random status) (server_random status) in
  let after := ChangeCipherSpecGenerator.post_send w in
  after.1 = Ok tt
  ∧ key (state after.2) !! "master_secret" = Some master_secret
  ∧ _writeState (msg_sock (state after.2)) =
      Some (calcPendingStates (cipher status) master_secret
              (client_random status) (server_random status)).1
  ∧ _pendingWriteState (msg_sock (state after.2)) = None.
Proof.
  intros Hv Hfake Hres Hpm. simpl.
  unfold ChangeCipherSpecGenerator.post_send. run_monad.
  rewrite (version_le_12 _ Hv), Hfake. simpl.
  destruct (Self.extended_master_secret (self w)) as [chosen |] eqn:Hchosen;
    simpl; rewrite Hres, ?Hchosen; simpl;
    unfold key_lookup; rewrite Hpm.
  - destruct chosen; simpl;
      unfold calc_pending_states; run_monad;
      unfold key_lookup; simpl; rewrite lookup_insert_eq; simpl;
      destruct (certificate_verify_handshake_hashes (state w));
      case_decide; simpl; by rewrite ?lookup_insert_eq.
  - destruct (extended_master_secret (state w)); simpl;
      unfold calc_pending_states; run_monad;
      unfold key_lookup; simpl; rewrite lookup_insert_eq; simpl;
      destruct (certificate_verify_handshake_hashes (state w));
      case_decide; simpl; by rewrite ?lookup_insert_eq.
Qed.

(** C4, as the code has it.  In TLS 1.2 or earlier, for a generator that is
    not fake, a session that is not resuming and a defined premaster
    secret, [ChangeCipherSpecGenerator.post_send] chooses the derivation by
    the generator's own [extended_master_secret] argument and, only when
    that was not given, by the flag negotiated in the state.  With extended
    master secret it derives from the premaster secret and the snapshot of
    the transcript saved by [ClientKeyExchangeGenerator.post_send], or the
    current transcript when no snapshot was saved; otherwise from the
    premaster secret and both randoms.  The snapshot holds the transcript
    up to and including the Client Key Exchange: a Certificate Verify sent
    after it enters the transcript but not the master secret. *)
Theorem ccs_post_send_master_secret (w : world) premaster :
  Py.tuple_le (version (state w)) (3, 3) = true →
  resuming (state w) = false →
  key (state w) !! "premaster_secret" = Some premaster →
  let status := state w in
  let stored (g : Self.dict) (w : world) :=
    key (state (ChangeCipherSpecGenerator.post_send (set_self g w)).2)
      !! "master_secret" in
  (∀ ccs, Self.fake ccs = false →
     let ems := match Self.extended_master_secret ccs with
                | Some chosen => chosen
                | None => extended_master_secret status
                end in
     (ChangeCipherSpecGenerator.post_send (set_self ccs w)).1 = Ok tt
     ∧ stored ccs w =
         Some (if ems
               then calcExtendedMasterSecret (version status) (cipher status)
                      premaster
                      (default (handshake_hashes status)
                         (certificate_verify_handshake_hashes status))
               else calcMasterSecret (version status) (cipher status)
                      premaster (client_random status) (server_random status)))
  ∧ (∀ cke cke_msg cke_bytes cv cv_msg cv_bytes ccs,
       Self.msg cke = Some cke_msg → write cke_msg = Ok cke_bytes →
       Self.msg cv = Some cv_msg → write cv_msg = Ok cv_bytes →
       Self.fake ccs = false →
       Self.extended_master_secret ccs = None →
       extended_master_secret status = true →
       let w1 := (ClientKeyExchangeGenerator.post_send (set_self cke w)).2 in
       let w2 := (HandshakeProtocolMessageGenerator.post_send (set_self cv w1)).2 in
       handshake_hashes (state w2) = handshake_hashes status ++ cke_bytes ++ cv_bytes
       ∧ stored ccs w2 =
           Some (calcExtendedMasterSecret (version status) (cipher status)
                   premaster (handshake_hashes status ++ cke_bytes))).
Proof.
  intros Hv Hres Hpm. simpl. split.
  - intros ccs Hfake.
    destruct (ccs_master_secret (set_self ccs w) premaster) as (Hok & Hms & _);
      try done.
  - intros cke cke_msg cke_bytes cv cv_msg cv_bytes ccs
      Hcke Hckeb Hcv Hcvb Hfake Hnone Hems.
    rewrite (client_key_exchange_post_send _ cke_msg cke_bytes) by done.
    rewrite (handshake_post_send _ cv_msg cv_bytes) by done.
    simpl. split; [by rewrite <- app_assoc |].
    match goal with
    | |- key (state (ChangeCipherSpecGenerator.post_send ?w2).2) !! _ = _ =>
        destruct (ccs_master_secret w2 premaster) as (_ & Hms & _); try done
    end.
    simpl in Hms. rewrite Hms. simpl. by rewrite Hnone, Hems.
Qed.

(** C5.  After a Change Cipher Spec was sent: in TLS 1.3 or later, or for a
    generator marked fake, [post_send] returns and the whole store is as it
    was.  In TLS 1.2 or earlier, for a generator that is not fake, there are
    three cases.  When the session resumes, nothing is derived: the key
    material stays as it is and the pending write state already in place
    becomes the current one.  When it does not resume and has a premaster
    secret, the pending state computed in this very call from the master
    secret just derived and stored becomes the current one.  When it does
    not resume and has no premaster secret, [post_send] raises [KeyError]
    and neither the write state nor the key material changes. *)
Theorem ccs_post_send_write_state (w : world) :
  let status := state w in
  let after := ChangeCipherSpecGenerator.post_send w in
  (Py.tuple_ge (version status) (3, 4) = true ∨ Self.fake (self w) = true →
     after = (Ok tt, w))
  ∧ (Py.tuple_le (version status) (3, 3) = true → Self.fake (self w) = false →
     (resuming status = true →
        after.1 = Ok tt
        ∧ _writeState (msg_sock (state after.2)) = _pendingWriteState (msg_sock status)
        ∧ _pendingWriteState (msg_sock (state after.2)) = None
        ∧ key (state after.2) = key status)
     ∧ (resuming status = false →
        ∀ premaster, key status !! "premaster_secret" = Some premaster →
        ∃ master_secret,
          after.1 = Ok tt
          ∧ key (state after.2) !! "master_secret" = Some master_secret
          ∧ _writeState (msg_sock (state after.2)) =
              Some (calcPendingStates (cipher status) master_secret
                      (client_random status) (server_random status)).1
          ∧ _pendingWriteState (msg_sock (state after.2)) = None)
     ∧ (resuming status = false →
        key status !! "premaster_secret" = None →
        after.1 = Raise KeyError
        ∧ _writeState (msg_sock (state after.2)) = _writeState (msg_sock status)
        ∧ _pendingWriteState (msg_sock (state after.2)) =
            _pendingWriteState (msg_sock status)
        ∧ key (state after.2) = key status)).
Proof.
  simpl. split.
  - intros Hskip. unfold ChangeCipherSpecGenerator.post_send. run_monad.
    replace (Py.tuple_ge (version (state w)) (3, 4) || Self.fake (self w))
      with true; [done |].
    symmetry. apply orb_true_iff. tauto.
  - intros Hv Hfake. split; [| split].
    + intros Hres. unfold ChangeCipherSpecGenerator.post_send. run_monad.
      rewrite (version_le_12 _ Hv), Hfake. simpl.
      destruct (Self.extended_master_secret (self w)); simpl;
        rewrite Hres; simpl; case_decide; simpl; done.
    + intros Hres premaster Hpm.
      destruct (ccs_master_secret w premaster) as (Hok & Hms & Hws & Hpw);
        try done.
      eexists. eauto.
    + intros Hres Hpm. unfold ChangeCipherSpecGenerator.post_send. run_monad.
      rewrite (version_le_12 _ Hv), Hfake. simpl.
      destruct (Self.extended_master_secret (self w)) as [chosen |] eqn:Hchosen;
        simpl; rewrite Hres, ?Hchosen; simpl;
        unfold key_lookup; rewrite Hpm.
      * by destruct chosen.
      * by destruct (extended_master_secret (state w)).
Qed.

(** C6.  [FinishedGenerator.post_send] runs after the Finished message was
    generated and transmitted, so [self.msg] is that message.  In TLS 1.3 or
    later it makes the pending write state the current one; then, when the
    key material has a "master secret" entry, it derives the resumption
    master secret from it and the transcript including this Finished and
    stores it, and when there is no such entry it raises [KeyError] and
    stores nothing.  In TLS 1.2 or earlier it returns with the record layer
    and the key material as they were.  In all cases the Finished enters
    the transcript and the session is no longer resuming. *)
Theorem finished_post_send (w : world) m data :
  Self.msg (self w) = Some m → write m = Ok data →
  let status := state w in
  let after := FinishedGenerator.post_send w in
  handshake_hashes (state after.2) = handshake_hashes status ++ data
  ∧ resuming (state after.2) = false
  ∧ (Py.tuple_ge (version status) (3, 4) = true →
       _writeState (msg_sock (state after.2)) = _pendingWriteState (msg_sock status)
       ∧ _pendingWriteState (msg_sock (state after.2)) = None
       ∧ (∀ secret, key status !! "master secret" = Some secret →
            after.1 = Ok tt
            ∧ key (state after.2) !! "resumption master secret" =
                Some (derive_secret secret "res master"
                        (handshake_hashes status ++ data) (prf_name status)))
       ∧ (key status !! "master secret" = None →
            after.1 = Raise KeyError
            ∧ key (state after.2) = key status))
  ∧ (Py.tuple_le (version status) (3, 3) = true →
       after.1 = Ok tt
       ∧ msg_sock (state after.2) = msg_sock status
       ∧ key (state after.2) = key status).
Proof.
  intros Hm Hd. simpl. unfold FinishedGenerator.post_send.
  erewrite bind_ok by (by apply handshake_post_send).
  run_monad.
  destruct (Py.tuple_le (version (state w)) (3, 3)) eqn:Hle; simpl.
  - split; [done |]. split; [done |]. split; [| done].
    intros Hge. apply version_ge_13 in Hge. congruence.
  - unfold key_lookup. simpl.
    destruct (key (state w) !! "master secret") as [secret |] eqn:Hs; simpl.
    + split; [done |]. split; [done |]. split; [| done].
      intros _. split; [done |]. split; [done |]. split; [| done].
      intros ? [= <-]. by rewrite lookup_insert_eq.
    + split; [done |]. split; [done |]. split; [| done].
      intros _. split; [done |]. split; [done |]. split; [| done].
      intros ? [=].
Qed.

End KeySchedule.

(** C5 as stated fails.  In a resuming session of TLS 1.2 [post_send]
    derives and stores no master secret: the write state becomes the pending
    state that was already there.  And in a session that does not resume
    and has no premaster secret it raises [KeyError] and switches nothing. *)
Lemma ccs_post_send_derives_nothing :
  let resumed := on_state (set_resuming true) world0 in
  let bare := on_state (set_key ∅) world0 in
  Py.tuple_le (version (state resumed)) (3, 3) = true
  ∧ Self.fake (self resumed) = false
  ∧ (ChangeCipherSpecGenerator.post_send resumed).1 = Ok tt
  ∧ key (state (ChangeCipherSpecGenerator.post_send resumed).2) !! "master_secret"
      = None
  ∧ _writeState (msg_sock (state (ChangeCipherSpecGenerator.post_send resumed).2))
      = _pendingWriteState (msg_sock (state resumed))
  ∧ Py.tuple_le (version (state bare)) (3, 3) = true
  ∧ Self.fake (self bare) = false
  ∧ (ChangeCipherSpecGenerator.post_send bare).1 = Raise KeyError
  ∧ _writeState (msg_sock (state (ChangeCipherSpecGenerator.post_send bare).2))
      = _writeState (msg_sock (state bare)).
Proof. vm_compute. repeat split. Qed.

(** C6 as stated fails: in a TLS 1.3 session whose key material has no
    "master secret" entry, [post_send] switches the write state, raises
    [KeyError] and stores no resumption master secret. *)
Lemma finished_post_send_without_master_secret :
  let tls13 :=
    on_state (fun st =>
      {| msg_sock := msg_sock st; version := (3, 4); cipher := 4865;
         client_random := client_random st; server_random := server_random st;
         session_id := session_id st;
         key := ∅;
         handshake_hashes := handshake_hashes st;
         certificate_verify_handshake_hashes := None;
         handshake_messages := []; resuming := false;
         extended_master_secret := false; encrypt_then_mac := false;
         prf_name := prf_name st;
         _our_record_size_limit := 2 ^ 14;
         _peer_record_size_limit := 2 ^ 14 |})
      (set_self (Self.set_msg (Some (Message 22 [20; 0])) self0) world0) in
  Py.tuple_ge (version (state tls13)) (3, 4) = true
  ∧ (FinishedGenerator.post_send tls13).1 = Raise KeyError
  ∧ key (state (FinishedGenerator.post_send tls13).2)
      !! "resumption master secret" = None
  ∧ _writeState (msg_sock (state (FinishedGenerator.post_send tls13).2))
      = _pendingWriteState (msg_sock (state tls13)).
Proof. vm_compute. repeat split. Qed.

(** C4 as stated fails: extended master secret is negotiated in [state0],
    yet a generator built with [extended_master_secret=False] derives the
    master secret from the randoms. *)
Lemma ccs_generator_overrides_negotiated_ems :
  let ccs := Self.set_extended_master_secret (Some false) self0 in
  let w := set_self ccs world0 in
  let status := state w in
  Py.tuple_le (version status) (3, 3) = true
  ∧ resuming status = false
  ∧ extended_master_secret status = true
  ∧ key (state (ChangeCipherSpecGenerator.post_send w).2) !! "master_secret"
      = Some (calcMasterSecret (version status) (cipher status) [3; 3; 9]
                (client_random status) (server_random status))
  ∧ key (state (ChangeCipherSpecGenerator.post_send w).2) !! "master_secret"
      ≠ Some (calcExtendedMasterSecret (version status) (cipher status)
                [3; 3; 9] (handshake_hashes status)).
Proof. vm_compute. repeat split; discriminate. Qed.

Lemma ccs_post_send_master_secret_witness :
  let cke := Self.set_msg (Some (Message 22 [16; 0])) self0 in
  let cv := Self.set_msg (Some (Message 22 [15; 1])) self0 in
  let w1 := (ClientKeyExchangeGenerator.post_send (set_self cke world0)).2 in
  let w2 := (HandshakeProtocolMessageGenerator.post_send (set_self cv w1)).2 in
  handshake_hashes (state w2) = [1; 2; 16; 0; 15; 1]
  ∧ key (state (ChangeCipherSpecGenerator.post_send (set_self self0 w2)).2)
      !! "master_secret" = Some [2; 3; 3; 9; 1; 2; 16; 0].
Proof.
  destruct (ccs_post_send_master_secret world0 [3; 3; 9]) as [_ Hrun];
    [reflexivity | reflexivity | reflexivity |].
  exact (Hrun (Self.set_msg (Some (Message 22 [16; 0])) self0)
              (Message 22 [16; 0]) [16; 0]
              (Self.set_msg (Some (Message 22 [15; 1])) self0)
              (Message 22 [15; 1]) [15; 1] self0
              eq_refl eq_refl eq_refl eq_refl eq_refl eq_refl eq_refl).
Defined.

Lemma ccs_post_send_write_state_witness :
  let after := ChangeCipherSpecGenerator.post_send world0 in
  after.1 = Ok tt
  ∧ _writeState (msg_sock (state after.2)) = Some [3; 47; 2; 3; 3; 9; 1; 2]
  ∧ _pendingWriteState (msg_sock (state after.2)) = None.
Proof.
  destruct (ccs_post_send_write_state world0) as [_ Hold].
  destruct (Hold eq_refl eq_refl) as (_ & Hfull & _).
  destruct (Hfull eq_refl [3; 3; 9] eq_refl) as (ms & Hok & Hms & Hws & Hpw).
  vm_compute in Hms. injection Hms as <-.
  split; [exact Hok |]. split; [exact Hws | exact Hpw].
Defined.

Lemma finished_post_send_witness :
  let tls13 :=
    on_state (fun st =>
      {| msg_sock := msg_sock st; version := (3, 4); cipher := 4865;
         client_random := client_random st; server_random := server_random st;
         session_id := session_id st;
         key := {[ "master secret" := [8; 8] ]};
         handshake_hashes := handshake_hashes st;
         certificate_verify_handshake_hashes := None;
         handshake_messages := []; resuming := true;
         extended_master_secret := false; encrypt_then_mac := false;
         prf_name := prf_name st;
         _our_record_size_limit := 2 ^ 14;
         _peer_record_size_limit := 2 ^ 14 |})
      (set_self (Self.set_msg (Some (Message 22 [20; 0])) self0) world0) in
  let after := FinishedGenerator.post_send tls13 in
  after.1 = Ok tt
  ∧ _writeState (msg_sock (state after.2)) = Some [7]
  ∧ key (state after.2) !! "resumption master secret" = Some [5; 8; 8; 1; 2; 20; 0].
Proof.
  simpl.
  match goal with
  | |- (FinishedGenerator.post_send ?w).1 = _ ∧ _ =>
      destruct (finished_post_send w (Message 22 [20; 0]) [20; 0] eq_refl eq_refl)
        as (_ & _ & Hnew & _)
  end.
  destruct (Hnew eq_refl) as (Hws & _ & Hkey & _).
  destruct (Hkey [8; 8] eq_refl) as [Hok Hres].
  split; [exact Hok |]. split; [exact Hws | exact Hres].
Defined.


Lemma copy_variables_process_witness :
  let l := [("ServerHello.random", [[0]]); ("premaster_secret", [])] in
  CopyVariables.process state0 l =
    (Ok tt, [("ServerHello.random", [[0]; [12]]); ("premaster_secret", [[3; 3; 9]])])
  ∧ (CopyVariables.process state0 (l ++ [("DH shared secret", [])])).1
      = Raise ValueError.
Proof.
  split; [reflexivity |].
  destruct (copy_variables_process state0
              [("ServerHello.random", [[0]]); ("premaster_secret", []);
               ("DH shared secret", [])]) as [Hraise _].
  apply (Hraise "DH shared secret" []).
  - apply list_elem_of_In. simpl. tauto.
  - unfold special_name. intros [? | [? | ?]]; discriminate.
  - reflexivity.
Defined.

(** ** Splitting and flushing *)

Section Splitting.

Implicit Types (data payload : list Z) (w : world).

Lemma slice_to_positive data size :
  0 < size → Py.slice_to data size = take (Z.to_nat size) data.
Proof.
  intros Hs. unfold Py.slice_to, Py.clamp.
  replace (size <? 0) with false by lia.
  destruct (decide (size ≤ Z.of_nat (length data))).
  - f_equal. lia.
  - rewrite !take_ge; [done | lia | lia].
Qed.

Lemma slice_from_positive data size :
  0 < size → Py.slice_from data size = drop (Z.to_nat size) data.
Proof.
  intros Hs. unfold Py.slice_from, Py.clamp.
  replace (size <? 0) with false by lia.
  destruct (decide (size ≤ Z.of_nat (length data))).
  - f_equal. lia.
  - rewrite !drop_ge; [done | lia | lia].
Qed.

Lemma set_fragment_list_same w : set_fragment_list (fragment_list w) w = w.
Proof. by destruct w. Qed.

(** With a positive size the loop ends within [length data] passes; it
    appends non-empty pieces of at most [size] bytes that add up to the
    data. *)
Lemma split_loop_positive content_type size :
  0 < size → ∀ passes data w,
  (length data ≤ passes)%nat →
  ∃ pieces,
    split_loop passes content_type data size w =
      (Ok tt,
       set_fragment_list (fragment_list w ++ map (Message content_type) pieces) w)
    ∧ concat pieces = data
    ∧ Forall (fun p => p ≠ [] ∧ Z.of_nat (length p) ≤ size) pieces
    ∧ (data ≠ [] → ∃ rest, pieces = take (Z.to_nat size) data :: rest).
Proof.
  intros Hs. induction passes as [| passes IH]; intros data w Hlen.
  - destruct data; [| simpl in Hlen; lia].
    exists []. simpl. rewrite app_nil_r, set_fragment_list_same. done.
  - destruct data as [| b data'].
    { exists []. simpl. rewrite app_nil_r, set_fragment_list_same. done. }
    set (data := b :: data') in *.
    assert (Hne : data ≠ []) by done.
    destruct (IH (drop (Z.to_nat size) data)
                (set_fragment_list
                   (fragment_list w ++ [Message content_type (take (Z.to_nat size) data)])
                   w)) as (pieces & Hrun & Hcat & Hall & _).
    { rewrite length_drop. subst data. simpl in *. lia. }
    exists (take (Z.to_nat size) data :: pieces).
    split; [| split; [| split]].
    + change (split_loop (S passes) content_type data size w) with
        ((modify (fun w => set_fragment_list
                    (fragment_list w ++ [Message content_type (Py.slice_to data size)]) w);;
          split_loop passes content_type (Py.slice_from data size) size) w).
      run_monad. rewrite slice_to_positive, slice_from_positive by done.
      rewrite Hrun. simpl. by rewrite <- app_assoc.
    + simpl. rewrite Hcat. apply take_drop.
    + constructor; [| done]. split.
      * subst data. destruct (Z.to_nat size) eqn:Hn; [lia | done].
      * rewrite length_take. lia.
    + eauto.
Qed.

Lemma flush_loop_pieces content_type pieces : ∀ data w,
  fragment_list w = map (Message content_type) pieces →
  FlushMessageList.flush_loop (length pieces) content_type data w =
    (Ok (data ++ concat pieces), set_fragment_list [] w).
Proof.
  induction pieces as [| p pieces IH]; intros data w Hfl; simpl.
  - simpl in Hfl. run_monad. by rewrite app_nil_r, <- Hfl, set_fragment_list_same.
  - run_monad. unfold pop0. rewrite Hfl. simpl.
    case_decide; [| done]. simpl.
    rewrite IH by done. simpl. by rewrite <- app_assoc.
Qed.

(** C10, as the code has it.  For a message with non-empty payload, a size
    [s > 0] and a fragment list that is empty when the message is generated,
    [split_message] returns the first [s] bytes as a message of the original
    content type and leaves in the list the rest of the payload in
    consecutive non-empty fragments of at most [s] bytes, each of that
    content type.  When the payload is longer than [s], [FlushMessageList]
    then empties the list into one message of the same content type whose
    payload is the concatenation of those fragments, so that the first
    fragment followed by the flushed payload is the original payload; when
    the payload has at most [s] bytes nothing is left in the list and
    [FlushMessageList] raises [IndexError]. *)
Theorem split_then_flush (generator : MessageGenerator) (size : Z)
    (w w1 : world) (msg : message) (payload : list Z) :
  generate generator w = (Ok msg, w1) →
  write msg = Ok payload →
  payload ≠ [] →
  0 < size →
  fragment_list w1 = [] →
  ∃ rest : list (list Z),
    let content_type := contentType msg in
    let first := take (Z.to_nat size) payload in
    let w2 := set_fragment_list (map (Message content_type) rest) w1 in
    generate (split_message generator size) w = (Ok (Message content_type first), w2)
    ∧ Forall (fun p => p ≠ [] ∧ Z.of_nat (length p) ≤ size) (first :: rest)
    ∧ first ++ concat rest = payload
    ∧ (size < Z.of_nat (length payload) →
         FlushMessageList.generate w2 =
           (Ok (Message content_type (concat rest)), set_fragment_list [] w1))
    ∧ (Z.of_nat (length payload) ≤ size →
         rest = [] ∧ FlushMessageList.generate w2 = (Raise IndexError, w2)).
Proof.
  intros Hgen Hwrite Hne Hs Hempty.
  destruct (split_loop_positive (contentType msg) size Hs (length payload) payload w1)
    as (pieces & Hrun & Hcat & Hall & Hhead); [done |].
  destruct (Hhead Hne) as [rest ->].
  exists rest. simpl.
  assert (Hsplit : generate (split_message generator size) w =
            (Ok (Message (contentType msg) (take (Z.to_nat size) payload)),
             set_fragment_list (map (Message (contentType msg)) rest) w1)).
  { unfold split_message. simpl. run_monad. rewrite Hgen, Hwrite. simpl.
    rewrite Hrun. unfold pop0. simpl. by rewrite Hempty. }
  split; [done |]. split; [done |]. split; [done |].
  simpl in Hcat. split.
  - intros Hlong. destruct rest as [| p rest].
    { simpl in Hcat. rewrite app_nil_r in Hcat.
      apply (f_equal length) in Hcat. rewrite length_take in Hcat. lia. }
    unfold FlushMessageList.generate. run_monad. unfold pop0. simpl.
    rewrite length_map.
    rewrite (flush_loop_pieces (contentType msg) rest) by done.
    done.
  - intros Hshort. rewrite take_ge in Hcat by lia.
    assert (rest = []) as ->.
    { apply (f_equal length) in Hcat. rewrite length_app in Hcat.
      apply Forall_cons in Hall as [_ Hall].
      destruct rest as [| p rest]; [done |].
      apply Forall_cons in Hall as [[Hp _] _].
      simpl in Hcat. rewrite length_app in Hcat.
      destruct p; [done | simpl in Hcat; lia]. }
    split; [done |]. unfold FlushMessageList.generate. run_monad.
    unfold pop0. simpl. done.
Qed.

End Splitting.

Lemma split_then_flush_witness :
  let node := split_message (RawMessageGenerator 22 [1; 2; 3; 4; 5]) 2 in
  let after := generate node world0 in
  after.1 = Ok (Message 22 [1; 2])
  ∧ (FlushMessageList.generate after.2).1 = Ok (Message 22 [3; 4; 5]).
Proof.
  intros node after.
  destruct (split_then_flush (RawMessageGenerator 22 [1; 2; 3; 4; 5]) 2
              world0 world0 (Message 22 [1; 2; 3; 4; 5]) [1; 2; 3; 4; 5])
    as (rest & Hsplit & _ & Hcat & Hflush & _);
    [reflexivity | reflexivity | discriminate | lia | reflexivity |].
  cbn in Hcat. injection Hcat as Hcat.
  unfold after, node. rewrite Hsplit. cbn [fst snd].
  split; [reflexivity |].
  rewrite Hflush by (cbn; lia). cbn [fst]. by rewrite Hcat.
Defined.

(** C10 as stated fails: a payload of at most [size] bytes leaves no
    fragment behind, and [FlushMessageList] on the empty list raises. *)
Lemma flush_after_single_fragment_raises :
  let node := split_message (RawMessageGenerator 22 [1; 2]) 2 in
  let after := generate node world0 in
  after.1 = Ok (Message 22 [1; 2])
  ∧ fragment_list after.2 = []
  ∧ (FlushMessageList.generate after.2).1 = Raise IndexError.
Proof. vm_compute. done. Qed.

(** ** Mutation combinators *)

(** The proof that a combinator built on [post_send_msg_sock_restore] puts
    the methods back: run [generate], the send and [post_send] in turn. *)
Ltac restore_hooks Hgen Hpost Hsend w generator :=
  specialize (Hgen w); revert Hsend; unfold send_succeeds;
  unfold run_generator, post_send_msg_sock_restore; simpl; run_monad;
  destruct (generate generator w) as [[? | ?] ?]; simpl in *; [| done];
  let Hs := fresh in
  let Hb := fresh in
  intros Hs; destruct (Hs _ _ eq_refl) as [? Hb];
  simpl in Hb; rewrite Hb; simpl;
  match goal with
  | |- hooks (post_send generator ?w4).2 = _ => rewrite (Hpost w4)
  end;
  rewrite <- Hgen; reflexivity.

Section Combinators.

Context {T : Transport}.

Implicit Types (generator : MessageGenerator) (w : world).

Lemma fuzz_mac_restores generator substitutions xors w :
  keeps_hooks (generate generator) → keeps_hooks (post_send generator) →
  send_succeeds (fuzz_mac generator substitutions xors) w →
  hooks (run_generator (fuzz_mac generator substitutions xors) w).2 = hooks w.
Proof.
  intros Hgen Hpost Hsend. unfold fuzz_mac in *.
  restore_hooks Hgen Hpost Hsend w generator.
Qed.

Lemma fuzz_plaintext_restores generator substitutions xors w :
  keeps_hooks (generate generator) → keeps_hooks (post_send generator) →
  send_succeeds (fuzz_plaintext generator substitutions xors) w →
  hooks (run_generator (fuzz_plaintext generator substitutions xors) w).2 = hooks w.
Proof.
  intros Hgen Hpost Hsend. unfold fuzz_plaintext in *.
  restore_hooks Hgen Hpost Hsend w generator.
Qed.

Lemma replace_plaintext_restores generator new_plaintext w :
  keeps_hooks (generate generator) → keeps_hooks (post_send generator) →
  send_succeeds (replace_plaintext generator new_plaintext) w →
  hooks (run_generator (replace_plaintext generator new_plaintext) w).2 = hooks w.
Proof.
  intros Hgen Hpost Hsend. unfold replace_plaintext in *.
  restore_hooks Hgen Hpost Hsend w generator.
Qed.

Lemma fuzz_padding_restores generator min_length substitutions xors node w :
  keeps_hooks (generate generator) → keeps_hooks (post_send generator) →
  fuzz_padding generator min_length substitutions xors = Ok node →
  send_succeeds node w →
  hooks (run_generator node w).2 = hooks w.
Proof.
  intros Hgen Hpost Hnode Hsend. unfold fuzz_padding in Hnode.
  destruct (match min_length with Some l => 256 <=? l | None => false end);
    [discriminate |].
  injection Hnode as <-.
  restore_hooks Hgen Hpost Hsend w generator.
Qed.

(** When the send fails, the run of a node ends there with the store as
    [generate] left it. *)
Lemma failed_send_ends_run (node : MessageGenerator) w msg w' e :
  generate node w = (Ok msg, w') →
  sendMessage (msg_sock (state w')) msg = Raise e →
  run_generator node w = (Raise e, w').
Proof.
  intros Hgen Hsend. unfold run_generator. run_monad.
  rewrite Hgen. simpl. by rewrite Hsend.
Qed.

(** C1, as the code has it.  Take a generator whose own [generate] and
    [post_send] leave the three methods of [msg_sock] alone and wrap it with
    [fuzz_mac], [fuzz_padding], [fuzz_plaintext] or [replace_plaintext].
    The override installed by the new [generate] is taken back by the new
    [post_send]: after a run of the node in which the message was
    transmitted, [calculateMAC], [addPadding] and [_recordSocket.send] are
    what they were before the node ran, whether the generator's own
    [post_send] fails or not; the same holds when [generate] itself fails,
    as nothing is installed then.  When the send fails, [post_send] is not
    run and the store stays as the new [generate] left it. *)
Theorem wrapper_restores_hooks (generator : MessageGenerator)
    (min_length : option Z) (substitutions xors : option mutation)
    (new_plaintext : list Z) (node : MessageGenerator) (w : world) :
  keeps_hooks (generate generator) →
  keeps_hooks (post_send generator) →
  node = fuzz_mac generator substitutions xors
  ∨ fuzz_padding generator min_length substitutions xors = Ok node
  ∨ node = fuzz_plaintext generator substitutions xors
  ∨ node = replace_plaintext generator new_plaintext →
  (send_succeeds node w → hooks (run_generator node w).2 = hooks w)
  ∧ (∀ msg w' e,
       generate node w = (Ok msg, w') →
       sendMessage (msg_sock (state w')) msg = Raise e →
       run_generator node w = (Raise e, w')).
Proof.
  intros Hgen Hpost Hnode. split.
  - destruct Hnode as [-> | [Hnode | [-> | ->]]]; intros Hsend.
    + by apply fuzz_mac_restores.
    + by eapply fuzz_padding_restores.
    + by apply fuzz_plaintext_restores.
    + by apply replace_plaintext_restores.
  - intros msg w' e. apply failed_send_ends_run.
Qed.

Lemma getitem_last (data : list Z) (b : Z) :
  Py.getitem (data ++ [b]) (-1) = Ok b.
Proof.
  unfold Py.getitem, Py.norm_index. rewrite length_app. simpl.
  replace (-1 + Z.of_nat (length data + 1) <? 0) with false
    by (symmetry; apply Z.ltb_ge; lia).
  replace (Z.of_nat (length data + 1) <=? -1 + Z.of_nat (length data + 1))
    with false by (symmetry; apply Z.leb_gt; lia).
  simpl.
  replace (Z.to_nat (-1 + Z.of_nat (length data + 1))) with (length data) by lia.
  by rewrite list_lookup_middle.
Qed.

Lemma slice_from_suffix (data suffix : list Z) :
  suffix ≠ [] →
  Py.slice_from (data ++ suffix) (- Z.of_nat (length suffix)) = suffix.
Proof.
  intros Hne. unfold Py.slice_from, Py.clamp. rewrite length_app.
  assert (0 < length suffix)%nat by (destruct suffix; [done | simpl; lia]).
  replace (- Z.of_nat (length suffix) <? 0) with true
    by (symmetry; apply Z.ltb_lt; lia).
  replace (Z.to_nat _) with (length data) by lia.
  by rewrite drop_app_length.
Qed.

(** On well-formed padding the padding method installed by [fuzz_padding]
    without a minimal length and without mutations answers as the method it
    replaces. *)
Lemma fuzz_padding_noop_pointwise (old : method) (block_size : Z) (data : list Z) :
  (∀ out, call_pad old block_size data = Ok out →
     ∃ paddingLength, 0 ≤ paddingLength
       ∧ out = data ++ replicate (Z.to_nat (paddingLength + 1)) paddingLength) →
  (padding ← (padded_data ← call_pad old block_size data;
              padding_length ← Py.getitem padded_data (-1);
              Ok (Py.slice_from padded_data (- (padding_length + 1))));
   padding ← substitute_and_xor padding None None;
   Ok (data ++ padding)) = call_pad old block_size data.
Proof.
  intros Hwf. destruct (call_pad old block_size data) as [out | e]; [| done].
  destruct (Hwf out eq_refl) as (pl & Hpl & ->). simpl.
  replace (Z.to_nat (pl + 1)) with (S (Z.to_nat pl)) by lia.
  rewrite replicate_S_end, app_assoc, getitem_last. simpl.
  rewrite <- app_assoc, <- replicate_S_end.
  replace (- (pl + 1)) with (- Z.of_nat (length (replicate (S (Z.to_nat pl)) pl)))
    by (rewrite length_replicate; lia).
  by rewrite slice_from_suffix.
Qed.

(** C2, as the code has it.  Over a record layer that uses the methods of
    [msg_sock] only by calling them, a generator wrapped by [fuzz_message],
    [fuzz_mac], [fuzz_plaintext] or [fuzz_encrypted_message] with neither
    substitutions nor xors transmits the bytes the unwrapped generator
    transmits; so does one wrapped by [fuzz_padding] when, besides, no
    minimal length is asked for and the padding method in place produces
    well-formed padding; and [fuzz_pkcs1_padding] with neither returns the
    key as it is. *)
Theorem empty_mutation_transmits_the_same (generator : MessageGenerator)
    (w : world) :
  extensional T →
  transmitted (fuzz_message generator None None) w = transmitted generator w
  ∧ transmitted (fuzz_mac generator None None) w = transmitted generator w
  ∧ transmitted (fuzz_plaintext generator None None) w = transmitted generator w
  ∧ transmitted (fuzz_encrypted_message generator None None) w
      = transmitted generator w
  ∧ ((∀ msg w1, generate generator w = (Ok msg, w1) →
        tls_padding (msg_sock (state w1))) →
     ∃ node, fuzz_padding generator None None None = Ok node
             ∧ transmitted node w = transmitted generator w)
  ∧ (∀ key, fuzz_pkcs1_padding key None None = key).
Proof.
  intros Hext. unfold transmitted.
  split; [| split; [| split; [| split; [| split]]]].
  - unfold fuzz_message. simpl. run_monad.
    destruct (generate generator w) as [[[ct [data | e]] | e] w1]; reflexivity.
  - unfold fuzz_mac, post_send_msg_sock_restore. simpl. run_monad.
    destruct (generate generator w) as [[msg | e] w1]; simpl; [| done].
    apply Hext. unfold same_calls. simpl. repeat split.
    intros mac seqnumBytes contentType data.
    by destruct (call_mac _ mac seqnumBytes contentType data).
  - unfold fuzz_plaintext, post_send_msg_sock_restore. simpl. run_monad.
    destruct (generate generator w) as [[msg | e] w1]; simpl; [| done].
    apply Hext. unfold same_calls. simpl. repeat split.
    intros data. by destruct (call_pad _ _ data).
  - unfold fuzz_encrypted_message, post_send_msg_sock_restore. simpl. run_monad.
    destruct (generate generator w) as [[msg | e] w1]; simpl; [| done].
    apply Hext. unfold same_calls. simpl. repeat split.
  - intros Hwf. eexists. split; [reflexivity |].
    unfold post_send_msg_sock_restore. simpl. run_monad.
    destruct (generate generator w) as [[msg | e] w1] eqn:Hgen; simpl; [| done].
    apply Hext. unfold same_calls. simpl. repeat split.
    intros data. apply fuzz_padding_noop_pointwise.
    apply (Hwf msg w1 eq_refl).
  - reflexivity.
Qed.

End Combinators.

(** The record layer [mac_pad_send] uses the methods only by calling them. *)
Lemma mac_pad_send_extensional : extensional mac_pad_send.
Proof.
  intros a b msg (Hmac & Hpad & Hsend & _).
  unfold sendMessage, mac_pad_send.
  destruct (write msg) as [data | e]; simpl; [| done].
  rewrite Hmac. destruct (call_mac _ _ _ _ data) as [mac | e]; simpl; [| done].
  rewrite Hpad. destruct (call_pad _ _ _) as [padded | e]; simpl; [| done].
  apply Hsend.
Qed.

Lemma tls_addPadding_well_formed (sock : MessageSocket) :
  addPadding sock = PaddingMethod tls_addPadding → 0 < blockSize sock →
  tls_padding sock.
Proof.
  intros Hpad Hbs data out. rewrite Hpad. simpl. unfold tls_addPadding.
  case_decide; [lia |]. intros [= <-].
  eexists. split; [| reflexivity].
  pose proof (Z.mod_pos_bound (Z.of_nat (length data)) (blockSize sock) Hbs). lia.
Qed.

Lemma wrapper_restores_hooks_witness :
  let node := fuzz_mac (RawMessageGenerator 23 [1; 2; 3]) None (Some [(-1, 1)]) in
  let after := @run_generator mac_pad_send node world0 in
  after.1 = Ok tt
  ∧ sent after.2 = [[23; 1; 2; 3; 23; 2; 2; 2; 2]]
  ∧ hooks after.2 = hooks world0.
Proof.
  split; [reflexivity |]. split; [reflexivity |].
  destruct (@wrapper_restores_hooks mac_pad_send (RawMessageGenerator 23 [1; 2; 3])
              None None (Some [(-1, 1)]) []
              (fuzz_mac (RawMessageGenerator 23 [1; 2; 3]) None (Some [(-1, 1)]))
              world0) as [Hrestored _].
  - intros w. reflexivity.
  - intros w. reflexivity.
  - left. reflexivity.
  - apply Hrestored. intros msg w' Hgen. vm_compute in Hgen.
    injection Hgen as <- <-. eexists. vm_compute. reflexivity.
Defined.

(** C1 as stated fails: when the send fails the new [post_send] is not run
    and the override of [calculateMAC] stays; the next message through that
    record layer gets its MAC changed too. *)
Lemma failed_send_keeps_override :
  let node := fuzz_mac (RawMessageGenerator 23 [1; 2; 3]) None (Some [(-1, 1)]) in
  let after := @run_generator closed_socket node world0 in
  after.1 = Raise SocketError
  ∧ calculateMAC (msg_sock (state after.2)) ≠ calculateMAC (msg_sock (state world0))
  ∧ @sendMessage mac_pad_send (msg_sock (state after.2)) (Message 23 [9])
      ≠ @sendMessage mac_pad_send (msg_sock (state world0)) (Message 23 [9]).
Proof.
  split; [reflexivity |]. split.
  - intros Heq.
    assert (Hcall : call_mac (calculateMAC (msg_sock (state
                      (@run_generator closed_socket
                         (fuzz_mac (RawMessageGenerator 23 [1; 2; 3]) None
                            (Some [(-1, 1)])) world0).2))) [] [] 23 [9]
                    = call_mac (calculateMAC (msg_sock (state world0))) [] [] 23 [9])
      by (by rewrite Heq).
    vm_compute in Hcall. discriminate.
  - vm_compute. discriminate.
Qed.

(** [fuzz_encrypted_message] asks [post_send_msg_sock_restore] to restore
    the attribute named "._recordSocket.send": the old method is stored on
    [msg_sock] under that name, and [_recordSocket.send] keeps the override
    after the node has completed. *)
Lemma fuzz_encrypted_message_keeps_override :
  let node := fuzz_encrypted_message (RawMessageGenerator 23 [1; 2; 3]) None
                (Some [(-1, 1)]) in
  let after := @run_generator mac_pad_send node world0 in
  after.1 = Ok tt
  ∧ map fst (other_attrs (msg_sock (state after.2))) = ["._recordSocket.send"]
  ∧ @sendMessage mac_pad_send (msg_sock (state after.2)) (Message 23 [9])
      ≠ @sendMessage mac_pad_send (msg_sock (state world0)) (Message 23 [9]).
Proof.
  split; [reflexivity |]. split; [reflexivity |]. vm_compute. discriminate.
Qed.

Lemma empty_mutation_transmits_the_same_witness :
  let generator := RawMessageGenerator 23 [1; 2; 3] in
  @transmitted mac_pad_send generator world0 = Ok [23; 1; 2; 3; 23; 3; 2; 2; 2]
  ∧ @transmitted mac_pad_send (fuzz_mac generator None None) world0
      = @transmitted mac_pad_send generator world0
  ∧ ∃ node, fuzz_padding generator None None None = Ok node
            ∧ @transmitted mac_pad_send node world0
                = @transmitted mac_pad_send generator world0.
Proof.
  destruct (@empty_mutation_transmits_the_same mac_pad_send
              (RawMessageGenerator 23 [1; 2; 3]) world0 mac_pad_send_extensional)
    as (_ & Hmac & _ & _ & Hpad & _).
  split; [reflexivity |]. split; [exact Hmac |].
  apply Hpad. intros msg w1 Hgen. vm_compute in Hgen. injection Hgen as <- <-.
  apply tls_addPadding_well_formed; [reflexivity | reflexivity].
Defined.

(** C2 as stated fails: [fuzz_padding] with a minimal length and neither
    substitutions nor xors changes the padding that is transmitted. *)
Lemma fuzz_padding_min_length_changes_bytes :
  let generator := RawMessageGenerator 23 [1; 2; 3] in
  ∃ node, fuzz_padding generator (Some 20) None None = Ok node
          ∧ @transmitted mac_pad_send node world0
              ≠ @transmitted mac_pad_send generator world0.
Proof. eexists. split; [reflexivity |]. vm_compute. discriminate. Qed.

(* ===================================================================== *)
(** * Further properties of the code *)
(* ===================================================================== *)

(** ** [substitute_and_xor] beyond well-formed dictionaries *)

Section MutationAlgebra.

Implicit Types (data out : list Z) (d : mutation) (k v : Z) (i : nat).

Lemma norm_index_ok len k i :
  Py.norm_index (Z.of_nat len) k = Ok i → in_range len k ∧ i = position len k.
Proof.
  unfold Py.norm_index, in_range, position.
  destruct (Z.ltb_spec k 0) as [Hneg | Hpos]; cbv zeta.
  - destruct (Z.ltb_spec (k + Z.of_nat len) 0),
      (Z.leb_spec (Z.of_nat len) (k + Z.of_nat len)); simpl; try discriminate.
    intros [= <-]. split; [lia | f_equal; lia].
  - destruct (Z.ltb_spec k 0), (Z.leb_spec (Z.of_nat len) k);
      simpl; try discriminate.
    intros [= <-]. split; [lia | done].
Qed.

Lemma setitem_ok data k v out :
  Py.setitem data k v = Ok out →
  in_range (length data) k ∧ is_byte v
  ∧ out = <[position (length data) k := v]> data.
Proof.
  unfold Py.setitem.
  destruct (Py.norm_index (Z.of_nat (length data)) k) as [i | e] eqn:Hi;
    simpl; [| discriminate].
  apply norm_index_ok in Hi as [Hk ->].
  destruct (Z.leb_spec 0 v), (Z.ltb_spec v 256); simpl; try discriminate.
  intros [= <-]. unfold is_byte. done.
Qed.

Lemma getitem_ok data k b :
  Py.getitem data k = Ok b →
  in_range (length data) k ∧ data !! position (length data) k = Some b.
Proof.
  unfold Py.getitem.
  destruct (Py.norm_index (Z.of_nat (length data)) k) as [i | e] eqn:Hi;
    simpl; [| discriminate].
  apply norm_index_ok in Hi as [Hk ->].
  destruct (data !! position (length data) k); [| discriminate].
  by intros [= <-].
Qed.

Lemma norm_index_raise len k e :
  Py.norm_index (Z.of_nat len) k = Raise e → e = IndexError ∧ ¬ in_range len k.
Proof.
  unfold Py.norm_index, in_range.
  destruct (Z.ltb_spec k 0) as [Hneg | Hpos]; cbv zeta.
  - destruct (Z.ltb_spec (k + Z.of_nat len) 0),
      (Z.leb_spec (Z.of_nat len) (k + Z.of_nat len)); simpl; try discriminate;
      intros [= <-]; (split; [done | lia]).
  - destruct (Z.ltb_spec k 0), (Z.leb_spec (Z.of_nat len) k);
      simpl; try discriminate; intros [= <-]; (split; [done | lia]).
Qed.

(** The order of the two checks of a store matters only when both fail. *)
Lemma setitem_check_order data k v :
  (in_range (length data) k ∨ is_byte v →
   setitem_value_first data k v = Py.setitem data k v)
  ∧ (¬ in_range (length data) k → ¬ is_byte v →
     Py.setitem data k v = Raise IndexError
     ∧ setitem_value_first data k v = Raise ValueError)
  ∧ (∀ out, Py.setitem data k v = Ok out ↔ setitem_value_first data k v = Ok out).
Proof.
  assert (Hbyte : (0 <=? v) && (v <? 256) = true ↔ is_byte v).
  { unfold is_byte. rewrite andb_true_iff, Z.leb_le, Z.ltb_lt. done. }
  unfold setitem_value_first, Py.setitem.
  destruct (Py.norm_index (Z.of_nat (length data)) k) as [i | e] eqn:Hi;
    destruct ((0 <=? v) && (v <? 256)) eqn:Hv; simpl.
  - apply norm_index_ok in Hi as [Hk _]. done.
  - apply norm_index_ok in Hi as [Hk _]. done.
  - apply norm_index_raise in Hi as [-> Hk].
    split; [done |]. split; [| done].
    intros _ Hno. exfalso. by apply Hno, Hbyte.
  - apply norm_index_raise in Hi as [-> Hk].
    split; [| done].
    intros [? | Hyes]; [done |]. by apply Hbyte in Hyes.
Qed.

Lemma substitutions_ok d : ∀ data out,
  for_each (fun data pos v => Py.setitem data pos v) d data = Ok out →
  length out = length data
  ∧ Forall (fun e => in_range (length data) e.1 ∧ is_byte e.2) d.
Proof.
  induction d as [| [k v] d IH]; intros data out; simpl.
  - intros [= <-]. done.
  - destruct (Py.setitem data k v) as [mid |] eqn:Hset; [| discriminate].
    apply setitem_ok in Hset as (Hk & Hv & ->). intros Hrun.
    apply IH in Hrun as [Hlen Hall]. rewrite length_insert in *.
    split; [done |]. constructor; done.
Qed.

Lemma xors_ok d : ∀ data out,
  for_each (fun data pos v =>
              b ← Py.getitem data pos;
              Py.setitem data pos (Z.lxor b v)) d data = Ok out →
  length out = length data
  ∧ Forall (fun e => in_range (length data) e.1) d.
Proof.
  induction d as [| [k v] d IH]; intros data out; simpl.
  - intros [= <-]. done.
  - destruct (Py.getitem data k) as [b |] eqn:Hget; simpl; [| discriminate].
    destruct (Py.setitem data k (Z.lxor b v)) as [mid |] eqn:Hset; [| discriminate].
    apply setitem_ok in Hset as (Hk & Hv & ->). intros Hrun.
    apply IH in Hrun as [Hlen Hall]. rewrite length_insert in *.
    split; [done |]. constructor; done.
Qed.

Lemma substitute_and_xor_ok (data out : list Z)
    (substitutions xors : option mutation) :
  substitute_and_xor data substitutions xors = Ok out →
  length out = length data
  ∧ Forall (fun e => in_range (length data) e.1 ∧ is_byte e.2)
      (default [] substitutions)
  ∧ Forall (fun e => in_range (length data) e.1) (default [] xors).
Proof.
  unfold substitute_and_xor. intros Hrun.
  destruct (match substitutions with
            | Some subs => for_each (fun data pos v => Py.setitem data pos v) subs data
            | None => Ok data
            end) as [mid |] eqn:Hsubs; simpl in Hrun; [| discriminate].
  destruct (match xors with
            | Some xs => for_each (fun data pos v =>
                           b ← Py.getitem data pos;
                           Py.setitem data pos (Z.lxor b v)) xs mid
            | None => Ok mid
            end) as [fin |] eqn:Hxors; simpl in Hrun; [| discriminate].
  injection Hrun as <-.
  assert (length mid = length data
          ∧ Forall (fun e => in_range (length data) e.1 ∧ is_byte e.2)
              (default [] substitutions)) as [Hlen1 Hall1].
  { destruct substitutions as [subs |]; simpl.
    - by apply substitutions_ok.
    - injection Hsubs as <-. done. }
  assert (length fin = length mid
          ∧ Forall (fun e => in_range (length mid) e.1) (default [] xors))
    as [Hlen2 Hall2].
  { destruct xors as [xs |]; simpl.
    - by apply xors_ok.
    - injection Hxors as <-. done. }
  rewrite Hlen1 in *. split; [congruence |]. done.
Qed.

(** X1.  Whenever [substitute_and_xor] returns, the result is as long as the
    data, every offset of both dictionaries lies in [-len, len) and every
    substitution value is a byte: an offset outside the data is never
    skipped and never extends the data. *)
Theorem substitute_and_xor_returns (data out : list Z)
    (substitutions xors : option mutation) :
  substitute_and_xor data substitutions xors = Ok out →
  length out = length data
  ∧ Forall (fun e => in_range (length data) e.1 ∧ is_byte e.2)
      (default [] substitutions)
  ∧ Forall (fun e => in_range (length data) e.1) (default [] xors).
Proof. apply substitute_and_xor_ok. Qed.

Lemma substitute_and_xor_returns_witness :
  substitute_and_xor [1; 2; 3] (Some [(-3, 7)]) (Some [(2, 1)]) = Ok [7; 2; 2]
  ∧ length [7; 2; 2] = length [1; 2; 3]
  ∧ substitute_and_xor [1; 2; 3] (Some [(-4, 7)]) None = Raise IndexError.
Proof.
  split; [reflexivity |]. split; [| reflexivity].
  exact (proj1 (substitute_and_xor_returns [1; 2; 3] [7; 2; 2]
                  (Some [(-3, 7)]) (Some [(2, 1)]) eq_refl)).
Defined.

Lemma xored_at_mask len d i : ∀ b,
  xored_at len d i b = Z.lxor b (xored_at len d i 0).
Proof.
  induction d as [| [k v] d IH]; intros b; simpl.
  - by rewrite Z.lxor_0_r.
  - case_decide.
    + rewrite (IH (Z.lxor b v)), (IH (Z.lxor 0 v)).
      rewrite Z.lxor_0_l. by rewrite Z.lxor_assoc.
    + apply IH.
Qed.

Lemma xored_at_twice len d i b :
  xored_at len d i (xored_at len d i b) = b.
Proof.
  rewrite (xored_at_mask len d i (xored_at len d i b)).
  rewrite (xored_at_mask len d i b).
  by rewrite Z.lxor_assoc, Z.lxor_nilpotent, Z.lxor_0_r.
Qed.

Lemma substituted_at_twice len d i : ∀ b c,
  substituted_at len d i (substituted_at len d i b) = substituted_at len d i c
  ∨ (substituted_at len d i b = b ∧ substituted_at len d i c = c).
Proof.
  induction d as [| [k v] d IH]; intros b c; simpl; [by right |].
  case_decide.
  - left. destruct (IH v v) as [Hsame | [Hfix _]].
    + destruct (IH (substituted_at len d i v) v) as [H1 | [H1 _]]; congruence.
    + by rewrite !Hfix.
  - apply IH.
Qed.

Lemma substituted_at_idempotent len d i b :
  substituted_at len d i (substituted_at len d i b) = substituted_at len d i b.
Proof.
  destruct (substituted_at_twice len d i b b) as [H | [H _]]; [done |].
  by rewrite !H.
Qed.

(** X2.  Xor masks cancel: on data made of bytes, with offsets inside the
    data and masks that are bytes, applying the same [xors] to the result of
    [substitute_and_xor] gives the original data back, also when several
    offsets designate one byte. *)
Theorem xors_cancel (data : list Z) (xors : mutation) :
  Forall is_byte data →
  in_bounds (length data) xors →
  ∃ out,
    substitute_and_xor data None (Some xors) = Ok out
    ∧ substitute_and_xor out None (Some xors) = Ok data.
Proof.
  intros Hbytes Hall.
  destruct (xors_at xors data Hbytes Hall) as (out & Hrun & Hlen & Hob & Hpt).
  rewrite <- Hlen in Hall.
  destruct (xors_at xors out Hob Hall) as (back & Hrun2 & Hlen2 & _ & Hpt2).
  exists out. unfold substitute_and_xor. simpl. rewrite Hrun. simpl.
  split; [done |]. rewrite Hrun2. simpl. f_equal.
  apply list_eq. intros i.
  destruct (data !! i) as [b |] eqn:Hb.
  - rewrite (Hpt2 i _ (Hpt i b Hb)). rewrite Hlen. by rewrite xored_at_twice.
  - apply lookup_ge_None in Hb. apply lookup_ge_None. lia.
Qed.

Lemma xors_cancel_witness :
  substitute_and_xor [10; 20; 30] None (Some [(-1, 15); (2, 1); (0, 255)])
    = Ok [245; 20; 16]
  ∧ substitute_and_xor [245; 20; 16] None (Some [(-1, 15); (2, 1); (0, 255)])
    = Ok [10; 20; 30].
Proof.
  destruct (xors_cancel [10; 20; 30] [(-1, 15); (2, 1); (0, 255)])
    as (out & Hrun & Hback).
  - repeat constructor; unfold is_byte; lia.
  - repeat constructor; unfold in_range, is_byte; simpl; lia.
  - assert (out = [245; 20; 16]) as -> by (vm_compute in Hrun; congruence).
    split; [exact Hrun | exact Hback].
Defined.

(** X3.  Substitutions are idempotent: with offsets inside the data and
    values that are bytes, substituting a second time with the same
    dictionary changes nothing. *)
Theorem substitutions_idempotent (data : list Z) (substitutions : mutation) :
  in_bounds (length data) substitutions →
  ∃ out,
    substitute_and_xor data (Some substitutions) None = Ok out
    ∧ substitute_and_xor out (Some substitutions) None = Ok out.
Proof.
  intros Hall.
  destruct (substitutions_at substitutions data Hall) as (out & Hrun & Hlen & Hpt).
  rewrite <- Hlen in Hall.
  destruct (substitutions_at substitutions out Hall) as (again & Hrun2 & Hlen2 & Hpt2).
  exists out. unfold substitute_and_xor. rewrite Hrun. simpl.
  split; [done |]. rewrite Hrun2. simpl. f_equal.
  apply list_eq. intros i.
  destruct (data !! i) as [b |] eqn:Hb.
  - rewrite (Hpt2 i _ (Hpt i b Hb)), (Hpt i b Hb), Hlen.
    by rewrite substituted_at_idempotent.
  - apply lookup_ge_None in Hb.
    rewrite (proj2 (lookup_ge_None again i)) by lia.
    symmetry. apply lookup_ge_None. lia.
Qed.

Lemma substitutions_idempotent_witness :
  substitute_and_xor [10; 20; 30] (Some [(-1, 5); (2, 6)]) None = Ok [10; 20; 6]
  ∧ substitute_and_xor [10; 20; 6] (Some [(-1, 5); (2, 6)]) None = Ok [10; 20; 6].
Proof.
  destruct (substitutions_idempotent [10; 20; 30] [(-1, 5); (2, 6)])
    as (out & Hrun & Hagain).
  - repeat constructor; unfold in_range, is_byte; simpl; lia.
  - assert (out = [10; 20; 6]) as -> by (vm_compute in Hrun; congruence).
    split; [exact Hrun | exact Hagain].
Defined.

End MutationAlgebra.

(** ** Padding of a chosen length *)

Lemma div_ceil_positive (divident divisor : Z) :
  0 < divisor →
  ∃ q, div_ceil divident divisor = Ok q
       ∧ divisor * (q - 1) < divident ≤ divisor * q.
Proof.
  intros Hpos. unfold div_ceil. case_decide; [lia |].
  eexists. split; [reflexivity |].
  pose proof (Z.div_mod divident divisor ltac:(lia)) as Hdm.
  pose proof (Z.mod_pos_bound divident divisor Hpos) as Hm.
  case_decide; nia.
Qed.

(** X4.  [div_ceil] is the quotient rounded up: for a positive divisor the
    least [q] with [q * divisor >= divident], for a negative one the least
    [q] with [q * divisor <= divident]; a zero divisor raises
    [ZeroDivisionError]. *)
Theorem div_ceil_rounds_up (divident divisor : Z) :
  (divisor = 0 → div_ceil divident divisor = Raise ZeroDivisionError)
  ∧ (0 < divisor →
     ∃ q, div_ceil divident divisor = Ok q
          ∧ divisor * (q - 1) < divident ≤ divisor * q)
  ∧ (divisor < 0 →
     ∃ q, div_ceil divident divisor = Ok q
          ∧ divisor * q ≤ divident < divisor * (q - 1)).
Proof.
  split; [| split]; [| | unfold div_ceil].
  - intros ->. unfold div_ceil. by case_decide.
  - apply div_ceil_positive.
  - intros Hneg. case_decide; [lia |]. eexists. split; [reflexivity |].
    pose proof (Z.div_mod divident divisor ltac:(lia)) as Hdm.
    pose proof (Z.mod_neg_bound divident divisor Hneg) as Hm.
    case_decide; nia.
Qed.

Lemma div_ceil_rounds_up_witness :
  div_ceil 25 8 = Ok 4 ∧ div_ceil 24 8 = Ok 3 ∧ div_ceil 7 (-2) = Ok (-3)
  ∧ div_ceil 7 0 = Raise ZeroDivisionError.
Proof.
  destruct (div_ceil_rounds_up 7 0) as [Hzero _].
  split; [reflexivity |]. split; [reflexivity |]. split; [reflexivity |].
  exact (Hzero eq_refl).
Defined.

(** X5.  The padding method that [fuzz_padding] installs for a minimal
    length never touches the data: it appends [padding_length] bytes of
    value [padding_length - 1], mutated at offsets relative to the padding
    alone, where [padding_length] is the least length of at least
    [min_length] that fills the last block; more than 256 bytes of padding
    are a [ValueError]. *)
Theorem fuzz_padding_min_length (generator : MessageGenerator) (min_length : Z)
    (substitutions xors : option mutation) (node : MessageGenerator)
    (w w1 : world) (msg : message) (block_size : Z) (data : list Z) :
  fuzz_padding generator (Some min_length) substitutions xors = Ok node →
  generate generator w = (Ok msg, w1) →
  0 < block_size →
  ∃ padding_length,
    min_length ≤ padding_length < min_length + block_size
    ∧ (Z.of_nat (length data) + padding_length) mod block_size = 0
    ∧ (generate node w).1 = Ok msg
    ∧ call_pad (addPadding (msg_sock (state (generate node w).2))) block_size data =
        if 256 <? padding_length then Raise ValueError
        else padding ← substitute_and_xor
                          (replicate (Z.to_nat padding_length) (padding_length - 1))
                          substitutions xors;
             Ok (data ++ padding).
Proof.
  intros Hnode Hgen Hbs. unfold fuzz_padding in Hnode.
  destruct (256 <=? min_length); [discriminate |]. injection Hnode as <-.
  destruct (div_ceil_positive (Z.of_nat (length data) + min_length) block_size Hbs)
    as (q & Hq & Hlo & Hhi).
  exists (q * block_size - Z.of_nat (length data)).
  split; [lia |]. split.
  { replace (Z.of_nat (length data) + (q * block_size - Z.of_nat (length data)))
      with (q * block_size) by lia. apply Z.mod_mul. lia. }
  unfold post_send_msg_sock_restore. simpl. run_monad. rewrite Hgen. simpl.
  split; [done |]. rewrite Hq. simpl.
  destruct (256 <? q * block_size - Z.of_nat (length data)); simpl; [done |].
  by destruct (substitute_and_xor _ substitutions xors).
Qed.

Lemma fuzz_padding_min_length_witness :
  ∃ node,
    fuzz_padding (RawMessageGenerator 23 [1; 2; 3]) (Some 4) None (Some [(-1, 1)])
      = Ok node
    ∧ call_pad (addPadding (msg_sock (state (generate node world0).2))) 8 [1; 2; 3]
      = Ok [1; 2; 3; 4; 4; 4; 4; 5].
Proof.
  eexists. split; [reflexivity |].
  destruct (fuzz_padding_min_length (RawMessageGenerator 23 [1; 2; 3]) 4 None
              (Some [(-1, 1)]) _ world0 world0 (Message 23 [1; 2; 3]) 8 [1; 2; 3]
              eq_refl eq_refl eq_refl)
    as (pl & Hrange & Hmod & _ & Hcall).
  assert (pl = 5) as ->.
  { simpl in Hmod. destruct (decide (pl = 5)); [done |].
    assert (pl = 4 ∨ pl = 6 ∨ pl = 7 ∨ pl = 8 ∨ pl = 9 ∨ pl = 10 ∨ pl = 11) as Hc by lia.
    destruct Hc as [-> | [-> | [-> | [-> | [-> | [-> | ->]]]]]]; discriminate. }
  exact Hcall.
Defined.

(** ** Combinators layered on one generator *)

(** Open a [padding_wrapper] hypothesis into its three cases. *)
Ltac padding_cases Hwrap :=
  let Hnode := fresh "Hnode" in
  let ml := fresh "ml" in
  destruct Hwrap as [(ml & ? & ? & Hnode) | [(? & ? & ->) | (? & ->)]];
  [ unfold fuzz_padding in Hnode;
    destruct (match ml with Some l => 256 <=? l | None => false end);
    [discriminate |]; injection Hnode as <-
  | unfold fuzz_plaintext
  | unfold replace_plaintext ].

(** Run a doubly wrapped node: both [generate]s, the send, the [post_send]s. *)
Ltac run_layers Hgen Hpost Hsend w generator :=
  specialize (Hgen w); revert Hsend; unfold send_succeeds;
  unfold run_generator, post_send_msg_sock_restore; simpl; run_monad;
  destruct (generate generator w) as [[? | ?] ?]; simpl in *; [| done];
  let Hs := fresh in
  let Hb := fresh in
  intros Hs; destruct (Hs _ _ eq_refl) as [? Hb];
  simpl in Hb; rewrite Hb; simpl;
  match goal with
  | |- hooks (post_send generator ?w4).2 = _ => rewrite (Hpost w4)
  end.

Section Layers.

Context {T : Transport}.

Implicit Types (generator inner node : MessageGenerator) (w : world).

(** X6.  Combinators on different methods compose: a generator wrapped by
    one of [fuzz_padding], [fuzz_plaintext], [replace_plaintext] and by
    [fuzz_mac], in either order, has all three methods of [msg_sock] back
    after a run in which the message was transmitted. *)
Theorem layers_on_different_methods generator inner node
    (substitutions xors : option mutation) w :
  keeps_hooks (generate generator) →
  keeps_hooks (post_send generator) →
  (padding_wrapper generator inner ∧ node = fuzz_mac inner substitutions xors)
  ∨ (inner = fuzz_mac generator substitutions xors ∧ padding_wrapper inner node) →
  send_succeeds node w →
  hooks (run_generator node w).2 = hooks w.
Proof.
  intros Hgen Hpost [[Hwrap ->] | [-> Hwrap]] Hsend.
  - padding_cases Hwrap; unfold fuzz_mac in *;
      run_layers Hgen Hpost Hsend w generator; rewrite <- Hgen; reflexivity.
  - padding_cases Hwrap; unfold fuzz_mac in *;
      run_layers Hgen Hpost Hsend w generator; rewrite <- Hgen; reflexivity.
Qed.

Lemma padding_layers_wrappers generator inner node :
  padding_layers generator inner node →
  padding_wrapper generator inner ∧ padding_wrapper inner node.
Proof.
  intros [[[Hin | Hin] Hout] | [Hin [Hout | Hout]]].
  - split; [by left | done].
  - split; [right; by left | done].
  - split; [right; by right | by left].
  - split; [right; by right | right; by right].
Qed.

(** X7.  Combinators on the same method do not compose: both save the
    method they replace in one attribute of the generator
    ([old_add_padding], or [old_calculate_mac]), so after a complete run of
    a generator wrapped twice the methods are as the inner wrapper's
    [generate] left them, the inner override still installed.  This is
    stated for two [fuzz_mac] and for the pairs of [padding_layers], that
    is all pairs of padding wrappers but [replace_plaintext] under
    [fuzz_plaintext]. *)
Theorem layers_on_one_method generator inner node
    (s1 x1 s2 x2 : option mutation) w :
  keeps_hooks (generate generator) →
  keeps_hooks (post_send generator) →
  padding_layers generator inner node
  ∨ (inner = fuzz_mac generator s1 x1 ∧ node = fuzz_mac inner s2 x2) →
  send_succeeds node w →
  hooks (run_generator node w).2 = hooks (generate inner w).2.
Proof.
  intros Hgen Hpost [Hlayers | [-> ->]] Hsend.
  - apply padding_layers_wrappers in Hlayers as [Hin Hout].
    padding_cases Hin; padding_cases Hout;
      run_layers Hgen Hpost Hsend w generator; reflexivity.
  - unfold fuzz_mac in *.
    run_layers Hgen Hpost Hsend w generator; reflexivity.
Qed.

End Layers.

Lemma layers_on_different_methods_witness :
  let inner := replace_plaintext (RawMessageGenerator 23 [1; 2; 3])
                 [9; 9; 9; 9; 9; 9; 9; 9] in
  let node := fuzz_mac inner None (Some [(0, 1)]) in
  let after := @run_generator mac_pad_send node world0 in
  after.1 = Ok tt
  ∧ sent after.2 = [[23; 9; 9; 9; 9; 9; 9; 9; 9]]
  ∧ hooks after.2 = hooks world0.
Proof.
  intros inner node after.
  split; [reflexivity |]. split; [reflexivity |].
  apply (@layers_on_different_methods mac_pad_send
           (RawMessageGenerator 23 [1; 2; 3]) inner node None (Some [(0, 1)])
           world0).
  - intros w. reflexivity.
  - intros w. reflexivity.
  - left. split; [| reflexivity]. right. right. by eexists.
  - intros msg w' Hgen. vm_compute in Hgen. injection Hgen as <- <-.
    eexists. vm_compute. reflexivity.
Defined.

Lemma layers_on_one_method_witness :
  let inner := fuzz_plaintext (RawMessageGenerator 23 [1; 2; 3]) None
                 (Some [(0, 1)]) in
  let node := replace_plaintext inner [9; 9; 9; 9; 9; 9; 9; 9] in
  let after := @run_generator mac_pad_send node world0 in
  after.1 = Ok tt
  ∧ hooks after.2 = hooks (generate inner world0).2
  ∧ @sendMessage mac_pad_send (msg_sock (state after.2)) (Message 23 [7])
      ≠ @sendMessage mac_pad_send (msg_sock (state world0)) (Message 23 [7]).
Proof.
  intros inner node after.
  split; [reflexivity |]. split; [| vm_compute; discriminate].
  apply (@layers_on_one_method mac_pad_send
           (RawMessageGenerator 23 [1; 2; 3]) inner node None None None None
           world0).
  - intros w. reflexivity.
  - intros w. reflexivity.
  - left. left. split.
    + right. by do 2 eexists.
    + right. right. by eexists.
  - intros msg w' Hgen. vm_compute in Hgen. injection Hgen as <- <-.
    eexists. vm_compute. reflexivity.
Defined.

(** ** Generator objects that are run again *)

Section Reuse.

Context `{Collaborator}.

Lemma ccs_self_after (w : world) premaster :
  Py.tuple_le (version (state w)) (3, 3) = true →
  Self.fake (self w) = false →
  resuming (state w) = false →
  key (state w) !! "premaster_secret" = Some premaster →
  Self.extended_master_secret (self (ChangeCipherSpecGenerator.post_send w).2) =
    Some (match Self.extended_master_secret (self w) with
          | Some chosen => chosen
          | None => extended_master_secret (state w)
          end)
  ∧ Self.fake (self (ChangeCipherSpecGenerator.post_send w).2) = false.
Proof.
  intros Hv Hfake Hres Hpm.
  unfold ChangeCipherSpecGenerator.post_send. run_monad.
  rewrite (version_le_12 _ Hv), Hfake. simpl.
  destruct (Self.extended_master_secret (self w)) as [chosen |] eqn:Hchosen;
    simpl; rewrite Hres, ?Hchosen; simpl;
    unfold key_lookup; rewrite Hpm.
  - destruct chosen; simpl;
      unfold calc_pending_states; run_monad;
      unfold key_lookup; simpl; rewrite lookup_insert_eq; simpl;
      case_decide; simpl; by rewrite ?Hchosen.
  - destruct (extended_master_secret (state w)); simpl;
      unfold calc_pending_states; run_monad;
      unfold key_lookup; simpl; rewrite lookup_insert_eq; simpl;
      case_decide; simpl; done.
Qed.

(** X8.  A [ChangeCipherSpecGenerator] built without the
    [extended_master_secret] argument takes the flag negotiated in the
    connection of its first [post_send] and keeps it: when the same object
    is run again on another connection state, the master secret is derived
    the way the first connection negotiated, whatever the second one did. *)
Theorem ccs_generator_keeps_first_choice (w : world) (second : ConnectionState)
    premaster premaster' :
  Py.tuple_le (version (state w)) (3, 3) = true →
  Self.fake (self w) = false →
  Self.extended_master_secret (self w) = None →
  resuming (state w) = false →
  key (state w) !! "premaster_secret" = Some premaster →
  Py.tuple_le (version second) (3, 3) = true →
  resuming second = false →
  key second !! "premaster_secret" = Some premaster' →
  let after := ChangeCipherSpecGenerator.post_send w in
  let again := ChangeCipherSpecGenerator.post_send (set_state second after.2) in
  Self.extended_master_secret (self after.2)
    = Some (extended_master_secret (state w))
  ∧ again.1 = Ok tt
  ∧ key (state again.2) !! "master_secret" =
      Some (if extended_master_secret (state w)
            then calcExtendedMasterSecret (version second) (cipher second)
                   premaster'
                   (default (handshake_hashes second)
                      (certificate_verify_handshake_hashes second))
            else calcMasterSecret (version second) (cipher second) premaster'
                   (client_random second) (server_random second)).
Proof.
  intros Hv Hfake Hnone Hres Hpm Hv2 Hres2 Hpm2. simpl.
  destruct (ccs_self_after w premaster) as [Hself Hfake']; try done.
  rewrite Hnone in Hself. split; [done |].
  destruct (ccs_master_secret
              (set_state second (ChangeCipherSpecGenerator.post_send w).2)
              premaster') as (Hok & Hms & _); try done.
  split; [done |]. rewrite Hms. simpl. by rewrite Hself.
Qed.

End Reuse.

Lemma ccs_generator_keeps_first_choice_witness :
  let plain :=
    {| msg_sock := sock0; version := (3, 3); cipher := 47;
       client_random := [21]; server_random := [22]; session_id := [];
       key := {[ "premaster_secret" := [3; 3; 5] ]};
       handshake_hashes := [4]; certificate_verify_handshake_hashes := None;
       handshake_messages := []; resuming := false;
       extended_master_secret := false; encrypt_then_mac := false;
       prf_name := "sha256";
       _our_record_size_limit := 2 ^ 14; _peer_record_size_limit := 2 ^ 14 |} in
  let after := ChangeCipherSpecGenerator.post_send world0 in
  let again := ChangeCipherSpecGenerator.post_send (set_state plain after.2) in
  extended_master_secret plain = false
  ∧ key (state again.2) !! "master_secret" = Some [2; 3; 3; 5; 4].
Proof.
  intros plain after again. split; [reflexivity |].
  destruct (ccs_generator_keeps_first_choice world0 plain [3; 3; 9] [3; 3; 5]
              eq_refl eq_refl eq_refl eq_refl eq_refl eq_refl eq_refl eq_refl)
    as (_ & _ & Hms).
  exact Hms.
Defined.

(** ** A fuzzed message written more than once *)

Section WrittenTwice.

Implicit Types (data held out : list Z) (d : mutation).

Lemma each_setitem_in_place d : ∀ data,
  match for_each (fun data pos v => Py.setitem data pos v) d data with
  | Ok out => each_in_place setitem_in_place d data = (Ok tt, out)
  | Raise e => (each_in_place setitem_in_place d data).1 = Raise e
  end.
Proof.
  induction d as [| [k v] d IH]; intros data; simpl; [reflexivity |].
  unfold mbind, M_bind.
  change (setitem_in_place k v data)
    with (match Py.setitem data k v with
          | Ok data' => (Ok tt, data')
          | Raise e => (Raise e, data)
          end).
  destruct (Py.setitem data k v) as [mid | e]; [| done].
  specialize (IH mid).
  destruct (for_each _ d mid) as [out | e].
  - by rewrite IH.
  - by destruct (each_in_place setitem_in_place d mid) as [[[] | e'] st];
      simpl in *.
Qed.

Lemma each_xor_in_place d : ∀ data,
  match for_each (fun data pos v =>
                    b ← Py.getitem data pos;
                    Py.setitem data pos (Z.lxor b v)) d data with
  | Ok out => each_in_place xor_in_place d data = (Ok tt, out)
  | Raise e => (each_in_place xor_in_place d data).1 = Raise e
  end.
Proof.
  induction d as [| [k v] d IH]; intros data; simpl; [reflexivity |].
  unfold mbind, M_bind, result_bind.
  change (xor_in_place k v data)
    with (match Py.getitem data k with
          | Ok b => match Py.setitem data k (Z.lxor b v) with
                    | Ok data' => (Ok tt, data')
                    | Raise e => (Raise e, data)
                    end
          | Raise e => (Raise e, data)
          end).
  destruct (Py.getitem data k) as [b | e]; [| done].
  destruct (Py.setitem data k (Z.lxor b v)) as [mid | e]; [| done].
  specialize (IH mid).
  destruct (for_each _ d mid) as [out | e].
  - by rewrite IH.
  - by destruct (each_in_place xor_in_place d mid) as [[[] | e'] st];
      simpl in *.
Qed.

(** The pure [substitute_and_xor] gives the outcome of the one in place,
    and the bytearray it leaves when it returns. *)
Lemma substitute_and_xor_in_place_ok data substitutions xors out :
  substitute_and_xor data substitutions xors = Ok out →
  substitute_and_xor_in_place substitutions xors data = (Ok tt, out).
Proof.
  unfold substitute_and_xor, substitute_and_xor_in_place.
  unfold mbind, M_bind, result_bind, mret, M_ret.
  destruct substitutions as [subs |].
  - pose proof (each_setitem_in_place subs data) as H1.
    destruct (for_each _ subs data) as [mid | e]; [| discriminate].
    rewrite H1. destruct xors as [xs |].
    + pose proof (each_xor_in_place xs mid) as H2.
      destruct (for_each _ xs mid) as [fin | e]; [| discriminate].
      rewrite H2. by intros [= <-].
    + by intros [= <-].
  - destruct xors as [xs |].
    + pose proof (each_xor_in_place xs data) as H2.
      destruct (for_each _ xs data) as [fin | e]; [| discriminate].
      rewrite H2. by intros [= <-].
    + by intros [= <-].
Qed.

Lemma substitute_and_xor_in_place_raise data substitutions xors e :
  substitute_and_xor data substitutions xors = Raise e →
  (substitute_and_xor_in_place substitutions xors data).1 = Raise e.
Proof.
  unfold substitute_and_xor, substitute_and_xor_in_place.
  unfold mbind, M_bind, result_bind, mret, M_ret.
  destruct substitutions as [subs |].
  - pose proof (each_setitem_in_place subs data) as H1.
    destruct (for_each _ subs data) as [mid | e1].
    + rewrite H1. destruct xors as [xs |]; [| discriminate].
      pose proof (each_xor_in_place xs mid) as H2.
      destruct (for_each _ xs mid) as [fin | e2]; [discriminate |].
      intros [= <-].
      by destruct (each_in_place xor_in_place xs mid) as [[[] | e'] st];
        simpl in *.
    + intros [= <-].
      by destruct (each_in_place setitem_in_place subs data) as [[[] | e'] st];
        simpl in *.
  - destruct xors as [xs |]; [| discriminate].
    pose proof (each_xor_in_place xs data) as H2.
    destruct (for_each _ xs data) as [fin | e2]; [discriminate |].
    intros [= <-].
    by destruct (each_in_place xor_in_place xs data) as [[[] | e'] st];
      simpl in *.
Qed.

Lemma new_write_own_buffer data substitutions xors out :
  substitute_and_xor data substitutions xors = Ok out →
  new_write OwnBuffer substitutions xors data = (Ok out, out).
Proof.
  intros Hrun. unfold new_write. run_monad.
  by rewrite (substitute_and_xor_in_place_ok _ _ _ _ Hrun).
Qed.

Lemma new_write_afresh data substitutions xors out :
  substitute_and_xor data substitutions xors = Ok out →
  new_write BuildsAfresh substitutions xors data = (Ok out, data).
Proof.
  intros Hrun. unfold new_write. run_monad.
  by rewrite (substitute_and_xor_in_place_ok _ _ _ _ Hrun).
Qed.

(** The two loops of [substitute_and_xor] run twice. *)
Lemma mutation_twice data substitutions xors :
  Forall is_byte data →
  in_bounds (length data) (default [] substitutions) →
  in_bounds (length data) (default [] xors) →
  ∃ fuzzed again,
    substitute_and_xor data substitutions xors = Ok fuzzed
    ∧ substitute_and_xor fuzzed substitutions xors = Ok again
    ∧ length fuzzed = length data
    ∧ (default [] substitutions = [] → again = data)
    ∧ (default [] xors = [] → again = fuzzed).
Proof.
  intros Hbytes Hsubs Hxors.
  destruct (substitute_and_xor_at data substitutions xors Hbytes Hsubs Hxors)
    as (fuzzed & Hfirst & Hlen & Hfb & Hpt).
  rewrite <- Hlen in Hsubs, Hxors.
  destruct (substitute_and_xor_at fuzzed substitutions xors Hfb Hsubs Hxors)
    as (again & Hsecond & Hlen2 & _ & Hpt2).
  exists fuzzed, again. split; [done |]. split; [done |]. split; [done |].
  split.
  - intros Hnone. apply list_eq. intros i.
    destruct (data !! i) as [b |] eqn:Hb.
    + rewrite (Hpt2 i _ (Hpt i b Hb)), Hlen, Hnone. simpl.
      by rewrite xored_at_twice.
    + apply lookup_ge_None in Hb. apply lookup_ge_None. lia.
  - intros Hnone. apply list_eq. intros i.
    destruct (data !! i) as [b |] eqn:Hb.
    + rewrite (Hpt2 i _ (Hpt i b Hb)), (Hpt i b Hb), Hlen, Hnone. simpl.
      by rewrite substituted_at_idempotent.
    + apply lookup_ge_None in Hb.
      rewrite (proj2 (lookup_ge_None again i)) by lia.
      symmetry. apply lookup_ge_None. lia.
Qed.

(** X9.  [fuzz_message] changes more than one [write()] when the message
    hands out the bytearray it holds: in range, the first [write()] of the
    patched message returns the mutated bytes and leaves them in the
    message, and the second (the one [post_send] feeds to the handshake
    hashes after the send) mutates them again, which with xors alone gives
    the original bytes back and with substitutions alone the same mutated
    bytes.  For a message that builds its bytes at every call, every
    [write()] returns the same mutated bytes and the message is unchanged. *)
Theorem fuzz_message_written_twice (kind : write_kind) (data : list Z)
    (substitutions xors : option mutation) :
  Forall is_byte data →
  in_bounds (length data) (default [] substitutions) →
  in_bounds (length data) (default [] xors) →
  ∃ fuzzed again,
    substitute_and_xor data substitutions xors = Ok fuzzed
    ∧ substitute_and_xor fuzzed substitutions xors = Ok again
    ∧ new_write kind substitutions xors data =
        (Ok fuzzed, match kind with BuildsAfresh => data | OwnBuffer => fuzzed end)
    ∧ new_write kind substitutions xors
        (new_write kind substitutions xors data).2 =
        match kind with
        | BuildsAfresh => (Ok fuzzed, data)
        | OwnBuffer => (Ok again, again)
        end
    ∧ (default [] substitutions = [] → again = data)
    ∧ (default [] xors = [] → again = fuzzed).
Proof.
  intros Hbytes Hsubs Hxors.
  destruct (mutation_twice data substitutions xors Hbytes Hsubs Hxors)
    as (fuzzed & again & Hfirst & Hsecond & _ & Hx & Hs).
  exists fuzzed, again. split; [done |]. split; [done |].
  destruct kind.
  - rewrite !(new_write_afresh _ _ _ _ Hfirst). cbn [snd].
    rewrite (new_write_afresh _ _ _ _ Hfirst). done.
  - rewrite !(new_write_own_buffer _ _ _ _ Hfirst). cbn [snd].
    rewrite (new_write_own_buffer _ _ _ _ Hsecond). done.
Qed.

End WrittenTwice.

Lemma fuzz_message_written_twice_witness :
  new_write OwnBuffer None (Some [(-1, 2)]) [1; 0; 0; 1; 5]
    = (Ok [1; 0; 0; 1; 7], [1; 0; 0; 1; 7])
  ∧ new_write OwnBuffer None (Some [(-1, 2)]) [1; 0; 0; 1; 7]
    = (Ok [1; 0; 0; 1; 5], [1; 0; 0; 1; 5])
  ∧ new_write BuildsAfresh None (Some [(-1, 2)]) [1; 0; 0; 1; 5]
    = (Ok [1; 0; 0; 1; 7], [1; 0; 0; 1; 5]).
Proof.
  destruct (fuzz_message_written_twice OwnBuffer [1; 0; 0; 1; 5] None
              (Some [(-1, 2)])) as (fuzzed & again & Hf & _ & H1 & H2 & Hx & _).
  - repeat constructor; unfold is_byte; lia.
  - constructor.
  - repeat constructor; unfold in_range, is_byte; simpl; lia.
  - assert (fuzzed = [1; 0; 0; 1; 7]) as -> by (vm_compute in Hf; congruence).
    rewrite (Hx eq_refl) in H2. rewrite H1 in H2.
    split; [exact H1 |]. split; [exact H2 | reflexivity].
Defined.

(** ** Fragments of a split message *)

Section Fragments.

Implicit Types (data payload : list Z) (w : world).

(** The pieces appended by the loop, with their number. *)
Lemma split_loop_pieces content_type size :
  0 < size → ∀ passes data w,
  (length data ≤ passes)%nat →
  ∃ pieces,
    split_loop passes content_type data size w =
      (Ok tt,
       set_fragment_list (fragment_list w ++ map (Message content_type) pieces) w)
    ∧ concat pieces = data
    ∧ size * (Z.of_nat (length pieces) - 1) < Z.of_nat (length data)
        ≤ size * Z.of_nat (length pieces)
    ∧ (data ≠ [] → ∃ rest, pieces = take (Z.to_nat size) data :: rest).
Proof.
  intros Hs. induction passes as [| passes IH]; intros data w Hlen.
  - destruct data; [| simpl in Hlen; lia].
    exists []. simpl. rewrite app_nil_r, set_fragment_list_same.
    repeat split; try done; lia.
  - destruct data as [| b data'].
    { exists []. simpl. rewrite app_nil_r, set_fragment_list_same.
      repeat split; try done; lia. }
    set (data := b :: data') in *.
    destruct (IH (drop (Z.to_nat size) data)
                (set_fragment_list
                   (fragment_list w ++ [Message content_type (take (Z.to_nat size) data)])
                   w)) as (pieces & Hrun & Hcat & Hcount & _).
    { rewrite length_drop. subst data. simpl in *. lia. }
    exists (take (Z.to_nat size) data :: pieces).
    split; [| split; [| split]].
    + change (split_loop (S passes) content_type data size w) with
        ((modify (fun w => set_fragment_list
                    (fragment_list w ++ [Message content_type (Py.slice_to data size)]) w);;
          split_loop passes content_type (Py.slice_from data size) size) w).
      run_monad. rewrite slice_to_positive, slice_from_positive by done.
      rewrite Hrun. simpl. by rewrite <- app_assoc.
    + simpl. rewrite Hcat. apply take_drop.
    + rewrite length_drop in Hcount.
      change (length (take (Z.to_nat size) data :: pieces)) with (S (length pieces)).
      assert (0 < length data)%nat by (subst data; simpl; lia).
      assert (Hk : Z.of_nat (Z.to_nat size) = size) by lia.
      destruct (le_lt_dec (length data) (Z.to_nat size)) as [Hshort | Hlong].
      * replace (length data - Z.to_nat size)%nat with 0%nat in Hcount by lia.
        destruct (length pieces) as [| n'] eqn:Hn; [lia |].
        exfalso. rewrite Nat2Z.inj_succ in Hcount.
        assert (0 ≤ size * Z.of_nat n') by (apply Z.mul_nonneg_nonneg; lia).
        lia.
      * rewrite Nat2Z.inj_sub, Hk in Hcount by lia.
        rewrite Nat2Z.inj_succ. lia.
    + eauto.
Qed.

Lemma pop_all_pieces content_type pieces : ∀ w,
  fragment_list w = map (Message content_type) pieces →
  pop_all (length pieces) w =
    (Ok (map (Message content_type) pieces), set_fragment_list [] w).
Proof.
  induction pieces as [| p pieces IH]; intros w Hfl; simpl.
  - simpl in Hfl. run_monad. by rewrite <- Hfl, set_fragment_list_same.
  - run_monad. unfold PopMessageFromList.generate, pop0. rewrite Hfl. simpl.
    rewrite IH by done. done.
Qed.

(** X10.  After [split_message] has returned the first fragment of a
    non-empty payload, as many [PopMessageFromList] nodes as fragments are
    left generate them in order, each of the original content type; the
    first fragment followed by theirs is the payload, the number of
    fragments is the payload length divided by the size and rounded up,
    and one more [PopMessageFromList] raises [IndexError]. *)
Theorem split_then_pop (generator : MessageGenerator) (size : Z)
    (w w1 : world) (msg : message) (payload : list Z) :
  generate generator w = (Ok msg, w1) →
  write msg = Ok payload →
  payload ≠ [] →
  0 < size →
  fragment_list w1 = [] →
  ∃ rest : list (list Z),
    let content_type := contentType msg in
    let first := take (Z.to_nat size) payload in
    let w2 := set_fragment_list (map (Message content_type) rest) w1 in
    generate (split_message generator size) w = (Ok (Message content_type first), w2)
    ∧ pop_all (length rest) w2 =
        (Ok (map (Message content_type) rest), set_fragment_list [] w1)
    ∧ first ++ concat rest = payload
    ∧ div_ceil (Z.of_nat (length payload)) size = Ok (Z.of_nat (length rest) + 1)
    ∧ PopMessageFromList.generate (set_fragment_list [] w1)
        = (Raise IndexError, set_fragment_list [] w1).
Proof.
  intros Hgen Hwrite Hne Hs Hempty.
  destruct (split_loop_pieces (contentType msg) size Hs (length payload) payload w1)
    as (pieces & Hrun & Hcat & Hcount & Hhead); [done |].
  destruct (Hhead Hne) as [rest ->].
  exists rest. simpl. split; [| split; [| split; [| split]]].
  - unfold split_message. simpl. run_monad. rewrite Hgen, Hwrite. simpl.
    rewrite Hrun. unfold pop0. simpl. by rewrite Hempty.
  - by rewrite (pop_all_pieces (contentType msg) rest).
  - exact Hcat.
  - destruct (div_ceil_positive (Z.of_nat (length payload)) size Hs)
      as (q & -> & Hq). f_equal.
    simpl length in Hcount. nia.
  - reflexivity.
Qed.

Lemma slice_from_not_positive data size :
  size ≤ 0 → data ≠ [] → Py.slice_from data size ≠ [].
Proof.
  intros Hs Hne. unfold Py.slice_from, Py.clamp.
  assert (0 < length data)%nat by (destruct data; [done | simpl; lia]).
  intros Hnil. apply (f_equal length) in Hnil. rewrite length_drop in Hnil.
  simpl in Hnil. destruct (Z.ltb_spec size 0); lia.
Qed.

(** X11.  With a size of zero or less the loop of [split_message] never
    ends on a non-empty payload: every pass leaves data to split, so no
    number of passes returns, and [generate] does not return. *)
Theorem split_message_not_positive (generator : MessageGenerator) (size : Z)
    (w w1 : world) (msg : message) (payload : list Z) :
  generate generator w = (Ok msg, w1) →
  write msg = Ok payload →
  payload ≠ [] →
  size ≤ 0 →
  (∀ passes w', (split_loop passes (contentType msg) payload size w').1
                = Raise Diverges)
  ∧ (generate (split_message generator size) w).1 = Raise Diverges.
Proof.
  intros Hgen Hwrite Hne Hs.
  assert (Hloop : ∀ passes data w',
            data ≠ [] →
            (split_loop passes (contentType msg) data size w').1 = Raise Diverges).
  { induction passes as [| passes IH]; intros data w' Hd.
    - destruct data; done.
    - destruct data as [| b data']; [done |].
      change (split_loop (S passes) (contentType msg) (b :: data') size w') with
        ((modify (fun w => set_fragment_list
                    (fragment_list w ++
                       [Message (contentType msg) (Py.slice_to (b :: data') size)]) w);;
          split_loop passes (contentType msg) (Py.slice_from (b :: data') size) size) w').
      run_monad. apply IH. by apply slice_from_not_positive. }
  split; [intros; by apply Hloop |].
  unfold split_message. simpl. run_monad. rewrite Hgen, Hwrite. simpl.
  specialize (Hloop (length payload) payload w1 Hne).
  destruct (split_loop (length payload) (contentType msg) payload size w1)
    as [[[] | e] w2]; simpl in *; [discriminate | congruence].
Qed.

(** X12.  [split_message] returns the oldest element of the list, not
    necessarily a fragment of its own message: when the list already holds
    a message, that one is returned and all the fragments of the payload,
    none for an empty payload, are queued behind the others. *)
Theorem split_message_stale_fragment (generator : MessageGenerator) (size : Z)
    (w w1 : world) (msg old : message) (queued : list message)
    (payload : list Z) :
  generate generator w = (Ok msg, w1) →
  write msg = Ok payload →
  0 < size →
  fragment_list w1 = old :: queued →
  ∃ pieces : list (list Z),
    generate (split_message generator size) w =
      (Ok old,
       set_fragment_list (queued ++ map (Message (contentType msg)) pieces) w1)
    ∧ concat pieces = payload.
Proof.
  intros Hgen Hwrite Hs Hold.
  destruct (split_loop_pieces (contentType msg) size Hs (length payload) payload w1)
    as (pieces & Hrun & Hcat & _); [done |].
  exists pieces. split; [| done].
  unfold split_message. simpl. run_monad. rewrite Hgen, Hwrite. simpl.
  rewrite Hrun. unfold pop0. simpl. by rewrite Hold.
Qed.

(** X13.  [FlushMessageList] stops at the first fragment of another content
    type with an [AssertionError]; the fragments before it and the
    offending one are gone from the list, those after it stay. *)
Theorem flush_mixed_content_types (content_type other : Z)
    (first : list Z) (same : list (list Z)) (bad : message)
    (behind : list message) (w : world) :
  contentType bad ≠ content_type →
  fragment_list w =
    Message content_type first :: map (Message content_type) same ++ bad :: behind →
  FlushMessageList.generate w = (Raise AssertionError, set_fragment_list behind w).
Proof.
  intros Hbad Hfl. unfold FlushMessageList.generate. run_monad.
  unfold pop0. rewrite Hfl. simpl.
  rewrite length_app, length_map. simpl.
  generalize first. clear Hfl.
  induction same as [| p same IH]; intros data; simpl.
  - run_monad. unfold pop0. simpl. case_decide; [done |]. reflexivity.
  - run_monad. unfold pop0. simpl. case_decide; [| done]. simpl.
    specialize (IH (data ++ p)).
    destruct (FlushMessageList.flush_loop _ _ _ _) as [[? | ?] ?] eqn:Hloop;
      simpl in *; [discriminate |].
    injection IH as <- <-. done.
Qed.

End Fragments.

Lemma split_then_pop_witness :
  let node := split_message (RawMessageGenerator 22 [1; 2; 3; 4; 5]) 2 in
  let after := generate node world0 in
  after.1 = Ok (Message 22 [1; 2])
  ∧ (pop_all 2 after.2).1 = Ok [Message 22 [3; 4]; Message 22 [5]]
  ∧ div_ceil 5 2 = Ok 3.
Proof.
  intros node after.
  destruct (split_then_pop (RawMessageGenerator 22 [1; 2; 3; 4; 5]) 2
              world0 world0 (Message 22 [1; 2; 3; 4; 5]) [1; 2; 3; 4; 5])
    as (rest & Hsplit & Hpop & Hcat & Hcount & _);
    [reflexivity | reflexivity | discriminate | lia | reflexivity |].
  split; [unfold after, node; by rewrite Hsplit |].
  split; reflexivity.
Defined.

Lemma split_message_not_positive_witness :
  (generate (split_message (RawMessageGenerator 22 [1; 2; 3]) 0) world0).1
    = Raise Diverges
  ∧ (generate (split_message (RawMessageGenerator 22 [1; 2; 3]) (-2)) world0).1
    = Raise Diverges.
Proof.
  split.
  - apply (split_message_not_positive (RawMessageGenerator 22 [1; 2; 3]) 0
             world0 world0 (Message 22 [1; 2; 3]) [1; 2; 3]);
      [reflexivity | reflexivity | discriminate | lia].
  - apply (split_message_not_positive (RawMessageGenerator 22 [1; 2; 3]) (-2)
             world0 world0 (Message 22 [1; 2; 3]) [1; 2; 3]);
      [reflexivity | reflexivity | discriminate | lia].
Defined.

Lemma split_message_stale_fragment_witness :
  let w := set_fragment_list [Message 21 [2; 40]] world0 in
  let node := split_message (RawMessageGenerator 22 [1; 2; 3]) 2 in
  (generate node w).1 = Ok (Message 21 [2; 40])
  ∧ fragment_list (generate node w).2 = [Message 22 [1; 2]; Message 22 [3]].
Proof.
  intros w node.
  destruct (split_message_stale_fragment (RawMessageGenerator 22 [1; 2; 3]) 2
              w w (Message 22 [1; 2; 3]) (Message 21 [2; 40]) [] [1; 2; 3])
    as (pieces & Hrun & _); [reflexivity | reflexivity | lia | reflexivity |].
  split; [| reflexivity]. unfold node. by rewrite Hrun.
Defined.

Lemma flush_mixed_content_types_witness :
  let w := set_fragment_list
             [Message 22 [1]; Message 22 [2]; Message 23 [3]; Message 22 [4]]
             world0 in
  FlushMessageList.generate w
    = (Raise AssertionError, set_fragment_list [Message 22 [4]] world0).
Proof.
  intros w.
  apply (flush_mixed_content_types 22 23 [1] [[2]] (Message 23 [3])
           [Message 22 [4]] w); [discriminate | reflexivity].
Defined.

(** ** The padding of the encrypted premaster secret *)

Section KeyPadding.

Context {P : PublicKeyOps}.

(** X14.  [_encrypt_with_fuzzing] puts the padding method of the server's
    key back only when the encryption returns: then the key is exactly as
    it was; when the encryption raises (a padding offset outside the
    padding, for one) the exception leaves the key with the fuzzed
    method.  Without substitutions and xors the key is never changed. *)
Theorem encrypt_with_fuzzing_restores (self : ClientKeyExchangeGenerator.t)
    (public_key : RSAKey) :
  let fuzzed := fuzz_pkcs1_padding public_key
                  (ClientKeyExchangeGenerator.padding_subs self)
                  (ClientKeyExchangeGenerator.padding_xors self) in
  let premaster := ClientKeyExchangeGenerator.premaster_secret self in
  (∀ encrypted, encrypt fuzzed premaster = Ok encrypted →
     _encrypt_with_fuzzing self public_key = (Ok encrypted, public_key))
  ∧ (∀ e, encrypt fuzzed premaster = Raise e →
     _encrypt_with_fuzzing self public_key = (Raise e, fuzzed))
  ∧ (is_empty (ClientKeyExchangeGenerator.padding_xors self) = true →
     is_empty (ClientKeyExchangeGenerator.padding_subs self) = true →
     fuzzed = public_key).
Proof.
  simpl. split; [| split].
  - intros encrypted Henc. unfold _encrypt_with_fuzzing. run_monad.
    rewrite Henc. simpl. f_equal.
    destruct public_key. unfold fuzz_pkcs1_padding. simpl.
    by destruct (is_empty _ && is_empty _).
  - intros e Henc. unfold _encrypt_with_fuzzing. run_monad.
    by rewrite Henc.
  - intros Hx Hs. unfold fuzz_pkcs1_padding. by rewrite Hx, Hs.
Qed.

End KeyPadding.

Lemma encrypt_with_fuzzing_restores_witness :
  let cke subs :=
    {| ClientKeyExchangeGenerator.cipher := None;
       ClientKeyExchangeGenerator.version := None;
       ClientKeyExchangeGenerator.client_version := None;
       ClientKeyExchangeGenerator.premaster_secret := [3; 3; 9];
       ClientKeyExchangeGenerator.dh_Yc := None;
       ClientKeyExchangeGenerator.padding_subs := subs;
       ClientKeyExchangeGenerator.padding_xors := None;
       ClientKeyExchangeGenerator.ecdh_Yc := None;
       ClientKeyExchangeGenerator.encrypted_premaster := None;
       ClientKeyExchangeGenerator.modulus_as_encrypted_premaster := false;
       ClientKeyExchangeGenerator.p_as_share := false;
       ClientKeyExchangeGenerator.p_1_as_share := false |} in
  @_encrypt_with_fuzzing pad_only (cke (Some [(1, 1)])) key0
    = (Ok [0; 1; 0; 3; 3; 9], key0)
  ∧ (@_encrypt_with_fuzzing pad_only (cke (Some [(1, 1)])) key0).1
    = Ok [0; 1; 0; 3; 3; 9]
  ∧ (@_encrypt_with_fuzzing pad_only (cke (Some [(5, 1)])) key0).1
    = Raise IndexError
  ∧ _addPKCS1Padding (@_encrypt_with_fuzzing pad_only (cke (Some [(5, 1)])) key0).2
      [7] 2 = Raise IndexError.
Proof.
  intros cke.
  destruct (@encrypt_with_fuzzing_restores pad_only (cke (Some [(1, 1)])) key0)
    as (Hok & _ & _).
  destruct (@encrypt_with_fuzzing_restores pad_only (cke (Some [(5, 1)])) key0)
    as (_ & Hfail & _).
  split; [apply (Hok [0; 1; 0; 3; 3; 9]); reflexivity |].
  split; [by rewrite (Hok [0; 1; 0; 3; 3; 9] eq_refl) |].
  rewrite (Hfail IndexError eq_refl). split; reflexivity.
Defined.

(** X15.  For a value no longer than the modulus ([len(bytes)] at most
    [numBytes(n)]) the offsets given to [fuzz_pkcs1_padding] are confined to
    the padding: when the fuzzed padding method returns, its result is as
    long as that of the method it replaces, the bytes behind the first
    [numBytes(n) - len(bytes)] (the value to encrypt) are the same, and
    every offset lies within those bytes of padding. *)
Theorem fuzz_pkcs1_padding_confined (key : RSAKey)
    (substitutions xors : option mutation) (bytes : list Z) (blockType : Z)
    (ret out : list Z) :
  is_empty xors && is_empty substitutions = false →
  _addPKCS1Padding key bytes blockType = Ok ret →
  let pad_length := numBytes (n key) - Z.of_nat (length bytes) in
  0 ≤ pad_length →
  _addPKCS1Padding (fuzz_pkcs1_padding key substitutions xors) bytes blockType
    = Ok out →
  length out = length ret
  ∧ drop (Z.to_nat pad_length) out = drop (Z.to_nat pad_length) ret
  ∧ Forall (fun e => in_range (Z.to_nat pad_length) e.1) (default [] substitutions)
  ∧ Forall (fun e => in_range (Z.to_nat pad_length) e.1) (default [] xors).
Proof.
  intros Hspec Hret pad_length Hpad. unfold fuzz_pkcs1_padding.
  rewrite Hspec. simpl. rewrite Hret. simpl. fold pad_length.
  set (cut := (Z.to_nat pad_length `min` length ret)%nat).
  assert (Hto : Py.slice_to ret pad_length = take cut ret).
  { unfold Py.slice_to, Py.clamp.
    replace (pad_length <? 0) with false by (symmetry; apply Z.ltb_ge; lia).
    f_equal. unfold cut. lia. }
  assert (Hfrom : Py.slice_from ret pad_length = drop cut ret).
  { unfold Py.slice_from, Py.clamp.
    replace (pad_length <? 0) with false by (symmetry; apply Z.ltb_ge; lia).
    f_equal. unfold cut. lia. }
  rewrite Hto, Hfrom.
  destruct (substitute_and_xor (take cut ret) substitutions xors)
    as [pad |] eqn:Hfuzz; simpl; [| discriminate].
  intros [= <-].
  apply substitute_and_xor_ok in Hfuzz as (Hlen & Hsubs & Hxors).
  assert (Hcut : length (take cut ret) = cut).
  { rewrite length_take. unfold cut. lia. }
  rewrite Hcut in Hlen, Hsubs, Hxors.
  assert (Hwithin : ∀ k, in_range cut k → in_range (Z.to_nat pad_length) k).
  { unfold in_range, cut. intros k. lia. }
  split; [| split; [| split]].
  - rewrite length_app, length_drop. unfold cut in *. lia.
  - destruct (le_lt_dec (Z.to_nat pad_length) (length ret)) as [Hle | Hgt].
    + assert (cut = Z.to_nat pad_length) as Hc by (unfold cut; lia).
      rewrite Hc in *. rewrite <- Hlen. by rewrite drop_app_length.
    + rewrite !drop_ge; [done | lia |].
      rewrite length_app, length_drop. unfold cut in *. lia.
  - eapply Forall_impl; [exact Hsubs |]. intros ? [? _]. by apply Hwithin.
  - eapply Forall_impl; [exact Hxors |]. intros ?. by apply Hwithin.
Qed.

Lemma fuzz_pkcs1_padding_confined_witness :
  _addPKCS1Padding (fuzz_pkcs1_padding key0 None (Some [(-1, 255)])) [7] 2
    = Ok [0; 2; 255; 255; 255; 7]
  ∧ drop 5 [0; 2; 255; 255; 255; 7] = drop 5 [0; 2; 255; 255; 0; 7].
Proof.
  split; [reflexivity |].
  exact (proj1 (proj2 (fuzz_pkcs1_padding_confined key0 None (Some [(-1, 255)])
                         [7] 2 [0; 2; 255; 255; 0; 7] [0; 2; 255; 255; 255; 7]
                         eq_refl eq_refl ltac:(vm_compute; discriminate)
                         eq_refl))).
Defined.

(** The condition is needed: for a value longer than the modulus
    [pad_length] is negative, [ret[:pad_length]] takes in bytes of the
    value, and the offset -1 changes one of them. *)
Example fuzz_pkcs1_padding_long_value :
  numBytes (n key0) - Z.of_nat (length [7; 7; 7; 7; 7; 7; 7]) = -1
  ∧ _addPKCS1Padding key0 [7; 7; 7; 7; 7; 7; 7] 2
    = Ok [0; 2; 0; 7; 7; 7; 7; 7; 7; 7]
  ∧ _addPKCS1Padding (fuzz_pkcs1_padding key0 None (Some [(-1, 6)]))
      [7; 7; 7; 7; 7; 7; 7] 2
    = Ok [0; 2; 0; 7; 7; 7; 7; 7; 1; 7].
Proof. vm_compute. done. Qed.

(** ** More commands *)

Lemma connection_state_ext (a b : ConnectionState) :
  msg_sock a = msg_sock b → version a = version b → cipher a = cipher b →
  client_random a = client_random b → server_random a = server_random b →
  session_id a = session_id b → key a = key b →
  handshake_hashes a = handshake_hashes b →
  certificate_verify_handshake_hashes a = certificate_verify_handshake_hashes b →
  handshake_messages a = handshake_messages b →
  resuming a = resuming b →
  extended_master_secret a = extended_master_secret b →
  encrypt_then_mac a = encrypt_then_mac b → prf_name a = prf_name b →
  _our_record_size_limit a = _our_record_size_limit b →
  _peer_record_size_limit a = _peer_record_size_limit b →
  a = b.
Proof. destruct a, b. simpl. intros. by subst. Qed.

(** X16.  [ResetRenegotiationInfo.process] always returns; it stores the
    verify data given to the constructor, empty when none was given, under
    "client_verify_data" and "server_verify_data" and changes no other
    entry; running it a second time changes nothing more, and it commutes
    with [ResetHandshakeHashes.process]: the two resets of a renegotiation
    give the same state in either order. *)
Theorem reset_renegotiation_info_process (self : ResetRenegotiationInfo.t)
    (st : ConnectionState) :
  let client := default [] (ResetRenegotiationInfo.client_verify_data self) in
  let server := default [] (ResetRenegotiationInfo.server_verify_data self) in
  let after := ResetRenegotiationInfo.process (self, st) in
  after.1 = Ok tt
  ∧ key after.2.2 !! "client_verify_data" = Some client
  ∧ key after.2.2 !! "server_verify_data" = Some server
  ∧ (∀ name, name ≠ "client_verify_data" → name ≠ "server_verify_data" →
       key after.2.2 !! name = key st !! name)
  ∧ ResetRenegotiationInfo.process after.2 = (Ok tt, after.2)
  ∧ (ResetHandshakeHashes.process after.2.2).2 =
      (ResetRenegotiationInfo.process
         (self, (ResetHandshakeHashes.process st).2)).2.2.
Proof.
  simpl. unfold ResetRenegotiationInfo.process. run_monad.
  split; [done |]. split.
  { rewrite lookup_insert_ne by done. by rewrite lookup_insert_eq;
      destruct (ResetRenegotiationInfo.client_verify_data self). }
  split.
  { rewrite lookup_insert_eq.
    by destruct (ResetRenegotiationInfo.server_verify_data self). }
  split.
  { intros name H1 H2. by rewrite !lookup_insert_ne. }
  split.
  - f_equal. f_equal. destruct st. unfold set_key. simpl. f_equal.
    apply map_eq. intros name. rewrite !lookup_insert.
    repeat case_decide; done.
  - apply connection_state_ext; try reflexivity.
    cbn [key set_key set_handshake_hashes set__our_record_size_limit
         set__peer_record_size_limit].
    apply map_eq. intros name.
    rewrite ?lookup_insert, ?lookup_delete, ?lookup_insert, ?lookup_delete.
    repeat case_decide; subst; try done.
Qed.

Lemma reset_renegotiation_info_process_witness :
  let self := ResetRenegotiationInfo.__init__ (Some [1; 2]) None in
  let st := set_key (<["client_verify_data" := [9]]> (key state0)) state0 in
  let after := ResetRenegotiationInfo.process (self, st) in
  key after.2.2 !! "client_verify_data" = Some [1; 2]
  ∧ key after.2.2 !! "server_verify_data" = Some []
  ∧ key after.2.2 !! "premaster_secret" = Some [3; 3; 9].
Proof.
  intros self st after.
  destruct (reset_renegotiation_info_process self st)
    as (_ & Hc & Hs & Hother & _).
  split; [exact Hc |]. split; [exact Hs |].
  unfold after. by rewrite Hother.
Defined.

(** ** Collected nonces *)

Section Nonces.

Implicit Types (records : list (list Z * list Z * list Z)).

Lemma plain_seal_all f records : ∀ nonces nonces',
  (CollectNonces.seal_all (CollectNonces.plain_seal f) records nonces).1 =
  (CollectNonces.seal_all (CollectNonces.plain_seal f) records nonces').1
  ∧ (CollectNonces.seal_all (CollectNonces.plain_seal f) records nonces).2 = nonces.
Proof.
  induction records as [| [[nonce buf] authData] records IH]; intros nonces nonces';
    simpl; [done |].
  unfold CollectNonces.plain_seal at 1 3 5. run_monad.
  destruct (f nonce buf authData) as [s |]; simpl; [| done].
  destruct (IH nonces nonces') as [Hres Hst].
  destruct (CollectNonces.seal_all _ records nonces) as [[more |] st],
    (CollectNonces.seal_all _ records nonces') as [[more' |] st'];
    simpl in *; try done; by inversion Hres.
Qed.

Lemma collector_all f records : ∀ nonces sealed,
  (CollectNonces.seal_all (CollectNonces.plain_seal f) records nonces).1 = Ok sealed →
  CollectNonces.seal_all (CollectNonces.collector (CollectNonces.plain_seal f))
    records nonces = (Ok sealed, nonces ++ map (fun r => r.1.1) records)
  ∧ CollectNonces.seal_all
      (CollectNonces.collector (CollectNonces.collector (CollectNonces.plain_seal f)))
      records nonces
    = (Ok sealed, nonces ++ concat (map (fun r => [r.1.1; r.1.1]) records)).
Proof.
  induction records as [| [[nonce buf] authData] records IH]; intros nonces sealed.
  - simpl. run_monad. intros [= <-]. by rewrite !app_nil_r.
  - intros Hplain.
    assert (∃ s more, f nonce buf authData = Ok s
              ∧ (CollectNonces.seal_all (CollectNonces.plain_seal f) records nonces).1
                = Ok more
              ∧ sealed = s :: more) as (s & more & Hs & Hmore & ->).
    { simpl in Hplain. unfold CollectNonces.plain_seal at 1 in Hplain.
      revert Hplain. run_monad.
      destruct (f nonce buf authData) as [s |]; simpl; [| discriminate].
      destruct (CollectNonces.seal_all _ records nonces) as [[more |] st];
        simpl; [| discriminate].
      intros [= <-]. eauto. }
    assert (Hfrom : ∀ start,
              (CollectNonces.seal_all (CollectNonces.plain_seal f) records start).1
              = Ok more).
    { intros start. by rewrite (proj1 (plain_seal_all f records start nonces)). }
    destruct (IH (nonces ++ [nonce]) more (Hfrom _)) as [IH1 _].
    destruct (IH ((nonces ++ [nonce]) ++ [nonce]) more (Hfrom _)) as [_ IH2].
    split.
    + change (CollectNonces.seal_all ?seal (?r :: ?rs) ?st)
        with ((sealed ← seal r.1.1 r.1.2 r.2;
               more ← CollectNonces.seal_all seal rs;
               mret (sealed :: more)) st).
      cbn [fst snd].
      remember (CollectNonces.seal_all
                  (CollectNonces.collector (CollectNonces.plain_seal f)) records)
        as rest eqn:Hrest.
      unfold CollectNonces.collector, CollectNonces.plain_seal.
      run_monad. rewrite Hs. simpl. rewrite IH1. simpl.
      by rewrite <- app_assoc.
    + change (CollectNonces.seal_all ?seal (?r :: ?rs) ?st)
        with ((sealed ← seal r.1.1 r.1.2 r.2;
               more ← CollectNonces.seal_all seal rs;
               mret (sealed :: more)) st).
      cbn [fst snd].
      remember (CollectNonces.seal_all
                  (CollectNonces.collector
                     (CollectNonces.collector (CollectNonces.plain_seal f)))
                  records) as rest eqn:Hrest.
      unfold CollectNonces.collector, CollectNonces.plain_seal.
      run_monad. rewrite Hs. simpl. rewrite IH2. simpl.
      by rewrite <- !app_assoc.
Qed.

(** X17.  The seal method installed by [CollectNonces] hands every call on
    to the method it replaces and gives its result back; it appends the
    nonce to the list before the call, so also when sealing fails.  Over a
    run of successful calls the list grows by their nonces in order, once
    each; installed twice on one connection it records every nonce twice.
    Before a cipher is in use there is no method to replace and [process]
    raises [AttributeError]. *)
Theorem collect_nonces_records f records :
  CollectNonces.process None = Raise AttributeError
  ∧ (∀ nonce buf authData nonces,
       CollectNonces.collector (CollectNonces.plain_seal f) nonce buf authData nonces
       = (f nonce buf authData, nonces ++ [nonce]))
  ∧ (∀ nonces sealed,
       (CollectNonces.seal_all (CollectNonces.plain_seal f) records nonces).1
         = Ok sealed →
       ∃ once twice,
         CollectNonces.process (Some (CollectNonces.plain_seal f)) = Ok (Some once)
         ∧ CollectNonces.process (Some once) = Ok (Some twice)
         ∧ CollectNonces.seal_all once records nonces
           = (Ok sealed, nonces ++ map (fun r => r.1.1) records)
         ∧ CollectNonces.seal_all twice records nonces
           = (Ok sealed, nonces ++ concat (map (fun r => [r.1.1; r.1.1]) records))).
Proof.
  split; [done |]. split.
  - intros. unfold CollectNonces.collector, CollectNonces.plain_seal. run_monad.
    by destruct (f nonce buf authData).
  - intros nonces sealed Hplain.
    destruct (collector_all f records nonces sealed Hplain) as [H1 H2].
    do 2 eexists. split; [reflexivity |]. split; [reflexivity |]. done.
Qed.

End Nonces.

Lemma collect_nonces_records_witness :
  let seal := fun nonce buf authData : list Z => Ok (nonce ++ buf ++ authData) in
  ∃ once,
    CollectNonces.process (Some (CollectNonces.plain_seal seal)) = Ok (Some once)
    ∧ CollectNonces.seal_all once [([1], [10], [0]); ([2], [20], [0])] [[0]]
      = (Ok [[1; 10; 0]; [2; 20; 0]], [[0]; [1]; [2]]).
Proof.
  intros seal.
  destruct (collect_nonces_records seal [([1], [10], [0]); ([2], [20], [0])])
    as (_ & _ & Hall).
  destruct (Hall [[0]] [[1; 10; 0]; [2; 20; 0]] eq_refl)
    as (once & twice & Honce & _ & Hrun & _).
  exists once. split; [exact Honce | exact Hrun].
Defined.

(** ** Padded and truncated handshake messages *)

Section Framing.

Context {W : Writer}.

Lemma bytearray_ok ints out : bytearray ints = Ok out → out = ints.
Proof. unfold bytearray. destruct (forallb _ ints); by intros [= <-]. Qed.

(** X18.  Whatever [pad_handshake] adds or removes, the header it writes
    announces the body that follows: when [post_write] returns, its result
    is the type in one byte, the length of the rest in three bytes, and the
    rest, which is the body followed by [pad], or by [size] bytes
    [pad_byte], or the body without its last [-size] bytes. *)
Theorem post_write_frames (handshake_type size pad_byte : Z)
    (pad : option (list Z)) (body out : list Z) :
  (pad = None → - Z.of_nat (length body) ≤ size) →
  post_write handshake_type size pad_byte pad body = Ok out →
  ∃ type_bytes length_bytes rest,
    add handshake_type 1 = Ok type_bytes
    ∧ add (Z.of_nat (length rest)) 3 = Ok length_bytes
    ∧ out = type_bytes ++ length_bytes ++ rest
    ∧ rest = match pad with
             | Some pad => body ++ pad
             | None =>
                 if size <? 0
                 then take (length body - Z.to_nat (- size)) body
                 else body ++ replicate (Z.to_nat size) pad_byte
             end.
Proof.
  intros Hsize. unfold post_write.
  destruct (add handshake_type 1) as [type_bytes |]; simpl; [| discriminate].
  destruct pad as [pad |].
  - destruct (add _ 3) as [length_bytes |] eqn:Hlen; simpl; [| discriminate].
    intros [= <-]. exists type_bytes, length_bytes, (body ++ pad).
    rewrite length_app, Nat2Z.inj_add, <- app_assoc. done.
  - specialize (Hsize eq_refl).
    destruct (add _ 3) as [length_bytes |] eqn:Hlen; simpl; [| discriminate].
    destruct (Z.ltb_spec size 0).
    + intros [= <-].
      assert (Hslice : Py.slice_to body size
                       = take (length body - Z.to_nat (- size)) body).
      { unfold Py.slice_to, Py.clamp.
        replace (size <? 0) with true by (symmetry; apply Z.ltb_lt; lia).
        f_equal. lia. }
      rewrite Hslice.
      exists type_bytes, length_bytes, (take (length body - Z.to_nat (- size)) body).
      rewrite length_take, <- app_assoc.
      replace (Z.of_nat ((length body - Z.to_nat (- size)) `min` length body))
        with (Z.of_nat (length body) + size) by lia.
      done.
    + destruct (bytearray _) as [padding |] eqn:Hpad; simpl; [| discriminate].
      apply bytearray_ok in Hpad as ->. intros [= <-].
      exists type_bytes, length_bytes, (body ++ replicate (Z.to_nat size) pad_byte).
      rewrite length_app, length_replicate, Nat2Z.inj_add, <- app_assoc.
      replace (Z.of_nat (Z.to_nat size)) with size by lia. done.
Qed.

(** X19.  [pad_handshake] replaces the [postWrite] of the message without
    calling the one in place: applied twice, only the outer padding or
    truncation takes effect, and [truncate_handshake] is [pad_handshake]
    with the size negated. *)
Theorem pad_handshake_outer_wins (generator : M world HandshakeMsg)
    (size size' pad_byte pad_byte' : Z) (pad pad' : option (list Z)) (w : world) :
  pad_handshake (pad_handshake generator size pad_byte pad) size' pad_byte' pad' w
    = pad_handshake generator size' pad_byte' pad' w
  ∧ truncate_handshake (pad_handshake generator size pad_byte pad) size' pad_byte' w
    = pad_handshake generator (- size') pad_byte' None w.
Proof.
  unfold truncate_handshake, pad_handshake. run_monad.
  by destruct (generator w) as [[msg | e] w1].
Qed.

End Framing.

Lemma post_write_frames_witness :
  @post_write big_endian_writer 1 2 0 None [5; 6; 7] = Ok [1; 0; 0; 5; 5; 6; 7; 0; 0]
  ∧ @post_write big_endian_writer 1 (-2) 0 None [5; 6; 7] = Ok [1; 0; 0; 1; 5]
  ∧ ∃ rest, [1; 0; 0; 1; 5] = [1] ++ [0; 0; 1] ++ rest ∧ rest = [5].
Proof.
  split; [reflexivity |]. split; [reflexivity |].
  destruct (@post_write_frames big_endian_writer 1 (-2) 0 None [5; 6; 7]
              [1; 0; 0; 1; 5]) as (tb & lb & rest & Ht & Hl & Hout & Hrest);
    [intros _; simpl; lia | reflexivity |].
  assert (tb = [1]) as -> by (vm_compute in Ht; congruence).
  assert (rest = [5]) as -> by (rewrite Hrest; reflexivity).
  assert (lb = [0; 0; 1]) as -> by (vm_compute in Hl; congruence).
  exists [5]. split; [exact Hout | reflexivity].
Defined.

(** ** Extensions of the Client Hello *)

Section Extensions.

Import ClientHelloGenerator.

Lemma generate_extensions_from (state : ConnectionState) entries : ∀ acc exts,
  for_each (fun extensions ext_id value =>
    match value with
    | Callable handler =>
        ext ← handler state;
        Ok (extensions ++ [ext])
    | Object ext => Ok (extensions ++ [ext])
    | AutoEmpty => Ok (extensions ++ [TLSExtension ext_id []])
    | Other => Raise ValueError
    | IsNone =>
        if decide (ext_id = renegotiation_info) then
          client_verify_data ← key_lookup "client_verify_data" state;
          Ok (extensions ++ [RenegotiationInfoExtension client_verify_data])
        else Raise ValueError
    end) entries acc = Ok exts →
  ∃ new, exts = acc ++ new ∧ Forall2 (generated state) entries new.
Proof.
  remember (fun (extensions : list extension) (ext_id : Z)
                (value : extension_value) => _) as body eqn:Hbody.
  induction entries as [| [ext_id value] entries IH]; intros acc exts; simpl.
  - intros [= <-]. exists []. by rewrite app_nil_r.
  - destruct (body acc ext_id value) as [acc' |] eqn:Hstep; [| discriminate].
    intros Hrun. apply IH in Hrun as (new & -> & Hall).
    assert (∃ ext, acc' = acc ++ [ext] ∧ generated state (ext_id, value) ext)
      as (ext & -> & Hgen).
    { rewrite Hbody in Hstep. unfold generated. cbn [fst snd].
      destruct value as [| handler | given | |]; simpl in Hstep.
      - case_decide as Hid; [| discriminate]. unfold key_lookup in Hstep.
        destruct (key state !! "client_verify_data") as [data |] eqn:Hkey;
          simpl in Hstep; [| discriminate].
        injection Hstep as <-. eauto 6.
      - destruct (handler state) as [ext |] eqn:Hh; simpl in Hstep;
          [| discriminate].
        injection Hstep as <-. eauto.
      - injection Hstep as <-. eauto.
      - injection Hstep as <-. eauto.
      - discriminate. }
    exists (ext :: new). rewrite <- app_assoc. split; [done |].
    by constructor.
Qed.

(** X20.  When [_generate_extensions] returns, it has made one extension
    for every entry of the dictionary, in the order of the dictionary: the
    result of a handler, the object given, an empty extension of the
    entry's type for [AutoEmptyExtension()], and for [None] under
    [renegotiation_info] the extension carrying
    [state.key['client_verify_data']].  It never returns when an entry is
    [None] under another type or is of another kind. *)
Theorem generate_extensions_returns (entries : list (Z * extension_value))
    (state : ConnectionState) (exts : list extension) :
  _generate_extensions entries state = Ok exts →
  Forall2 (generated state) entries exts
  ∧ length exts = length entries
  ∧ Forall (fun entry =>
      match entry.2 with
      | Other => False
      | IsNone => entry.1 = renegotiation_info
      | _ => True
      end) entries.
Proof.
  intros Hrun. apply generate_extensions_from in Hrun as (new & -> & Hall).
  simpl. split; [done |]. split; [symmetry; by eapply Forall2_length |].
  clear -Hall. induction Hall as [| [ext_id value] ext entries exts Hgen Hall IH];
    constructor; [| done].
  unfold generated in Hgen. simpl in *. destruct value; try done. tauto.
Qed.

(** X21.  After [ResetRenegotiationInfo.process], an automatic
    [renegotiation_info] entry of the next Client Hello carries the client
    verify data given to the reset, empty when none was given: the
    extension of an initial handshake. *)
Theorem renegotiation_info_after_reset (self : ResetRenegotiationInfo.t)
    (st : ConnectionState) :
  let after := (ResetRenegotiationInfo.process (self, st)).2.2 in
  _generate_extensions [(renegotiation_info, IsNone)] after =
    Ok [RenegotiationInfoExtension
          (default [] (ResetRenegotiationInfo.client_verify_data self))].
Proof.
  simpl. unfold _generate_extensions, ResetRenegotiationInfo.process. run_monad.
  unfold key_lookup. cbn [key set_key].
  rewrite lookup_insert_ne by done. rewrite lookup_insert_eq. simpl.
  by destruct (ResetRenegotiationInfo.client_verify_data self).
Qed.

End Extensions.

Lemma generate_extensions_returns_witness :
  let entries :=
    [(10, ClientHelloGenerator.Object (ClientHelloGenerator.TLSExtension 10 [0; 23]));
     (ClientHelloGenerator.renegotiation_info, ClientHelloGenerator.IsNone);
     (22, ClientHelloGenerator.AutoEmpty)] in
  let st := set_key (<["client_verify_data" := [7; 7]]> (key state0)) state0 in
  ClientHelloGenerator._generate_extensions entries st =
    Ok [ClientHelloGenerator.TLSExtension 10 [0; 23];
        ClientHelloGenerator.RenegotiationInfoExtension [7; 7];
        ClientHelloGenerator.TLSExtension 22 []]
  ∧ ClientHelloGenerator._generate_extensions
      (entries ++ [(23, ClientHelloGenerator.IsNone)]) st = Raise ValueError
  ∧ ClientHelloGenerator._generate_extensions entries state0 = Raise KeyError.
Proof.
  intros entries st.
  destruct (generate_extensions_returns entries st
              [ClientHelloGenerator.TLSExtension 10 [0; 23];
               ClientHelloGenerator.RenegotiationInfoExtension [7; 7];
               ClientHelloGenerator.TLSExtension 22 []] eq_refl) as (_ & _ & _).
  split; [reflexivity |]. split; reflexivity.
Defined.

(** ** The signature algorithm of the Certificate Verify *)

Section SignatureAlgorithm.

Import CertificateVerifyGenerator.

Lemma select_sig_alg_rsa_pss sig_version s rest :
  _select_sig_alg "rsa-pss" sig_version (s :: rest) =
    if bool_decide (s ∈ rsa_pss_pss) then Ok (Some s)
    else _select_sig_alg "rsa-pss" sig_version rest.
Proof. reflexivity. Qed.

Lemma select_sig_alg_rsa sig_version s rest :
  _select_sig_alg "rsa" sig_version (s :: rest) =
    if bool_decide (s ∈ rsa_pss_rsae) then Ok (Some s)
    else if tuple_lt sig_version (3, 4) && bool_decide (s ∈ rsa_pkcs1)
    then Ok (Some s)
    else _select_sig_alg "rsa" sig_version rest.
Proof. reflexivity. Qed.

Lemma select_sig_alg_other key_type sig_version s rest :
  key_type ≠ "rsa-pss" → key_type ≠ "rsa" →
  _select_sig_alg key_type sig_version (s :: rest) = Raise AssertionError.
Proof. intros H1 H2. simpl. by rewrite !decide_False. Qed.

Lemma not_acceptable_rsa_pss sig_version s :
  s ∉ rsa_pss_pss → ¬ acceptable "rsa-pss" sig_version s.
Proof. intros Hout [[_ ?] | [? _]]; done. Qed.

Lemma not_acceptable_rsa sig_version s :
  s ∉ rsa_pss_rsae →
  (tuple_lt sig_version (3, 4) && bool_decide (s ∈ rsa_pkcs1)) = false →
  ¬ acceptable "rsa" sig_version s.
Proof.
  intros Hout Hpkcs [[? _] | [_ [? | [Hlt Hin]]]]; [done | done |].
  rewrite Hlt in Hpkcs. simpl in Hpkcs.
  by apply bool_decide_eq_false in Hpkcs.
Qed.

Lemma select_sig_alg_some key_type sig_version supported sig :
  _select_sig_alg key_type sig_version supported = Ok (Some sig) →
  acceptable key_type sig_version sig
  ∧ ∃ before behind,
      supported = before ++ sig :: behind
      ∧ Forall (fun s => ¬ acceptable key_type sig_version s) before.
Proof.
  induction supported as [| s rest IH]; [discriminate |].
  destruct (decide (key_type = "rsa-pss")) as [-> | Hpss];
    [| destruct (decide (key_type = "rsa")) as [-> | Hrsa]].
  - rewrite select_sig_alg_rsa_pss.
    destruct (bool_decide (s ∈ rsa_pss_pss)) eqn:Hin.
    + apply bool_decide_eq_true in Hin. intros [= <-].
      split; [left; done |]. exists [], rest. by split.
    + apply bool_decide_eq_false in Hin. intros Hrun.
      destruct (IH Hrun) as (Hacc & before & behind & -> & Hall).
      split; [done |]. exists (s :: before), behind. split; [done |].
      constructor; [| done]. by apply not_acceptable_rsa_pss.
  - rewrite select_sig_alg_rsa.
    destruct (bool_decide (s ∈ rsa_pss_rsae)) eqn:Hin.
    + apply bool_decide_eq_true in Hin. intros [= <-].
      split; [right; split; [done | by left] |]. exists [], rest. by split.
    + apply bool_decide_eq_false in Hin.
      destruct (tuple_lt sig_version (3, 4) && bool_decide (s ∈ rsa_pkcs1))
        eqn:Hpkcs.
      * apply andb_true_iff in Hpkcs as [Hlt Hp].
        apply bool_decide_eq_true in Hp. intros [= <-].
        split; [right; split; [done | by right] |]. exists [], rest. by split.
      * intros Hrun.
        destruct (IH Hrun) as (Hacc & before & behind & -> & Hall).
        split; [done |]. exists (s :: before), behind. split; [done |].
        constructor; [| done]. by apply not_acceptable_rsa.
  - by rewrite select_sig_alg_other.
Qed.

Lemma select_sig_alg_none key_type sig_version supported :
  _select_sig_alg key_type sig_version supported = Ok None →
  Forall (fun s => ¬ acceptable key_type sig_version s) supported.
Proof.
  induction supported as [| s rest IH]; [constructor |].
  destruct (decide (key_type = "rsa-pss")) as [-> | Hpss];
    [| destruct (decide (key_type = "rsa")) as [-> | Hrsa]].
  - rewrite select_sig_alg_rsa_pss.
    destruct (bool_decide (s ∈ rsa_pss_pss)) eqn:Hin; [discriminate |].
    apply bool_decide_eq_false in Hin. intros Hrun.
    constructor; [by apply not_acceptable_rsa_pss | by apply IH].
  - rewrite select_sig_alg_rsa.
    destruct (bool_decide (s ∈ rsa_pss_rsae)) eqn:Hin; [discriminate |].
    apply bool_decide_eq_false in Hin.
    destruct (tuple_lt sig_version (3, 4) && bool_decide (s ∈ rsa_pkcs1))
      eqn:Hpkcs; [discriminate |].
    intros Hrun. constructor; [by apply not_acceptable_rsa | by apply IH].
  - by rewrite select_sig_alg_other.
Qed.

Lemma select_sig_alg_returns key_type sig_version supported :
  key_type = "rsa-pss" ∨ key_type = "rsa" →
  ∃ chosen, _select_sig_alg key_type sig_version supported = Ok chosen.
Proof.
  intros Hkey. induction supported as [| s rest [chosen IH]]; [by exists None |].
  destruct Hkey as [-> | ->].
  - rewrite select_sig_alg_rsa_pss.
    destruct (bool_decide (s ∈ rsa_pss_pss)); eauto.
  - rewrite select_sig_alg_rsa.
    destruct (bool_decide (s ∈ rsa_pss_rsae)); [eauto |].
    destruct (tuple_lt sig_version (3, 4) && bool_decide (s ∈ rsa_pkcs1)); eauto.
Qed.

(** X22.  For an "rsa-pss" or an "rsa" key [_select_sig_alg] always
    returns, and what it returns is the first algorithm of the server's
    list that the key can sign with: for an "rsa-pss" key an [rsa_pss_pss]
    scheme, for an "rsa" key an [rsa_pss_rsae] scheme or, below TLS 1.3
    only, a PKCS#1 v1.5 one; it returns [None] exactly when the list has no
    such algorithm.  A key of another type is an [AssertionError] as soon
    as the list is not empty. *)
Theorem select_sig_alg_first_acceptable (key_type : string)
    (sig_version : Z * Z) (supported : list (Z * Z)) :
  (key_type = "rsa-pss" ∨ key_type = "rsa" →
     ∃ chosen,
       _select_sig_alg key_type sig_version supported = Ok chosen
       ∧ match chosen with
         | Some sig =>
             acceptable key_type sig_version sig
             ∧ ∃ before behind,
                 supported = before ++ sig :: behind
                 ∧ Forall (fun s => ¬ acceptable key_type sig_version s) before
         | None => Forall (fun s => ¬ acceptable key_type sig_version s) supported
         end)
  ∧ (∀ sig, _select_sig_alg key_type sig_version supported = Ok (Some sig) →
       acceptable key_type sig_version sig
       ∧ ∃ before behind,
           supported = before ++ sig :: behind
           ∧ Forall (fun s => ¬ acceptable key_type sig_version s) before)
  ∧ (_select_sig_alg key_type sig_version supported = Ok None →
     Forall (fun s => ¬ acceptable key_type sig_version s) supported)
  ∧ (key_type ≠ "rsa-pss" → key_type ≠ "rsa" →
     _select_sig_alg key_type sig_version supported =
       match supported with
       | [] => Ok None
       | _ :: _ => Raise AssertionError
       end)
  ∧ (Py.tuple_ge sig_version (3, 4) = true →
     ∀ sig, _select_sig_alg key_type sig_version supported = Ok (Some sig) →
       sig ∉ rsa_pkcs1).
Proof.
  split; [| split; [intros sig; apply select_sig_alg_some |]].
  { intros Hkey.
    destruct (select_sig_alg_returns key_type sig_version supported Hkey)
      as [chosen Hrun].
    exists chosen. split; [done |]. destruct chosen as [sig |].
    - by apply select_sig_alg_some.
    - by apply select_sig_alg_none. }
  split; [apply select_sig_alg_none |]. split.
  - intros H1 H2. destruct supported as [| s rest]; [done |].
    by apply select_sig_alg_other.
  - intros Hge sig Hsig.
    destruct (select_sig_alg_some _ _ _ _ Hsig) as [Hacc _].
    assert (Hlt : tuple_lt sig_version (3, 4) = false).
    { unfold tuple_lt. unfold Py.tuple_ge in Hge. by rewrite Hge. }
    destruct Hacc as [[_ Hin] | [_ [Hin | [Hcontra _]]]]; [| | congruence].
    + intros Hp. revert Hin Hp. unfold rsa_pss_pss, rsa_pkcs1.
      rewrite !elem_of_cons, !elem_of_nil. intros Hin Hp.
      destruct Hin as [-> | [-> | [-> | []]]];
        destruct Hp as [? | [? | [? | [? | [? | [? | []]]]]]]; discriminate.
    + intros Hp. revert Hin Hp. unfold rsa_pss_rsae, rsa_pkcs1.
      rewrite !elem_of_cons, !elem_of_nil. intros Hin Hp.
      destruct Hin as [-> | [-> | [-> | []]]];
        destruct Hp as [? | [? | [? | [? | [? | [? | []]]]]]]; discriminate.
Qed.

End SignatureAlgorithm.

Lemma select_sig_alg_first_acceptable_witness :
  CertificateVerifyGenerator._select_sig_alg "rsa" (3, 3) [(4, 3); (4, 1); (8, 4)]
    = Ok (Some (4, 1))
  ∧ CertificateVerifyGenerator._select_sig_alg "rsa" (3, 4) [(4, 3); (4, 1); (8, 4)]
    = Ok (Some (8, 4))
  ∧ ((8, 4) ∉ CertificateVerifyGenerator.rsa_pkcs1)
  ∧ (∃ chosen,
       CertificateVerifyGenerator._select_sig_alg "rsa-pss" (3, 3) [(4, 1); (8, 4)]
         = Ok chosen)
  ∧ CertificateVerifyGenerator._select_sig_alg "ecdsa" (3, 3) [(4, 3)]
    = Raise AssertionError.
Proof.
  destruct (select_sig_alg_first_acceptable "rsa" (3, 4) [(4, 3); (4, 1); (8, 4)])
    as (_ & _ & _ & _ & Htls13).
  destruct (select_sig_alg_first_acceptable "rsa-pss" (3, 3) [(4, 1); (8, 4)])
    as (Hreturns & _).
  destruct (select_sig_alg_first_acceptable "ecdsa" (3, 3) [(4, 3)])
    as (_ & _ & _ & Hassert & _).
  split; [reflexivity |]. split; [reflexivity |].
  split; [exact (Htls13 eq_refl (8, 4) eq_refl) |].
  split.
  - destruct (Hreturns (or_introl eq_refl)) as (chosen & Hrun & _).
    by exists chosen.
  - apply Hassert; discriminate.
Defined.

(** ** The record size across a Change Cipher Spec *)

Section RecordSize.

Context `{Collaborator}.

Lemma ccs_record_size (w : world) premaster :
  Py.tuple_le (version (state w)) (3, 3) = true →
  Self.fake (self w) = false →
  resuming (state w) = false →
  key (state w) !! "premaster_secret" = Some premaster →
  (ChangeCipherSpecGenerator.post_send w).1 = Ok tt
  ∧ recordSize (msg_sock (state (ChangeCipherSpecGenerator.post_send w).2)) =
      (if decide (_peer_record_size_limit (state w) = 0)
       then recordSize (msg_sock (state w))
       else _peer_record_size_limit (state w))
  ∧ send_record_limit (msg_sock (state (ChangeCipherSpecGenerator.post_send w).2)) =
      (if decide (_peer_record_size_limit (state w) = 0)
       then send_record_limit (msg_sock (state w))
       else _peer_record_size_limit (state w)).
Proof.
  intros Hv Hfake Hres Hpm.
  unfold ChangeCipherSpecGenerator.post_send. run_monad.
  rewrite (version_le_12 _ Hv), Hfake. simpl.
  destruct (Self.extended_master_secret (self w)) as [chosen |] eqn:Hchosen;
    simpl; rewrite Hres, ?Hchosen; simpl;
    unfold key_lookup; rewrite Hpm.
  - destruct chosen; simpl;
      unfold calc_pending_states; run_monad;
      unfold key_lookup; simpl; rewrite lookup_insert_eq; simpl;
      case_decide; simpl; done.
  - destruct (extended_master_secret (state w)); simpl;
      unfold calc_pending_states; run_monad;
      unfold key_lookup; simpl; rewrite lookup_insert_eq; simpl;
      case_decide; simpl; done.
Qed.

(** X23.  A record size set with [SetMaxRecordSize] does not survive the
    Change Cipher Spec: in a full handshake of TLS 1.2 or earlier,
    [ChangeCipherSpecGenerator.post_send] sets [recordSize] and
    [send_record_limit] to the peer's record size limit whenever that is
    not zero, whatever size the command had set; after
    [ResetHandshakeHashes] that limit is 2^14. *)
Theorem record_size_after_ccs (command : SetMaxRecordSize.t) (w : world)
    premaster :
  Py.tuple_le (version (state w)) (3, 3) = true →
  Self.fake (self w) = false →
  resuming (state w) = false →
  key (state w) !! "premaster_secret" = Some premaster →
  let sized := on_state (fun st => (SetMaxRecordSize.process command st).2) w in
  let reset := on_state (fun st => (ResetHandshakeHashes.process st).2) sized in
  recordSize (msg_sock (state sized)) = default (2 ^ 14) (SetMaxRecordSize.max_size command)
  ∧ (_peer_record_size_limit (state w) ≠ 0 →
     recordSize (msg_sock (state (ChangeCipherSpecGenerator.post_send sized).2))
       = _peer_record_size_limit (state w))
  ∧ recordSize (msg_sock (state (ChangeCipherSpecGenerator.post_send reset).2))
      = 2 ^ 14.
Proof.
  intros Hv Hfake Hres Hpm sized reset.
  assert (Hpm' : key (state reset) !! "premaster_secret" = Some premaster).
  { subst reset sized. destruct command as [[size |]]; simpl;
      by rewrite !lookup_delete_ne. }
  assert (Hsized : recordSize (msg_sock (state sized))
                   = default (2 ^ 14) (SetMaxRecordSize.max_size command)).
  { subst sized. by destruct command as [[size |]]. }
  assert (Hstate : version (state sized) = version (state w)
                   ∧ resuming (state sized) = resuming (state w)
                   ∧ key (state sized) = key (state w)
                   ∧ _peer_record_size_limit (state sized)
                     = _peer_record_size_limit (state w)
                   ∧ Self.fake (self sized) = Self.fake (self w)
                   ∧ version (state reset) = version (state w)
                   ∧ resuming (state reset) = resuming (state w)
                   ∧ _peer_record_size_limit (state reset) = 2 ^ 14
                   ∧ Self.fake (self reset) = Self.fake (self w)).
  { subst reset sized. by destruct command as [[size |]]. }
  destruct Hstate as (Hv1 & Hres1 & Hkey1 & Hlimit1 & Hfake1
                      & Hv2 & Hres2 & Hlimit2 & Hfake2).
  split; [exact Hsized |]. split.
  - intros Hlimit.
    destruct (ccs_record_size sized premaster) as (_ & Hsize & _);
      [by rewrite Hv1 | by rewrite Hfake1 | by rewrite Hres1
      | by rewrite Hkey1 |].
    rewrite Hsize, Hlimit1. by rewrite decide_False.
  - destruct (ccs_record_size reset premaster) as (_ & Hsize & _);
      [by rewrite Hv2 | by rewrite Hfake2 | by rewrite Hres2 | done |].
    rewrite Hsize, Hlimit2. by rewrite decide_False.
Qed.

End RecordSize.

Lemma record_size_after_ccs_witness :
  let command := {| SetMaxRecordSize.max_size := Some 512 |} in
  let sized := on_state (fun st => (SetMaxRecordSize.process command st).2) world0 in
  recordSize (msg_sock (state sized)) = 512
  ∧ recordSize (msg_sock (state (ChangeCipherSpecGenerator.post_send sized).2))
    = 2 ^ 14.
Proof.
  intros command sized.
  destruct (record_size_after_ccs command world0 [3; 3; 9]
              eq_refl eq_refl eq_refl eq_refl) as (Hset & Hccs & _).
  split; [exact Hset |]. apply Hccs. discriminate.
Defined.

(** ** The Client Hello generator *)

Section ClientHello.

Import ClientHelloGenerator.

Lemma generate_sets_attributes fresh self st :
  ∃ v sid,
    Object.version (generate fresh (self, st)).2.1 = Some v
    ∧ Object.session_id (generate fresh (self, st)).2.1 = Some sid
    ∧ (no_modifiers self → no_modifiers (generate fresh (self, st)).2.1).
Proof.
  unfold no_modifiers, generate. run_monad.
  destruct (Object.extensions self) as [entries |]; simpl.
  - destruct (_generate_extensions entries _) as [exts |]; simpl;
      [| by eauto 6].
    destruct (Object.modifiers self) as [mods |]; simpl; [| by eauto 6].
    destruct (run_modifiers _ _ _) as [[h |] st']; simpl; by eauto 6.
  - destruct (Object.modifiers self) as [mods |]; simpl; [| by eauto 6].
    destruct (run_modifiers _ _ _) as [[h |] st']; simpl; by eauto 6.
Qed.

Lemma generate_fixed_attributes fresh self st v sid :
  Object.version self = Some v → Object.session_id self = Some sid →
  Object.version (generate fresh (self, st)).2.1 = Some v
  ∧ Object.session_id (generate fresh (self, st)).2.1 = Some sid
  ∧ ∀ h, (generate fresh (self, st)).1 = Ok h →
      client_version (generate fresh (self, st)).2.2 = v
      ∧ (no_modifiers self →
         Hello.client_version h = v ∧ Hello.session_id h = sid).
Proof.
  intros Hv Hsid. unfold generate. run_monad. rewrite Hv, Hsid.
  assert (Hsame : match sid with b :: session => b :: session | [] => [] end = sid)
    by (by destruct sid).
  cbn [fst snd].
  destruct (Object.extensions self) as [entries |]; simpl.
  - destruct (_generate_extensions entries _) as [exts |]; simpl.
    + destruct (Object.modifiers self) as [mods |] eqn:Hmods; simpl.
      * destruct (run_modifiers _ _ _) as [[h |] st'] eqn:Hrun; simpl.
        -- rewrite Hsame. split; [done |]. split; [done |].
           intros ? [= <-]. split; [done |].
           intros [Hnone | Hnil]; [congruence |].
        assert (mods = []) as -> by congruence. simpl in Hrun.
           injection Hrun as <- <-. by rewrite Hsame.
        -- rewrite Hsame. split; [done |]. split; [done |]. discriminate.
      * rewrite Hsame. split; [done |]. split; [done |].
        intros ? [= <-]. by split.
    + rewrite Hsame. split; [done |]. split; [done |]. discriminate.
  - destruct (Object.modifiers self) as [mods |] eqn:Hmods; simpl.
    + destruct (run_modifiers _ _ _) as [[h |] st'] eqn:Hrun; simpl.
      * rewrite Hsame. split; [done |]. split; [done |].
        intros ? [= <-]. split; [done |].
        intros [Hnone | Hnil]; [congruence |].
        assert (mods = []) as -> by congruence. simpl in Hrun.
        injection Hrun as <- <-. by rewrite Hsame.
      * rewrite Hsame. split; [done |]. split; [done |]. discriminate.
    + rewrite Hsame. split; [done |]. split; [done |].
      intros ? [= <-]. by split.
Qed.

Lemma generate_random fresh self st h after :
  generate fresh (self, st) = (Ok h, after) → no_modifiers self →
  Hello.random h = client_random (conn after.2)
  ∧ Hello.random h ≠ []
  ∧ (∀ b random, Object.random self = Some (b :: random) →
       Hello.random h = b :: random)
  ∧ (Object.random self = None ∨ Object.random self = Some [] →
     Hello.random h = match client_random (conn st) with
                      | [] => replicate 32 0
                      | b :: random => b :: random
                      end).
Proof.
  intros Hrun Hmods.
  assert (Hplain : ∃ exts,
    h = {| Hello.ssl2 := Object.ssl2 self;
           Hello.client_version := default (client_version st) (Object.version self);
           Hello.random := Hello.random h;
           Hello.session_id := Hello.session_id h;
           Hello.cipher_suites := Object.ciphers self;
           Hello.extensions := exts;
           Hello.compression_methods := Object.compression self |}
    ∧ Hello.random h = client_random (conn after.2)
    ∧ Hello.random h =
        match match Object.random self with
              | Some (b :: random) => b :: random
              | _ => client_random (conn st)
              end with
        | [] => replicate 32 0
        | b :: random => b :: random
        end).
  { revert Hrun. unfold generate. run_monad.
    destruct Hmods as [Hmods | Hmods]; rewrite Hmods;
      destruct (Object.extensions self) as [entries |]; simpl;
      try (destruct (_generate_extensions entries _) as [exts |]; simpl;
           [| discriminate]);
      intros [= <- <-]; simpl; eexists; (split; [| split]);
      try reflexivity;
      by destruct (Object.version self), (Object.random self) as [[|] |],
           (client_random (conn st)). }
  destruct Hplain as (exts & _ & Hstate & Hrandom).
  split; [done |]. split; [| split].
  - rewrite Hrandom. by destruct (Object.random self) as [[|] |],
      (client_random (conn st)).
  - intros b random Hgiven. by rewrite Hrandom, Hgiven.
  - intros [Hgiven | Hgiven]; rewrite Hrandom, Hgiven;
      by destruct (client_random (conn st)).
Qed.

(** X24.  A Client Hello generator fixes its version and session ID the
    first time [generate] runs, also when that run raises: every later run
    of the same object, on whatever state and whatever the random source
    gives, keeps both, puts them in the message it returns and stores the
    version in [state.client_version]; the state's own session ID and
    client version are not looked at again. *)
Theorem hello_generator_keeps_first_choice fresh self st :
  ∃ v sid,
    Object.version (generate fresh (self, st)).2.1 = Some v
    ∧ Object.session_id (generate fresh (self, st)).2.1 = Some sid
    ∧ ∀ fresh' st' h,
        (generate fresh' ((generate fresh (self, st)).2.1, st')).1 = Ok h →
        Object.version
          (generate fresh' ((generate fresh (self, st)).2.1, st')).2.1 = Some v
        ∧ Object.session_id
            (generate fresh' ((generate fresh (self, st)).2.1, st')).2.1 = Some sid
        ∧ client_version
            (generate fresh' ((generate fresh (self, st)).2.1, st')).2.2 = v
        ∧ (no_modifiers self →
           Hello.client_version h = v ∧ Hello.session_id h = sid).
Proof.
  destruct (generate_sets_attributes fresh self st) as (v & sid & Hv & Hsid & Hmods).
  exists v, sid. split; [done |]. split; [done |].
  intros fresh' st' h Hrun.
  destruct (generate_fixed_attributes fresh' _ st' v sid Hv Hsid)
    as (Hv' & Hsid' & Hmsg).
  destruct (Hmsg h Hrun) as [Hstate Hhello].
  split; [done |]. split; [done |]. split; [done |].
  intros Hnone. apply Hhello. by apply Hmods.
Qed.

(** X25.  Without modifiers the random of the Client Hello is the
    generator's own when it has a non-empty one, else the state's, else 32
    zero bytes, never empty; it is left in [state.client_random], so a
    later Client Hello on the same state from a generator without a random
    of its own carries the same bytes. *)
Theorem hello_random_is_kept fresh self st h after :
  generate fresh (self, st) = (Ok h, after) → no_modifiers self →
  Hello.random h = client_random (conn after.2)
  ∧ Hello.random h ≠ []
  ∧ (∀ b random, Object.random self = Some (b :: random) →
       Hello.random h = b :: random)
  ∧ (Object.random self = None ∨ Object.random self = Some [] →
     Hello.random h = match client_random (conn st) with
                      | [] => replicate 32 0
                      | b :: random => b :: random
                      end)
  ∧ ∀ fresh' other h' after',
      Object.random other = None ∨ Object.random other = Some [] →
      no_modifiers other →
      generate fresh' (other, after.2) = (Ok h', after') →
      Hello.random h' = Hello.random h.
Proof.
  intros Hrun Hmods.
  destruct (generate_random _ _ _ _ _ Hrun Hmods) as (Hstate & Hne & Hown & Hdef).
  split; [done |]. split; [done |]. split; [done |]. split; [done |].
  intros fresh' other h' after' Hother Hmods' Hrun'.
  destruct (generate_random _ _ _ _ _ Hrun' Hmods') as (_ & _ & _ & Hdef').
  rewrite (Hdef' Hother), <- Hstate.
  by destruct (Hello.random h).
Qed.

End ClientHello.

Lemma hello_generator_keeps_first_choice_witness :
  let self := ClientHelloGenerator.__init__ (Some [47]) None None None None None
                false None in
  let st := {| ClientHelloGenerator.conn := state0;
               ClientHelloGenerator.client_version := (3, 3) |} in
  let st' := {| ClientHelloGenerator.conn := set_client_random [] state0;
                ClientHelloGenerator.client_version := (3, 4) |} in
  let first := ClientHelloGenerator.generate [] (self, st) in
  ∃ h, (ClientHelloGenerator.generate [] (first.2.1, st')).1 = Ok h
       ∧ ClientHelloGenerator.Hello.client_version h = (3, 3)
       ∧ ClientHelloGenerator.Hello.session_id h = [13].
Proof.
  intros self st st' first.
  destruct (hello_generator_keeps_first_choice [] self st)
    as (v & sid & Hv & Hsid & Hlater).
  injection Hv as <-. injection Hsid as <-.
  eexists. split; [reflexivity |].
  destruct (Hlater [] st' _ eq_refl) as (_ & _ & _ & Hhello).
  apply Hhello. by left.
Defined.

Lemma hello_random_is_kept_witness :
  let self := ClientHelloGenerator.__init__ (Some [47]) None None None None None
                false None in
  let st := {| ClientHelloGenerator.conn := set_client_random [] state0;
               ClientHelloGenerator.client_version := (3, 3) |} in
  let run := ClientHelloGenerator.generate [] (self, st) in
  ∃ h, run.1 = Ok h
       ∧ ClientHelloGenerator.Hello.random h = replicate 32 0
       ∧ client_random (ClientHelloGenerator.conn run.2.2) = replicate 32 0.
Proof.
  intros self st run.
  assert (Hrun : ∃ h, run.1 = Ok h) by (eexists; reflexivity).
  destruct Hrun as [h Hh]. exists h. split; [exact Hh |].
  assert (Hpair : ClientHelloGenerator.generate [] (self, st) = (Ok h, run.2)).
  { rewrite <- Hh. apply surjective_pairing. }
  destruct (hello_random_is_kept [] self st h run.2 Hpair (or_introl eq_refl))
    as (Hstate & _ & _ & Hdefault & _).
  split; [exact (Hdefault (or_introl eq_refl)) |].
  rewrite <- Hstate. exact (Hdefault (or_introl eq_refl)).
Defined.
